(** * Financial research dashboard: the streaming client of [static/script.js]

    A shallow embedding of the browser script of the financial research
    agent example: the SSE decode loop and event dispatch of the "Analyze"
    click handler, the progress stepper, the result renderer and the
    side-channel loaders, with the properties of the specification settled
    against them.

    Conventions of the embedding.
    - A JavaScript string is a [string]: one character per UTF-16 code unit,
      restricted to the code units U+0000..U+00FF.
    - The page is a record [Page] of the DOM regions and globals the script
      reads or writes; a region records the data written into it, not the
      HTML markup built around that data.  Where the script writes a value
      as text, the region records the value, and the conversion to a string
      is made for what it can do besides: throw.
    - [async] functions are cut at their [await]s: each piece is a function
      from the page before to the page after, so that pieces of different
      handlers interleave on the one shared page as they do on the event
      loop. *)

From Stdlib Require Import ZArith NArith List Ascii String Bool Lia.
From stdpp Require Import gmap strings.

Local Open Scope bool_scope.

(** ** Built-in string operations used by the script *)

Module JS.

Definition LF : ascii := Ascii.ascii_of_nat 10.
Definition CR : ascii := Ascii.ascii_of_nat 13.

(** ECMAScript LineTerminator, within U+0000..U+00FF: LF and CR. *)
Definition is_line_terminator (c : ascii) : bool :=
  Ascii.eqb c LF || Ascii.eqb c CR.

(** ECMAScript WhiteSpace and LineTerminator, as stripped by
    [String.prototype.trim], within U+0000..U+00FF: TAB, LF, VT, FF, CR,
    SPACE and NO-BREAK SPACE. *)
Definition is_white_space (c : ascii) : bool :=
  let n := Ascii.nat_of_ascii c in
  ((9 <=? n)%nat && (n <=? 13)%nat) || (n =? 32)%nat || (n =? 160)%nat.

Fixpoint trimStart (s : string) : string :=
  match s with
  | EmptyString => EmptyString
  | String c r => if is_white_space c then trimStart r else s
  end.

Fixpoint trimEnd (s : string) : string :=
  match s with
  | EmptyString => EmptyString
  | String c r =>
      match trimEnd r with
      | EmptyString => if is_white_space c then EmptyString else String c EmptyString
      | r' => String c r'
      end
  end.

(** [s.trim()] *)
Definition trim (s : string) : string := trimEnd (trimStart s).

(** [!s] for a string [s]: only the empty string is falsy. *)
Definition is_empty (s : string) : bool :=
  match s with EmptyString => true | _ => false end.

Definition push_front (c : ascii) (l : list string) : list string :=
  match l with
  | [] => [String c EmptyString]
  | h :: t => String c h :: t
  end.

(** [s.split('\n\n')]: the pieces between the successive, non-overlapping
    occurrences of the separator, scanning from the left.  The result is
    never empty: a string without separator is its own single piece. *)
Fixpoint split_blank (s : string) : list string :=
  match s with
  | EmptyString => [EmptyString]
  | String c r =>
      match r with
      | String c' r' =>
          if Ascii.eqb c LF && Ascii.eqb c' LF
          then EmptyString :: split_blank r'
          else push_front c (split_blank r)
      | EmptyString => [String c EmptyString]
      end
  end.

(** [lines.pop()] on a non-empty array: the array without its last element,
    and that element. *)
Definition pop (l : list string) : list string * string :=
  (removelast l, List.last l EmptyString).

(** The lines of a string as seen by [^] and [$] under the [m] flag: the
    maximal runs between line terminators. *)
Fixpoint split_lines (s : string) : list string :=
  match s with
  | EmptyString => [EmptyString]
  | String c r =>
      if is_line_terminator c then EmptyString :: split_lines r
      else push_front c (split_lines r)
  end.

(** [p] followed by a remainder: the remainder. *)
Fixpoint strip_prefix (p s : string) : option string :=
  match p with
  | EmptyString => Some s
  | String a p' =>
      match s with
      | EmptyString => None
      | String b s' => if Ascii.eqb a b then strip_prefix p' s' else None
      end
  end.

Fixpoint first_field (p : string) (ls : list string) : option string :=
  match ls with
  | [] => None
  | l :: ls' =>
      match strip_prefix p l with
      | Some (String c r) => Some (String c r)
      | _ => first_field p ls'
      end
  end.

(** [s.match(/^<p>(.+)$/m)] for a literal prefix [p] without line
    terminator: [None] when there is no match, otherwise capture group 1.
    The leftmost match is the first line that starts with [p] and goes on
    with at least one character; [.+] is greedy and [.] excludes line
    terminators, so the group is the rest of that line. *)
Definition match_field (p s : string) : option string :=
  first_field p (split_lines s).

(** [String.prototype.toLowerCase] on U+0000..U+00FF: A-Z and the capital
    letters U+00C0..U+00DE (but not the multiplication sign U+00D7) move
    up by 32. *)
Definition lower_char (c : ascii) : ascii :=
  let n := Ascii.nat_of_ascii c in
  if ((65 <=? n)%nat && (n <=? 90)%nat)
     || ((192 <=? n)%nat && (n <=? 222)%nat && negb (n =? 215)%nat)
  then Ascii.ascii_of_nat (n + 32) else c.

Fixpoint toLowerCase (s : string) : string :=
  match s with
  | EmptyString => EmptyString
  | String c r => String (lower_char c) (toLowerCase r)
  end.

(** [s.includes(sub)] *)
Fixpoint includes (s sub : string) : bool :=
  match strip_prefix sub s with
  | Some _ => true
  | None =>
      match s with
      | EmptyString => false
      | String _ r => includes r sub
      end
  end.

End JS.

(** ** JSON values and [JSON.parse] *)

Module JSON.

(** The values the script handles: what [JSON.parse] builds, and
    [undefined], which a property access can return.  A number keeps its
    literal as sign, decimal mantissa and decimal exponent: it denotes the
    double nearest to [(-1)^neg * mant * 10^exp10].  The members of an
    object are kept in source order. *)
#[warnings="-register-all"]
Inductive value : Type :=
| Undefined
| Null
| Bool (b : bool)
| Number (neg : bool) (mant : N) (exp10 : Z)
| Str (s : string)
| Array (xs : list value)
| Object (members : list (string * value)).

Definition quote : ascii := Ascii.ascii_of_nat 34.
Definition backslash : ascii := Ascii.ascii_of_nat 92.

Definition is_ws (c : ascii) : bool :=
  let n := Ascii.nat_of_ascii c in
  (n =? 9)%nat || (n =? 10)%nat || (n =? 13)%nat || (n =? 32)%nat.

Fixpoint skip_ws (s : string) : string :=
  match s with
  | EmptyString => EmptyString
  | String c r => if is_ws c then skip_ws r else s
  end.

Definition digit_val (c : ascii) : option N :=
  let n := Ascii.nat_of_ascii c in
  if (48 <=? n)%nat && (n <=? 57)%nat then Some (N.of_nat (n - 48)) else None.

Definition hex_val (c : ascii) : option N :=
  let n := Ascii.nat_of_ascii c in
  if (48 <=? n)%nat && (n <=? 57)%nat then Some (N.of_nat (n - 48))
  else if (65 <=? n)%nat && (n <=? 70)%nat then Some (N.of_nat (n - 55))
  else if (97 <=? n)%nat && (n <=? 102)%nat then Some (N.of_nat (n - 87))
  else None.

Definition hex4 (a b c d : ascii) : option N :=
  match hex_val a, hex_val b, hex_val c, hex_val d with
  | Some x, Some y, Some z, Some w => Some (((x * 16 + y) * 16 + z) * 16 + w)%N
  | _, _, _, _ => None
  end.

(** The code unit of a [\uXXXX] escape.  A unit above U+00FF has no
    character in the embedding and is kept as U+00FF: the text is then
    accepted as [JSON.parse] accepts it, and only the content of the string
    is approximated. *)
Definition unit_of (n : N) : ascii :=
  if (n <=? 255)%N then Ascii.ascii_of_N n else Ascii.ascii_of_nat 255.

(** The character of a single-letter escape: one of
    quote, backslash, slash, b, f, n, r, t. *)
Definition simple_escape (e : ascii) : option ascii :=
  let n := Ascii.nat_of_ascii e in
  if (n =? 34)%nat then Some e
  else if (n =? 92)%nat then Some e
  else if (n =? 47)%nat then Some e
  else if (n =? 98)%nat then Some (Ascii.ascii_of_nat 8)
  else if (n =? 102)%nat then Some (Ascii.ascii_of_nat 12)
  else if (n =? 110)%nat then Some (Ascii.ascii_of_nat 10)
  else if (n =? 114)%nat then Some (Ascii.ascii_of_nat 13)
  else if (n =? 116)%nat then Some (Ascii.ascii_of_nat 9)
  else None.

Definition cons_char (c : ascii) (r : option (string * string)) :
  option (string * string) :=
  match r with
  | Some (x, rest) => Some (String c x, rest)
  | None => None
  end.

(** A string literal after its opening quote: its content and the text
    after the closing quote. *)
Fixpoint string_body (s : string) : option (string * string) :=
  match s with
  | EmptyString => None
  | String c r =>
      if Ascii.eqb c quote then Some (EmptyString, r)
      else if Ascii.eqb c backslash then
        match r with
        | EmptyString => None
        | String e r1 =>
            match simple_escape e with
            | Some x => cons_char x (string_body r1)
            | None =>
                if (Ascii.nat_of_ascii e =? 117)%nat then
                  match r1 with
                  | String h1 (String h2 (String h3 (String h4 r2))) =>
                      match hex4 h1 h2 h3 h4 with
                      | Some n => cons_char (unit_of n) (string_body r2)
                      | None => None
                      end
                  | _ => None
                  end
                else None
            end
        end
      else if (Ascii.nat_of_ascii c <? 32)%nat then None
      else cons_char c (string_body r)
  end.

(** The longest run of decimal digits: its value, its length, the rest. *)
Fixpoint digits (s : string) (acc : N) (len : nat) : N * nat * string :=
  match s with
  | EmptyString => (acc, len, s)
  | String c r =>
      match digit_val c with
      | Some d => digits r (acc * 10 + d)%N (S len)
      | None => (acc, len, s)
      end
  end.

(** [int]: a single 0, or a non-zero digit followed by digits. *)
Definition int_part (s : string) : option (N * string) :=
  match s with
  | EmptyString => None
  | String c r =>
      match digit_val c with
      | Some 0%N => Some (0%N, r)
      | Some d => let '(m, _, rest) := digits r d 0 in Some (m, rest)
      | None => None
      end
  end.

(** [frac]: optional; a point followed by at least one digit. *)
Definition frac_part (m : N) (s : string) : option (N * nat * string) :=
  match s with
  | String c r =>
      if (Ascii.nat_of_ascii c =? 46)%nat then
        match digits r m 0 with
        | (_, O, _) => None
        | res => Some res
        end
      else Some (m, O, s)
  | EmptyString => Some (m, O, s)
  end.

(** [exp]: optional; e or E, an optional sign, at least one digit. *)
Definition exp_part (s : string) : option (Z * string) :=
  match s with
  | String c r =>
      if (Ascii.nat_of_ascii c =? 101)%nat || (Ascii.nat_of_ascii c =? 69)%nat then
        let '(sign, r1) :=
          match r with
          | String c1 r' =>
              if (Ascii.nat_of_ascii c1 =? 45)%nat then (true, r')
              else if (Ascii.nat_of_ascii c1 =? 43)%nat then (false, r')
              else (false, r)
          | EmptyString => (false, r)
          end in
        match digits r1 0 0 with
        | (_, O, _) => None
        | (e, _, rest) => Some (if sign then (- Z.of_N e)%Z else Z.of_N e, rest)
        end
      else Some (0%Z, s)
  | EmptyString => Some (0%Z, s)
  end.

Definition number (s : string) : option (value * string) :=
  let '(neg, s1) :=
    match s with
    | String c r => if (Ascii.nat_of_ascii c =? 45)%nat then (true, r) else (false, s)
    | EmptyString => (false, s)
    end in
  match int_part s1 with
  | None => None
  | Some (m, s2) =>
      match frac_part m s2 with
      | None => None
      | Some (m', k, s3) =>
          match exp_part s3 with
          | None => None
          | Some (e, s4) => Some (Number neg m' (e - Z.of_nat k), s4)
          end
      end
  end.

Definition literal (s : string) : option (value * string) :=
  match JS.strip_prefix "true" s with
  | Some r => Some (Bool true, r)
  | None =>
      match JS.strip_prefix "false" s with
      | Some r => Some (Bool false, r)
      | None =>
          match JS.strip_prefix "null" s with
          | Some r => Some (Null, r)
          | None => number s
          end
      end
  end.

Definition is_char (n : nat) (c : ascii) : bool := (Ascii.nat_of_ascii c =? n)%nat.

(** A value at the head of [s] (no leading whitespace), the elements of an
    array after its bracket, the members of an object after its brace.
    [fuel] bounds the number of nested calls. *)
Fixpoint parse_value (fuel : nat) (s : string) : option (value * string) :=
  match fuel with
  | O => None
  | S fuel =>
      match s with
      | EmptyString => None
      | String c r =>
          if is_char 123 c then
            match skip_ws r with
            | EmptyString => None
            | String c1 r1 =>
                if is_char 125 c1 then Some (Object [], r1)
                else parse_members fuel (String c1 r1) []
            end
          else if is_char 91 c then
            match skip_ws r with
            | EmptyString => None
            | String c1 r1 =>
                if is_char 93 c1 then Some (Array [], r1)
                else parse_elements fuel (String c1 r1) []
            end
          else if Ascii.eqb c quote then
            match string_body r with
            | Some (x, rest) => Some (Str x, rest)
            | None => None
            end
          else literal s
      end
  end
with parse_elements (fuel : nat) (s : string) (acc : list value) :
  option (value * string) :=
  match fuel with
  | O => None
  | S fuel =>
      match parse_value fuel (skip_ws s) with
      | None => None
      | Some (v, r) =>
          match skip_ws r with
          | EmptyString => None
          | String c r' =>
              if is_char 44 c then parse_elements fuel r' (v :: acc)
              else if is_char 93 c then Some (Array (rev (v :: acc)), r')
              else None
          end
      end
  end
with parse_members (fuel : nat) (s : string) (acc : list (string * value)) :
  option (value * string) :=
  match fuel with
  | O => None
  | S fuel =>
      match skip_ws s with
      | EmptyString => None
      | String q r0 =>
          if Ascii.eqb q quote then
            match string_body r0 with
            | None => None
            | Some (k, r1) =>
                match skip_ws r1 with
                | EmptyString => None
                | String c r2 =>
                    if is_char 58 c then
                      match parse_value fuel (skip_ws r2) with
                      | None => None
                      | Some (v, r3) =>
                          match skip_ws r3 with
                          | EmptyString => None
                          | String c' r4 =>
                              if is_char 44 c' then parse_members fuel r4 ((k, v) :: acc)
                              else if is_char 125 c' then
                                Some (Object (rev ((k, v) :: acc)), r4)
                              else None
                          end
                      end
                    else None
                end
            end
          else None
      end
  end.

(** [JSON.parse(text)]: [None] stands for the [SyntaxError] it throws.
    One value, surrounded by optional whitespace, and nothing else. *)
Definition parse (text : string) : option value :=
  match parse_value (2 * String.length text + 2) (skip_ws text) with
  | Some (v, rest) => if JS.is_empty (skip_ws rest) then Some v else None
  | None => None
  end.

(** Own member [k] of an object; of two members with one key the later
    one stands. *)
Fixpoint lookup (k : string) (ms : list (string * value)) : option value :=
  match ms with
  | [] => None
  | (k', v) :: ms' =>
      match lookup k ms' with
      | Some v' => Some v'
      | None => if String.eqb k k' then Some v else None
      end
  end.

(** [v.k] for the property names the script reads (none of them is
    inherited from a prototype, and [length] is read with [length] below):
    [None] stands for the [TypeError] of reading a property of [null] or
    [undefined]. *)
Definition get (v : value) (k : string) : option value :=
  match v with
  | Undefined | Null => None
  | Object ms =>
      match lookup k ms with
      | Some x => Some x
      | None => Some Undefined
      end
  | _ => Some Undefined
  end.

(** Whether the double of a number literal is zero: the mantissa is zero,
    or the value is at most 2^-1075 and rounds to zero. *)
Definition is_zero (mant : N) (exp10 : Z) : bool :=
  (mant =? 0)%N
  || ((exp10 <? 0)%Z
      && (Z.of_N mant * 2 ^ 1075 <=? 10 ^ (- exp10))%Z).

(** ToBoolean *)
Definition truthy (v : value) : bool :=
  match v with
  | Undefined | Null => false
  | Bool b => b
  | Number _ m e => negb (is_zero m e)
  | Str s => negb (JS.is_empty s)
  | Array _ | Object _ => true
  end.

(** A double: zero, a finite value [mantissa * 2^exponent] above zero, or
    infinity.  A normal value has [2^52 <= mantissa < 2^53]; a subnormal
    one has the exponent -1074 and a smaller mantissa. *)
Inductive double : Type :=
| DoubleZero
| DoubleFinite (mantissa exponent : Z)
| DoubleInfinity.

(** The integer nearest to [num / den], the even one of two. *)
Definition round_half_even (num den : Z) : Z :=
  let q := (num / den)%Z in
  let r := (num mod den)%Z in
  if (2 * r <? den)%Z then q
  else if (den <? 2 * r)%Z then (q + 1)%Z
  else if Z.even q then q else (q + 1)%Z.

(** [base^e] above and below the fraction bar: [base^e] is
    [pow_up base e / pow_down base e] for an exponent of either sign. *)
Definition pow_up (base e : Z) : Z := if (0 <=? e)%Z then (base ^ e)%Z else 1%Z.
Definition pow_down (base e : Z) : Z := if (0 <=? e)%Z then 1%Z else (base ^ (- e))%Z.

(** [(m * 10^e) / 2^b] as a fraction of two integers above zero *)
Definition scaled (m e b : Z) : Z * Z :=
  ((m * pow_up 10 e * pow_down 2 b)%Z, (pow_down 10 e * pow_up 2 b)%Z).

(** The double of a number literal: [m * 10^e] rounded to 53 bits, to the
    nearest, the even one of two; below the normal range the exponent
    stays at -1074, and a value that rounds to 2^1024 or more is
    infinity. *)
Definition to_double (m : N) (e : Z) : double :=
  if (m =? 0)%N then DoubleZero
  else
    let m := Z.of_N m in
    let '(n0, d0) := scaled m e 0 in
    let b0 := (Z.log2 n0 - Z.log2 d0 - 52)%Z in
    let '(n1, d1) := scaled m e b0 in
    let b1 := if (n1 / d1 <? 2 ^ 52)%Z then (b0 - 1)%Z else b0 in
    let b := Z.max b1 (-1074) in
    let '(n, d) := scaled m e b in
    let M := round_half_even n d in
    let '(M, b) := if (M =? 2 ^ 53)%Z then ((2 ^ 52)%Z, (b + 1)%Z) else (M, b) in
    if (M =? 0)%Z then DoubleZero
    else if (971 <? b)%Z then DoubleInfinity
    else DoubleFinite M b.

Definition double_eqb (x y : double) : bool :=
  match x, y with
  | DoubleZero, DoubleZero => true
  | DoubleFinite m e, DoubleFinite m' e' => (m =? m')%Z && (e =? e')%Z
  | DoubleInfinity, DoubleInfinity => true
  | _, _ => false
  end.

Definition digit_char (d : Z) : ascii := Ascii.ascii_of_N (Z.to_N (48 + d)).

Fixpoint decimal (fuel : nat) (n : Z) (acc : string) : string :=
  match fuel with
  | O => acc
  | S fuel' =>
      let acc' := String (digit_char (n mod 10)%Z) acc in
      if (n / 10 =? 0)%Z then acc' else decimal fuel' (n / 10)%Z acc'
  end.

(** The decimal digits of a natural number *)
Definition decimal_of (n : Z) : string :=
  decimal (S (Z.to_nat (Z.log2 n))) n EmptyString.

Fixpoint zeros (n : nat) : string :=
  match n with O => EmptyString | S n' => String "0" (zeros n') end.

(** The [n] with [10^(n-1) <= M * 2^E < 10^n] *)
Definition magnitude (M E : Z) : Z :=
  let below k := (M * pow_up 2 E * pow_down 10 k <? pow_down 2 E * pow_up 10 k)%Z in
  let n1 := (((Z.log2 M + E) * 30103) / 100000)%Z in
  if below n1 then (if below (n1 - 1)%Z then (n1 - 1)%Z else n1)
  else if below (n1 + 1)%Z then (n1 + 1)%Z else (n1 + 2)%Z.

(** The shortest decimal [s * 10^(n-k)], [s] of [k] digits, whose double is
    [M * 2^E]; of two of one length the nearer, of two as near the even
    one.  At each length, from [k] on, the two decimals around the value
    are tried; seventeen digits always do.  The result is [s] and [n]. *)
Fixpoint shortest (fuel : nat) (k : Z) (M E n : Z) : Z * Z :=
  let t := (n - k)%Z in
  let '(num, den) := ((M * pow_up 2 E * pow_down 10 t)%Z, (pow_down 2 E * pow_up 10 t)%Z) in
  let lo := (num / den)%Z in
  let hi := (lo + 1)%Z in
  let r := (num mod den)%Z in
  let lo_first := (2 * r <? den)%Z || ((2 * r =? den)%Z && Z.even lo) in
  let reads_back s := double_eqb (to_double (Z.to_N s) t) (DoubleFinite M E) in
  let pick s := if (s =? 10 ^ k)%Z then (1%Z, (n + 1)%Z) else (s, n) in
  let a := if lo_first then lo else hi in
  let b := if lo_first then hi else lo in
  if reads_back a then pick a
  else if reads_back b then pick b
  else
    match fuel with
    | O => (lo, n)
    | S fuel' => shortest fuel' (k + 1)%Z M E n
    end.

(** Number::toString, radix 10, of a double above zero: the digits of the
    shortest decimal, as an integer or with a point when the value has
    one to twenty-one digits before the point, with up to six zeros after
    [0.] for a small value, and in exponent notation otherwise. *)
Definition double_to_string (M E : Z) : string :=
  let '(s, n) := shortest 16 1 M E (magnitude M E) in
  let ds := decimal_of s in
  let k := Z.of_nat (String.length ds) in
  if (k <=? n)%Z && (n <=? 21)%Z then ds +:+ zeros (Z.to_nat (n - k))
  else if (0 <? n)%Z && (n <=? 21)%Z then
    String.substring 0 (Z.to_nat n) ds +:+ "."
    +:+ String.substring (Z.to_nat n) (String.length ds - Z.to_nat n) ds
  else if (-6 <? n)%Z && (n <=? 0)%Z then "0." +:+ zeros (Z.to_nat (- n)) +:+ ds
  else
    let exponent := (if (n - 1 <? 0)%Z then "-" else "+") +:+ decimal_of (Z.abs (n - 1)) in
    match ds with
    | String c EmptyString => String c ("e" +:+ exponent)
    | String c r => String c ("." +:+ r +:+ "e" +:+ exponent)
    | EmptyString => EmptyString
    end.

(** ToString of the number of a literal; both zeros print as [0]. *)
Definition number_to_string (neg : bool) (m : N) (e : Z) : string :=
  match to_double m e with
  | DoubleZero => "0"
  | DoubleFinite M E => (if neg then "-" else "") +:+ double_to_string M E
  | DoubleInfinity => (if neg then "-" else "") +:+ "Infinity"
  end.

(** ToString, as a template literal, the setter of [textContent] and
    [Array.prototype.join] apply it: [None] stands for the [TypeError] it
    throws.  An array joins the strings of its elements, [null] and
    [undefined] counting as empty.  An object built by [JSON.parse] has no
    method of its own: it prints through [Object.prototype.toString],
    unless it has a member [toString], which hides that method and is no
    function - then the conversion throws. *)
Fixpoint to_string (v : value) : option string :=
  match v with
  | Undefined => Some "undefined"
  | Null => Some "null"
  | Bool true => Some "true"
  | Bool false => Some "false"
  | Number neg m e => Some (number_to_string neg m e)
  | Str s => Some s
  | Array xs =>
      (fix join (l : list value) : option string :=
         match l with
         | [] => Some EmptyString
         | x :: rest =>
             let sx := match x with
                       | Undefined | Null => Some EmptyString
                       | _ => to_string x
                       end in
             match rest with
             | [] => sx
             | _ :: _ =>
                 match sx, join rest with
                 | Some a, Some b => Some (a +:+ "," +:+ b)
                 | _, _ => None
                 end
             end
         end) xs
  | Object ms =>
      match lookup "toString" ms with
      | Some _ => None
      | None => Some "[object Object]"
      end
  end.

(** Digits of a radix up to 16, to the end of the string: whether there is
    at least one, all are digits of the radix, and one is not zero. *)
Fixpoint radix_positive (radix : N) (s : string) (seen nonzero : bool) : bool :=
  match s with
  | EmptyString => seen && nonzero
  | String c r =>
      match hex_val c with
      | Some d =>
          if (d <? radix)%N
          then radix_positive radix r true (nonzero || negb (d =? 0)%N)
          else false
      | None => false
      end
  end.

(** StrUnsignedDecimalLiteral, to the end of the string, denoting a number
    above zero. *)
Definition decimal_positive (s : string) : bool :=
  if String.eqb s "Infinity" then true
  else
    let '(m1, k1, r1) := digits s 0 0 in
    let '(m2, k2, r2) :=
      match r1 with
      | String c r => if is_char 46 c then digits r m1 0 else (m1, O, r1)
      | EmptyString => (m1, O, r1)
      end in
    if (k1 + k2 =? 0)%nat then false
    else
      match exp_part r2 with
      | Some (e, EmptyString) => negb (is_zero m2 (e - Z.of_nat k2))
      | _ => false
      end.

(** Whether StringToNumber of [s] is above zero. *)
Definition string_positive (s : string) : bool :=
  match JS.trim s with
  | EmptyString => false
  | String c r =>
      if is_char 45 c then false
      else if is_char 43 c then decimal_positive r
      else
        match r with
        | String x r' =>
            if is_char 48 c && (is_char 120 x || is_char 88 x) then radix_positive 16 r' false false
            else if is_char 48 c && (is_char 111 x || is_char 79 x) then radix_positive 8 r' false false
            else if is_char 48 c && (is_char 98 x || is_char 66 x) then radix_positive 2 r' false false
            else decimal_positive (String c r)
        | EmptyString => decimal_positive (String c r)
        end
  end.

(** [v > 0]: [None] stands for the [TypeError] it throws.  An array or an
    object is compared by its string, as ToPrimitive ends in the call of
    [toString] for them. *)
Definition positive (v : value) : option bool :=
  match v with
  | Undefined | Null => Some false
  | Bool b => Some b
  | Number neg m e => Some (negb neg && negb (is_zero m e))
  | Str s => Some (string_positive s)
  | Array _ | Object _ =>
      match to_string v with
      | Some s => Some (string_positive s)
      | None => None
      end
  end.

(** [v.length > 0] for a value that is neither [null] nor [undefined];
    [None] stands for the [TypeError] of the comparison. *)
Definition length_positive (v : value) : option bool :=
  match v with
  | Array xs => Some (negb (Nat.eqb (List.length xs) 0))
  | Str s => Some (negb (JS.is_empty s))
  | Object ms =>
      match lookup "length" ms with
      | Some x => positive x
      | None => Some false
      end
  | _ => Some false
  end.

(** Write a JSON text with apostrophes for its quotation marks. *)
Fixpoint text (s : string) : string :=
  match s with
  | EmptyString => EmptyString
  | String c r => String (if is_char 39 c then quote else c) (text r)
  end.

End JSON.

(** ** The page *)

(** What the script throws or lets through: the [TypeError] of a property
    read on [null] or [undefined], of a call of something that is no
    function or of a conversion to a string or a number that finds no
    method to call, the [SyntaxError] of [JSON.parse], an [Error] with its
    message, and the rejection of a [fetch] or of a stream read. *)
Inductive exn : Type :=
| TypeError
| SyntaxError
| Error (message : string)
| TransportFailure.

Inductive ConsoleArg : Type :=
| ArgExn (e : exn)
| ArgValue (v : JSON.value).

Inductive ConsoleLevel : Type := LevelLog | LevelError.

Record ConsoleEntry : Type := {
  level : ConsoleLevel;
  label : string;
  arg : option ConsoleArg
}.

(** The two classes the script puts on a step element. *)
Record StepClasses : Type := {
  active : bool;
  completed : bool
}.

(** An entry of the activity log, by the data rendered into it. *)
Record LogEntry : Type := {
  log_timestamp : JSON.value;
  log_agentClass : string;
  log_agent : string;
  log_action : JSON.value;
  log_details : option JSON.value
}.

Record Badge : Type := {
  badge_textContent : string;
  badge_className : string
}.

Record Metrics : Type := {
  metric_verified : string;
  metric_recommendation : string
}.

Record FactCheck : Type := {
  check_icon : bool;
  check_claim : JSON.value;
  check_evidence : JSON.value;
  check_source : option JSON.value
}.

Record VerificationPanel : Type := {
  panel_passed : bool;
  panel_issues : JSON.value;
  panel_fact_checks : list FactCheck
}.

(** A canvas element: which node it is, and its [style.display]. *)
Record Canvas : Type := {
  canvas_node : nat;
  canvas_display : string
}.

(** A chart: the canvas node it is drawn on, and its data. *)
Record Chart : Type := {
  chart_canvas : nat;
  chart_labels : JSON.value;
  chart_symbol : JSON.value;
  chart_prices : JSON.value
}.

Record HistoryItem : Type := {
  item_id : JSON.value;
  item_company : JSON.value;
  item_class : string;
  item_recommendation : string;
  item_query : JSON.value;
  item_created_at : JSON.value
}.

Inductive HistoryList : Type :=
| HistoryAsServed
| HistoryLoading
| HistoryItems (items : list HistoryItem)
| HistoryNone
| HistoryFailed.

(** The regions of the main run: the [style.display] of the progress,
    activity and error sections, the text of the error banner, the entries
    of the activity log, the elements [step-<stage>] of the stepper that
    exist, by id, and the submit button. *)
Record RunRegions : Type := {
  progressSection : string;
  activitySection : string;
  errorSection : string;
  errorMessage : JSON.value;
  activityLogContent : list LogEntry;
  steps : gmap string StepClasses;
  analyzeBtn_disabled : bool;
  analyzeBtn_textContent : string
}.

Definition set_progressSection (v : string) (r : RunRegions) : RunRegions :=
  {| progressSection := v;
     activitySection := activitySection r;
     errorSection := errorSection r;
     errorMessage := errorMessage r;
     activityLogContent := activityLogContent r;
     steps := steps r;
     analyzeBtn_disabled := analyzeBtn_disabled r;
     analyzeBtn_textContent := analyzeBtn_textContent r |}.

Definition set_activitySection (v : string) (r : RunRegions) : RunRegions :=
  {| progressSection := progressSection r;
     activitySection := v;
     errorSection := errorSection r;
     errorMessage := errorMessage r;
     activityLogContent := activityLogContent r;
     steps := steps r;
     analyzeBtn_disabled := analyzeBtn_disabled r;
     analyzeBtn_textContent := analyzeBtn_textContent r |}.

Definition set_errorSection (v : string) (r : RunRegions) : RunRegions :=
  {| progressSection := progressSection r;
     activitySection := activitySection r;
     errorSection := v;
     errorMessage := errorMessage r;
     activityLogContent := activityLogContent r;
     steps := steps r;
     analyzeBtn_disabled := analyzeBtn_disabled r;
     analyzeBtn_textContent := analyzeBtn_textContent r |}.

Definition set_errorMessage (v : JSON.value) (r : RunRegions) : RunRegions :=
  {| progressSection := progressSection r;
     activitySection := activitySection r;
     errorSection := errorSection r;
     errorMessage := v;
     activityLogContent := activityLogContent r;
     steps := steps r;
     analyzeBtn_disabled := analyzeBtn_disabled r;
     analyzeBtn_textContent := analyzeBtn_textContent r |}.

Definition set_activityLogContent (v : list LogEntry) (r : RunRegions) : RunRegions :=
  {| progressSection := progressSection r;
     activitySection := activitySection r;
     errorSection := errorSection r;
     errorMessage := errorMessage r;
     activityLogContent := v;
     steps := steps r;
     analyzeBtn_disabled := analyzeBtn_disabled r;
     analyzeBtn_textContent := analyzeBtn_textContent r |}.

Definition set_steps (v : gmap string StepClasses) (r : RunRegions) : RunRegions :=
  {| progressSection := progressSection r;
     activitySection := activitySection r;
     errorSection := errorSection r;
     errorMessage := errorMessage r;
     activityLogContent := activityLogContent r;
     steps := v;
     analyzeBtn_disabled := analyzeBtn_disabled r;
     analyzeBtn_textContent := analyzeBtn_textContent r |}.

Definition set_analyzeBtn_disabled (v : bool) (r : RunRegions) : RunRegions :=
  {| progressSection := progressSection r;
     activitySection := activitySection r;
     errorSection := errorSection r;
     errorMessage := errorMessage r;
     activityLogContent := activityLogContent r;
     steps := steps r;
     analyzeBtn_disabled := v;
     analyzeBtn_textContent := analyzeBtn_textContent r |}.

Definition set_analyzeBtn_textContent (v : string) (r : RunRegions) : RunRegions :=
  {| progressSection := progressSection r;
     activitySection := activitySection r;
     errorSection := errorSection r;
     errorMessage := errorMessage r;
     activityLogContent := activityLogContent r;
     steps := steps r;
     analyzeBtn_disabled := analyzeBtn_disabled r;
     analyzeBtn_textContent := v |}.

(** The regions [displayResults] renders into.  [reportMarkdown] holds the
    markdown source whose conversion by [markdownToHtml] is the region's
    content; [None] in a region is the markup of the page as served. *)
Record ResultRegions : Type := {
  resultsSection : string;
  stockName : string;
  recommendationBadge : Badge;
  metricsGrid : option Metrics;
  recommendationText : string;
  reportMarkdown : option string;
  followUpQuestions : list JSON.value;
  verificationContent : option VerificationPanel
}.

Definition set_resultsSection (v : string) (r : ResultRegions) : ResultRegions :=
  {| resultsSection := v;
     stockName := stockName r;
     recommendationBadge := recommendationBadge r;
     metricsGrid := metricsGrid r;
     recommendationText := recommendationText r;
     reportMarkdown := reportMarkdown r;
     followUpQuestions := followUpQuestions r;
     verificationContent := verificationContent r |}.

Definition set_stockName (v : string) (r : ResultRegions) : ResultRegions :=
  {| resultsSection := resultsSection r;
     stockName := v;
     recommendationBadge := recommendationBadge r;
     metricsGrid := metricsGrid r;
     recommendationText := recommendationText r;
     reportMarkdown := reportMarkdown r;
     followUpQuestions := followUpQuestions r;
     verificationContent := verificationContent r |}.

Definition set_recommendationBadge (v : Badge) (r : ResultRegions) : ResultRegions :=
  {| resultsSection := resultsSection r;
     stockName := stockName r;
     recommendationBadge := v;
     metricsGrid := metricsGrid r;
     recommendationText := recommendationText r;
     reportMarkdown := reportMarkdown r;
     followUpQuestions := followUpQuestions r;
     verificationContent := verificationContent r |}.

Definition set_metricsGrid (v : option Metrics) (r : ResultRegions) : ResultRegions :=
  {| resultsSection := resultsSection r;
     stockName := stockName r;
     recommendationBadge := recommendationBadge r;
     metricsGrid := v;
     recommendationText := recommendationText r;
     reportMarkdown := reportMarkdown r;
     followUpQuestions := followUpQuestions r;
     verificationContent := verificationContent r |}.

Definition set_recommendationText (v : string) (r : ResultRegions) : ResultRegions :=
  {| resultsSection := resultsSection r;
     stockName := stockName r;
     recommendationBadge := recommendationBadge r;
     metricsGrid := metricsGrid r;
     recommendationText := v;
     reportMarkdown := reportMarkdown r;
     followUpQuestions := followUpQuestions r;
     verificationContent := verificationContent r |}.

Definition set_reportMarkdown (v : option string) (r : ResultRegions) : ResultRegions :=
  {| resultsSection := resultsSection r;
     stockName := stockName r;
     recommendationBadge := recommendationBadge r;
     metricsGrid := metricsGrid r;
     recommendationText := recommendationText r;
     reportMarkdown := v;
     followUpQuestions := followUpQuestions r;
     verificationContent := verificationContent r |}.

Definition set_followUpQuestions (v : list JSON.value) (r : ResultRegions) : ResultRegions :=
  {| resultsSection := resultsSection r;
     stockName := stockName r;
     recommendationBadge := recommendationBadge r;
     metricsGrid := metricsGrid r;
     recommendationText := recommendationText r;
     reportMarkdown := reportMarkdown r;
     followUpQuestions := v;
     verificationContent := verificationContent r |}.

Definition set_verificationContent (v : option VerificationPanel) (r : ResultRegions) : ResultRegions :=
  {| resultsSection := resultsSection r;
     stockName := stockName r;
     recommendationBadge := recommendationBadge r;
     metricsGrid := metricsGrid r;
     recommendationText := recommendationText r;
     reportMarkdown := reportMarkdown r;
     followUpQuestions := followUpQuestions r;
     verificationContent := v |}.

(** The regions of the side-channel loaders: the element [stockChart] of
    the document, if there is one; the "No Data" blocks appended next to
    it; the global [window.stockChartInstance]; the history sidebar.  A
    canvas that was taken out of the document is no region: a call that
    still holds it is given its node, and what is written to its style is
    seen by nobody. *)
Record SideRegions : Type := {
  stockChart : option Canvas;
  chartPlaceholders : nat;
  stockChartInstance : option Chart;
  historySidebar_open : bool;
  historyList : HistoryList
}.

Definition set_stockChart (v : option Canvas) (r : SideRegions) : SideRegions :=
  {| stockChart := v;
     chartPlaceholders := chartPlaceholders r;
     stockChartInstance := stockChartInstance r;
     historySidebar_open := historySidebar_open r;
     historyList := historyList r |}.

Definition set_chartPlaceholders (v : nat) (r : SideRegions) : SideRegions :=
  {| stockChart := stockChart r;
     chartPlaceholders := v;
     stockChartInstance := stockChartInstance r;
     historySidebar_open := historySidebar_open r;
     historyList := historyList r |}.

Definition set_stockChartInstance (v : option Chart) (r : SideRegions) : SideRegions :=
  {| stockChart := stockChart r;
     chartPlaceholders := chartPlaceholders r;
     stockChartInstance := v;
     historySidebar_open := historySidebar_open r;
     historyList := historyList r |}.

Definition set_historySidebar_open (v : bool) (r : SideRegions) : SideRegions :=
  {| stockChart := stockChart r;
     chartPlaceholders := chartPlaceholders r;
     stockChartInstance := stockChartInstance r;
     historySidebar_open := v;
     historyList := historyList r |}.

Definition set_historyList (v : HistoryList) (r : SideRegions) : SideRegions :=
  {| stockChart := stockChart r;
     chartPlaceholders := chartPlaceholders r;
     stockChartInstance := stockChartInstance r;
     historySidebar_open := historySidebar_open r;
     historyList := v |}.

(** The page: every region, the console, and the value of the query
    input. *)
Record Page : Type := {
  run : RunRegions;
  result : ResultRegions;
  side : SideRegions;
  console : list ConsoleEntry;
  queryInput_value : string
}.

Definition set_run (v : RunRegions) (r : Page) : Page :=
  {| run := v;
     result := result r;
     side := side r;
     console := console r;
     queryInput_value := queryInput_value r |}.

Definition set_result (v : ResultRegions) (r : Page) : Page :=
  {| run := run r;
     result := v;
     side := side r;
     console := console r;
     queryInput_value := queryInput_value r |}.

Definition set_side (v : SideRegions) (r : Page) : Page :=
  {| run := run r;
     result := result r;
     side := v;
     console := console r;
     queryInput_value := queryInput_value r |}.

Definition set_console (v : list ConsoleEntry) (r : Page) : Page :=
  {| run := run r;
     result := result r;
     side := side r;
     console := v;
     queryInput_value := queryInput_value r |}.

Definition set_queryInput_value (v : string) (r : Page) : Page :=
  {| run := run r;
     result := result r;
     side := side r;
     console := console r;
     queryInput_value := v |}.

Definition on_run (f : RunRegions → RunRegions) (p : Page) : Page :=
  set_run (f (run p)) p.
Definition on_result (f : ResultRegions → ResultRegions) (p : Page) : Page :=
  set_result (f (result p)) p.
Definition on_side (f : SideRegions → SideRegions) (p : Page) : Page :=
  set_side (f (side p)) p.

(** [console.log(label, arg)] and [console.error(label, arg)] *)
Definition console_log (l : string) (a : option ConsoleArg) (p : Page) : Page :=
  set_console (console p ++ [{| level := LevelLog; label := l; arg := a |}]) p.
Definition console_error (l : string) (a : option ConsoleArg) (p : Page) : Page :=
  set_console (console p ++ [{| level := LevelError; label := l; arg := a |}]) p.

(** ** Statements that may throw

    A computation runs on the page and either returns or throws; what it
    wrote to the page before throwing stays written. *)

Inductive outcome (A : Type) : Type :=
| Return (a : A)
| Throw (e : exn).
Arguments Return {A} a.
Arguments Throw {A} e.

Definition M (A : Type) : Type := Page → Page * outcome A.

#[global] Instance M_ret : MRet M := λ A a p, (p, Return a).
#[global] Instance M_bind : MBind M := λ A B f m p,
  match m p with
  | (p', Return a) => f a p'
  | (p', Throw e) => (p', Throw e)
  end.

Definition throw {A : Type} (e : exn) : M A := λ p, (p, Throw e).
Definition modify (f : Page → Page) : M unit := λ p, (f p, Return tt).

(** [v.k], throwing on [null] and [undefined] *)
Definition prop (v : JSON.value) (k : string) : M JSON.value :=
  match JSON.get v k with
  | Some x => mret x
  | None => throw TypeError
  end.

(** The receiver of a string method: anything but a string has no such
    method, or no property at all. *)
Definition as_string (v : JSON.value) : M string :=
  match v with
  | JSON.Str s => mret s
  | _ => throw TypeError
  end.

(** [xs.forEach(f)]: anything but an array has no [forEach]. *)
Definition as_array (v : JSON.value) : M (list JSON.value) :=
  match v with
  | JSON.Array xs => mret xs
  | _ => throw TypeError
  end.

(** The conversion of a value to a string, where a template literal, the
    setter of [textContent] or the [Date] constructor makes it. *)
Definition to_text (v : JSON.value) : M string :=
  match JSON.to_string v with
  | Some s => mret s
  | None => throw TypeError
  end.

Fixpoint forEach {A : Type} (xs : list A) (f : A → M unit) : M unit :=
  match xs with
  | [] => mret tt
  | x :: rest => f x;; forEach rest f
  end.

(** ** The script *)

Definition stages : list string := ["planning"; "searching"; "writing"; "verifying"].

(** The classes of the step [id], if there is one, after
    [add('completed')] and [remove('active')], or after [add('active')]. *)
Definition mark_step (id : string) (isDone : JSON.value) (p : Page) : Page :=
  match steps (run p) !! id with
  | None => p
  | Some step =>
      if JSON.truthy isDone then
        on_run (set_steps (<[id := {| active := false; completed := true |}]> (steps (run p)))) p
      else
        on_run (set_steps (<[id := {| active := true; completed := completed step |}]> (steps (run p)))) p
  end.

(** [updateProgress(stage, isDone = false)] *)
Definition updateProgress (stage isDone : JSON.value) : M unit :=
  name ← to_text stage;
  modify (mark_step ("step-" +:+ name) isDone).

(** [addActivityLog(data)]: the [Date] constructor converts the timestamp,
    the template literals the details, if truthy, and the action; the
    entry is appended after that. *)
Definition addActivityLog (data : JSON.value) : M unit :=
  timestamp ← prop data "timestamp";
  to_text timestamp;;
  agent ← prop data "agent" ≫= as_string;
  let agentClass := "agent-" +:+ JS.toLowerCase agent in
  details ← prop data "details";
  (if JSON.truthy details then to_text details else mret EmptyString);;
  action ← prop data "action";
  to_text action;;
  let entry := {| log_timestamp := timestamp;
                  log_agentClass := agentClass;
                  log_agent := agent;
                  log_action := action;
                  log_details := if JSON.truthy details then Some details else None |} in
  modify (on_run (λ r, set_activityLogContent (activityLogContent r ++ [entry]) r)).

(** [markdownToHtml(markdown)]: the chain of [replace] calls needs a
    string; the markup it builds is not modelled, the result stands for the
    conversion of this source. *)
Definition markdownToHtml (markdown : JSON.value) : M string :=
  as_string markdown.

Definition companies : list string :=
  ["amazon"; "apple"; "google"; "microsoft"; "tesla"; "meta"; "nvidia"].

(** [company.charAt(0).toUpperCase() + company.slice(1)], for the names of
    [companies], whose initials are letters a-z. *)
Definition capitalize (company : string) : string :=
  match company with
  | EmptyString => EmptyString
  | String c r =>
      let n := Ascii.nat_of_ascii c in
      String (if (97 <=? n)%nat && (n <=? 122)%nat then Ascii.ascii_of_nat (n - 32) else c) r
  end.

(** [extractCompanyName(query)] *)
Definition extractCompanyName (query : JSON.value) : M string :=
  q ← as_string query;
  mret (match List.find (λ company, JS.includes (JS.toLowerCase q) company) companies with
        | Some company => capitalize company
        | None => "Company"
        end).

Inductive Recommendation : Type := Buy | Sell | Hold.

(** The branch [displayResults] takes on the lowercased summary. *)
Definition recommendation (summary : string) : Recommendation :=
  if JS.includes summary "buy" || JS.includes summary "strong" || JS.includes summary "positive"
  then Buy
  else if JS.includes summary "sell" || JS.includes summary "negative" || JS.includes summary "avoid"
  then Sell
  else Hold.

Definition badge_of (r : Recommendation) : Badge :=
  match r with
  | Buy => {| badge_textContent := "Buy"; badge_className := "recommendation-badge buy" |}
  | Sell => {| badge_textContent := "Sell"; badge_className := "recommendation-badge sell" |}
  | Hold => {| badge_textContent := "Hold"; badge_className := "recommendation-badge hold" |}
  end.

(** One turn of [data.verification.fact_checks.forEach(check => ...)] *)
Definition render_check (check : JSON.value) : M FactCheck :=
  verified ← prop check "verified";
  claim ← prop check "claim";
  to_text claim;;
  evidence ← prop check "evidence";
  to_text evidence;;
  source_url ← prop check "source_url";
  (if JSON.truthy source_url then to_text source_url else mret EmptyString);;
  mret {| check_icon := JSON.truthy verified;
          check_claim := claim;
          check_evidence := evidence;
          check_source := if JSON.truthy source_url then Some source_url else None |}.

Fixpoint render_checks (checks : list JSON.value) : M (list FactCheck) :=
  match checks with
  | [] => mret []
  | check :: rest =>
      c ← render_check check;
      cs ← render_checks rest;
      mret (c :: cs)
  end.

(** One turn of [data.follow_up_questions.forEach(question => ...)] *)
Definition add_question (question : JSON.value) : M unit :=
  to_text question;;
  modify (on_result (λ r, set_followUpQuestions (followUpQuestions r ++ [question]) r)).

(** [v && v.length > 0] *)
Definition non_empty (v : JSON.value) : M bool :=
  if JSON.truthy v then
    match JSON.length_positive v with
    | Some b => mret b
    | None => throw TypeError
    end
  else mret false.

(** [displayResults(data)] *)
Definition displayResults (data : JSON.value) : M unit :=
  modify (on_result (set_resultsSection "block"));;
  short_summary ← prop data "short_summary";
  companyName ← extractCompanyName short_summary;
  modify (on_result (set_stockName companyName));;
  summary ← as_string short_summary;
  let badge := badge_of (recommendation (JS.toLowerCase summary)) in
  modify (on_result (set_recommendationBadge badge));;
  verification ← prop data "verification";
  verified ← prop verification "verified";
  modify (on_result (set_metricsGrid
    (Some {| metric_verified := if JSON.truthy verified then "Yes" else "No";
             metric_recommendation := badge_textContent badge |})));;
  modify (on_result (set_recommendationText summary));;
  markdown_report ← prop data "markdown_report";
  html ← markdownToHtml markdown_report;
  modify (on_result (set_reportMarkdown (Some html)));;
  modify (on_result (set_followUpQuestions []));;
  questions ← prop data "follow_up_questions" ≫= as_array;
  forEach questions add_question;;
  fact_checks ← prop verification "fact_checks";
  shown ← non_empty fact_checks;
  checks ← (if shown : bool then as_array fact_checks ≫= render_checks else mret []);
  issues ← prop verification "issues";
  to_text issues;;
  modify (on_result (set_verificationContent
    (Some {| panel_passed := JSON.truthy verified;
             panel_issues := issues;
             panel_fact_checks := checks |}))).

(** [showError(message)] *)
Definition showError (message : JSON.value) : M unit :=
  to_text message;;
  modify (on_run (set_errorMessage message));;
  modify (on_run (set_errorSection "block")).

(** [step.classList.remove('active', 'completed')] on the steps that exist *)
Definition reset_step (stage : string) (m : gmap string StepClasses) :
  gmap string StepClasses :=
  match m !! ("step-" +:+ stage) with
  | Some _ => <["step-" +:+ stage := {| active := false; completed := false |}]> m
  | None => m
  end.

(** [resetUI()] *)
Definition resetUI (p : Page) : Page :=
  let p := on_run (set_progressSection "none") p in
  let p := on_result (set_resultsSection "none") p in
  let p := on_run (set_errorSection "none") p in
  let p := on_run (set_activitySection "none") p in
  let p := on_run (set_activityLogContent []) p in
  let p := on_run (λ r, set_steps (foldl (λ m stage, reset_step stage m) (steps r) stages) r) p in
  let p := on_run (set_analyzeBtn_disabled false) p in
  let p := on_run (set_analyzeBtn_textContent "Analyze") p in
  on_side (set_stockChartInstance None) p.

(** ** Requests and their outcomes *)

Inductive Request : Type :=
| GetChart (query : string)
| PostResearch (query : string)
| GetHistory
| GetHistoryDetail (id : JSON.value).

(** What [await fetch(...)] gives for the research request: a rejection, or
    a response with its [ok] flag. *)
Inductive FetchOutcome : Type :=
| FetchRejected
| FetchResponse (ok : bool).

(** What [await reader.read()] gives: a rejection, a chunk (as the text
    [decoder.decode(value, { stream: true })] makes of it), or the end of
    the stream. *)
Inductive ReadOutcome : Type :=
| ReadRejected
| ReadChunk (value : string)
| ReadDone.

(** What a loader's [fetch] followed by [response.json()] has to work
    with: a rejection, or a response with its [ok] flag and body text. *)
Inductive JsonResponse : Type :=
| Rejected
| Response (ok : bool) (body : string).

(** [await response.json()] *)
Definition json (body : string) : M JSON.value :=
  match JSON.parse body with
  | Some data => mret data
  | None => throw SyntaxError
  end.

(** ** The side-channel loaders *)

(** [loadChart(query)] up to its [await fetch]: nothing without a canvas;
    otherwise the previous chart is destroyed and the request goes out.
    The call holds on to the canvas it has found: the node of the element
    [stockChart] at this moment. *)
Definition loadChart (query : string) (p : Page) : Page * list Request :=
  match stockChart (side p) with
  | None => (p, [])
  | Some _ => (on_side (set_stockChartInstance None) p, [GetChart query])
  end.

(** Whether the node [canvas] is the element [stockChart] of the document *)
Definition in_document (canvas : nat) (p : Page) : bool :=
  match stockChart (side p) with
  | Some c => Nat.eqb (canvas_node c) canvas
  | None => false
  end.

(** [canvas.style.display = v], for the canvas a call holds *)
Definition canvas_display_set (canvas : nat) (v : string) (p : Page) : Page :=
  if in_document canvas p
  then on_side (set_stockChart (Some {| canvas_node := canvas; canvas_display := v |})) p
  else p.

(** [canvas.parentElement.innerHTML += '<div ...>No Data</div>'], for the
    canvas a call holds.  The markup of the parent is read and parsed
    again: its children are new nodes - the canvas among them, with its
    inline style - and one "No Data" block more; the node the call holds
    is now out of the document.  It has no parent left, so a second
    statement of this kind on it throws.  (The parent is taken to hold
    nothing else of the page.) *)
Definition append_placeholder (canvas : nat) : M unit :=
  λ p,
    match stockChart (side p) with
    | Some c =>
        if Nat.eqb (canvas_node c) canvas then
          (on_side (λ s, set_chartPlaceholders (S (chartPlaceholders s)) s)
             (on_side (set_stockChart (Some {| canvas_node := S (canvas_node c);
                                               canvas_display := canvas_display c |})) p),
           Return tt)
        else (p, Throw TypeError)
    | None => (p, Throw TypeError)
    end.

(** The [try] block of [loadChart] from the answer to its request on, for
    the canvas the call holds.  [new Chart(...)] is taken to return the
    chart. *)
Definition loadChart_try (canvas : nat) (r : JsonResponse) : M unit :=
  match r with
  | Rejected => throw TransportFailure
  | Response ok body =>
      if negb ok then
        modify (console_log "No chart data available" None);;
        modify (canvas_display_set canvas "none");;
        append_placeholder canvas
      else
        data ← json body;
        error ← prop data "error";
        if JSON.truthy error then
          modify (console_log "Chart error:" (Some (ArgValue error)))
        else
          modify (canvas_display_set canvas "block");;
          labels ← prop data "labels";
          symbol ← prop data "symbol";
          to_text symbol;;
          prices ← prop data "prices";
          modify (on_side (set_stockChartInstance
            (Some {| chart_canvas := canvas; chart_labels := labels;
                     chart_symbol := symbol; chart_prices := prices |})))
  end.

(** [loadChart] from the answer to its request on: the [try] block and its
    [catch]. *)
Definition loadChart_response (canvas : nat) (r : JsonResponse) (p : Page) : Page :=
  match loadChart_try canvas r p with
  | (p', Return _) => p'
  | (p', Throw e) => console_error "Failed to load chart:" (Some (ArgExn e)) p'
  end.

(** [createHistoryItem(item)]: [item.id] is for the click handler of the
    item; the [Date] constructor converts [item.created_at], the template
    literal the company name and the query. *)
Definition createHistoryItem (item : JSON.value) : M HistoryItem :=
  id ← prop item "id";
  created_at ← prop item "created_at";
  to_text created_at;;
  company_name ← prop item "company_name";
  let company := if JSON.truthy company_name then company_name else JSON.Str "Unknown" in
  to_text company;;
  recommendation ← prop item "recommendation" ≫= as_string;
  query ← prop item "query";
  to_text query;;
  mret {| item_id := id;
          item_company := company;
          item_class := JS.toLowerCase recommendation;
          item_recommendation := recommendation;
          item_query := query;
          item_created_at := created_at |}.

Definition append_history (h : HistoryItem) (l : HistoryList) : HistoryList :=
  match l with
  | HistoryItems items => HistoryItems (items ++ [h])
  | _ => HistoryItems [h]
  end.

(** [loadHistory()] up to its [await fetch] *)
Definition loadHistory (p : Page) : Page * list Request :=
  (on_side (set_historyList HistoryLoading) p, [GetHistory]).

Definition loadHistory_try (r : JsonResponse) : M unit :=
  match r with
  | Rejected => throw TransportFailure
  | Response _ body =>
      data ← json body;
      history ← prop data "history";
      shown ← non_empty history;
      if shown : bool then
        modify (on_side (set_historyList (HistoryItems [])));;
        items ← as_array history;
        forEach items (λ item,
          historyItem ← createHistoryItem item;
          modify (on_side (λ s, set_historyList (append_history historyItem (historyList s)) s)))
      else
        modify (on_side (set_historyList HistoryNone))
  end.

(** [loadHistory] from the answer to its request on *)
Definition loadHistory_response (r : JsonResponse) (p : Page) : Page :=
  match loadHistory_try r p with
  | (p', Return _) => p'
  | (p', Throw e) =>
      on_side (set_historyList HistoryFailed)
        (console_error "Failed to load history:" (Some (ArgExn e)) p')
  end.

(** [toggleHistory()] *)
Definition toggleHistory (p : Page) : Page * list Request :=
  let p := on_side (λ s, set_historySidebar_open (negb (historySidebar_open s)) s) p in
  if historySidebar_open (side p) then loadHistory p else (p, []).

(** The [catch] block of [loadHistoricalResearch] *)
Definition loadHistoricalResearch_catch (error : exn) : M unit :=
  modify (console_error "Failed to load historical research:" (Some (ArgExn error)));;
  showError (JSON.Str "Failed to load historical research").

(** [loadHistoricalResearch(id)] up to its [await fetch]: the template
    literal of the address converts the id, inside the [try] block. *)
Definition loadHistoricalResearch (id : JSON.value) (p : Page) : Page * list Request :=
  match JSON.to_string id with
  | Some _ => (p, [GetHistoryDetail id])
  | None => ((loadHistoricalResearch_catch TypeError p).1, [])
  end.

Definition loadHistoricalResearch_try (r : JsonResponse) : M unit :=
  match r with
  | Rejected => throw TransportFailure
  | Response _ body =>
      data ← json body;
      modify (on_side (set_historySidebar_open false));;
      short_summary ← prop data "short_summary";
      full_report ← prop data "full_report";
      follow_up_questions ← prop data "follow_up_questions";
      verification ← prop data "verification";
      let resultData := JSON.Object [("short_summary", short_summary);
                                     ("markdown_report", full_report);
                                     ("follow_up_questions", follow_up_questions);
                                     ("verification", verification)] in
      displayResults resultData
  end.

(** [loadHistoricalResearch] from the answer to its request on *)
Definition loadHistoricalResearch_response (r : JsonResponse) (p : Page) : Page :=
  match loadHistoricalResearch_try r p with
  | (p', Return _) => p'
  | (p', Throw e) => (loadHistoricalResearch_catch e p').1
  end.

(** ** The click handler of the Analyze button *)

(** Where an activation of the handler stands: at [await fetch], at
    [await reader.read()] with its local [buffer], or finished. *)
Inductive Handler : Type :=
| AwaitingResponse
| Reading (buffer : string)
| Finished.

(** The chain of [if (eventType === ...)] *)
Definition dispatch (eventType : string) (data : JSON.value) : M unit :=
  if String.eqb eventType "status" then
    stage ← prop data "stage";
    done ← prop data "done";
    updateProgress stage done
  else if String.eqb eventType "agent_log" then
    addActivityLog data
  else if String.eqb eventType "complete" then
    displayResults data;;
    modify (on_run (set_analyzeBtn_disabled false));;
    modify (on_run (set_analyzeBtn_textContent "Analyze New Query"))
  else if String.eqb eventType "error" then
    message ← prop data "message";
    showError message;;
    modify (on_run (set_analyzeBtn_disabled false));;
    modify (on_run (set_analyzeBtn_textContent "Try Again"))
  else mret tt.

(** The frame of a segment: [None] when the segment is skipped (blank, or
    without a line [event: ...] or without a line [data: ...]); otherwise
    [eventMatch[1]] and [dataMatch[1]]. *)
Definition frame_of (line : string) : option (string * string) :=
  if JS.is_empty (JS.trim line) then None
  else
    match JS.match_field "event: " line, JS.match_field "data: " line with
    | Some eventType, Some text => Some (eventType, text)
    | _, _ => None
    end.

(** The body of [for (const line of lines)] *)
Definition process_line (line : string) : M unit :=
  match frame_of line with
  | Some (eventType, text) =>
      match JSON.parse text with
      | Some data => dispatch eventType data
      | None => throw SyntaxError
      end
  | None => mret tt
  end.

(** The body of [while (true)] for one answer of [reader.read()]: the
    handler goes on reading with its new buffer, or leaves the loop. *)
Definition read_step (buffer : string) (r : ReadOutcome) : M Handler :=
  match r with
  | ReadRejected => throw TransportFailure
  | ReadDone => mret Finished
  | ReadChunk value =>
      let '(lines, buffer') := JS.pop (JS.split_blank (buffer +:+ value)) in
      forEach lines process_line;;
      mret (Reading buffer')
  end.

(** From the answer to the research request to the first read *)
Definition open_stream (r : FetchOutcome) : M Handler :=
  match r with
  | FetchRejected => throw TransportFailure
  | FetchResponse ok =>
      if negb ok then throw (Error "Failed to start research")
      else mret (Reading EmptyString)
  end.

(** The [catch (error)] block of the handler *)
Definition catch_block (error : exn) (p : Page) : Page :=
  (( modify (console_error "Error:" (Some (ArgExn error)));;
     showError (JSON.Str "An error occurred while processing your request. Please try again.");;
     modify (on_run (set_analyzeBtn_disabled false));;
     modify (on_run (set_analyzeBtn_textContent "Try Again")) ) p).1.

(** A piece of the [try] block under the handler's [catch] *)
Definition try_catch (m : M Handler) (p : Page) : Page * Handler :=
  match m p with
  | (p', Return h) => (p', h)
  | (p', Throw e) => (catch_block e p', Finished)
  end.

(** The handler from the click to [await fetch]: the page after, the
    requests sent, and where the handler stands. *)
Definition analyze_click (p : Page) : Page * list Request * Handler :=
  let query := JS.trim (queryInput_value p) in
  if JS.is_empty query then (p, [], Finished)
  else
    let p := resetUI p in
    let '(p, chart_request) := loadChart query p in
    let p := on_run (set_progressSection "block") p in
    let p := on_run (set_activitySection "block") p in
    let p := on_run (set_analyzeBtn_disabled true) p in
    let p := on_run (set_analyzeBtn_textContent "Analyzing...") p in
    (p, chart_request ++ [PostResearch query], AwaitingResponse).

(** The handler resumed with the answer it awaits *)
Definition analyze_response (r : FetchOutcome) (p : Page) : Page * Handler :=
  try_catch (open_stream r) p.

Definition analyze_read (buffer : string) (r : ReadOutcome) (p : Page) : Page * Handler :=
  try_catch (read_step buffer r) p.

(** A whole stream: the reads of one handler, answered in order, with
    nothing else running in between. *)
Fixpoint analyze_stream (h : Handler) (reads : list ReadOutcome) (p : Page) : Page * Handler :=
  match reads with
  | [] => (p, h)
  | r :: rest =>
      match h with
      | Reading buffer =>
          let '(p', h') := analyze_read buffer r p in
          analyze_stream h' rest p'
      | _ => (p, h)
      end
  end.

(** ** The session: one page, every handler activated so far

    Handlers are numbered in the order of their clicks; the latest is the
    current run.  A disabled button dispatches no click event.  The answer
    to a chart request comes with the canvas node its call holds. *)

Record Session : Type := {
  page : Page;
  handlers : list Handler;
  sent : list Request
}.

Inductive Action : Type :=
| Input (text : string)
| Click
| Respond (i : nat) (r : FetchOutcome)
| Read (i : nat) (r : ReadOutcome)
| ChartRespond (canvas : nat) (r : JsonResponse).

Definition step (a : Action) (s : Session) : Session :=
  match a with
  | Input text =>
      {| page := set_queryInput_value text (page s); handlers := handlers s; sent := sent s |}
  | Click =>
      if analyzeBtn_disabled (run (page s)) then s
      else
        let '(p, requests, h) := analyze_click (page s) in
        {| page := p;
           handlers := match h with Finished => handlers s | _ => handlers s ++ [h] end;
           sent := sent s ++ requests |}
  | Respond i r =>
      match handlers s !! i with
      | Some AwaitingResponse =>
          let '(p, h) := analyze_response r (page s) in
          {| page := p; handlers := <[i := h]> (handlers s); sent := sent s |}
      | _ => s
      end
  | Read i r =>
      match handlers s !! i with
      | Some (Reading buffer) =>
          let '(p, h) := analyze_read buffer r (page s) in
          {| page := p; handlers := <[i := h]> (handlers s); sent := sent s |}
      | _ => s
      end
  | ChartRespond canvas r =>
      {| page := loadChart_response canvas r (page s); handlers := handlers s; sent := sent s |}
  end.

Definition run_actions (l : list Action) (s : Session) : Session :=
  foldl (λ s a, step a s) s l.

(** ** Views of the page *)

Inductive StageStatus : Type := Pending | Active | Done.

(** The status a step element shows: done once it carries [completed],
    active when it carries [active] only, pending without either. *)
Definition stage_status (c : StepClasses) : StageStatus :=
  if completed c then Done else if active c then Active else Pending.

(** The stage map of the stepper *)
Definition stage_map (p : Page) : list (string * option StageStatus) :=
  map (λ stage, (stage, stage_status <$> steps (run p) !! ("step-" +:+ stage))) stages.

Inductive Phase : Type := Idle | Running | Completed | Failed.

(** The phase the submit control shows: disabled while a run is in
    flight; re-enabled with the label of a completed run, of a failed one,
    or with its initial label. *)
Definition phase (p : Page) : Phase :=
  if analyzeBtn_disabled (run p) then Running
  else if String.eqb (analyzeBtn_textContent (run p)) "Analyze New Query" then Completed
  else if String.eqb (analyzeBtn_textContent (run p)) "Try Again" then Failed
  else Idle.

(** ** The decoder on its own

    The segments the loop hands to its body over a sequence of chunks, and
    the buffer it is left with: the decode half of [read_step], without the
    dispatch. *)

Fixpoint feed (buffer : string) (chunks : list string) : list string :=
  match chunks with
  | [] => []
  | value :: rest =>
      let '(lines, buffer') := JS.pop (JS.split_blank (buffer +:+ value)) in
      lines ++ feed buffer' rest
  end.

Fixpoint final_buffer (buffer : string) (chunks : list string) : string :=
  match chunks with
  | [] => buffer
  | value :: rest =>
      let '(lines, buffer') := JS.pop (JS.split_blank (buffer +:+ value)) in
      final_buffer buffer' rest
  end.

(** An event record: the type of a frame and what [JSON.parse] makes of
    its data ([None]: it throws). *)
Definition event_record (line : string) : option (string * option JSON.value) :=
  match frame_of line with
  | Some (eventType, text) => Some (eventType, JSON.parse text)
  | None => None
  end.

(** The event records of a stream of chunks, in order *)
Definition decoded (chunks : list string) : list (string * option JSON.value) :=
  omap event_record (feed EmptyString chunks).

(** The text of all chunks *)
Definition body_of (chunks : list string) : string :=
  foldr String.append EmptyString chunks.

Definition blank : string := String JS.LF (String JS.LF EmptyString).

(** A text cut right after its last complete segment: every segment but
    the last piece, each with its separator. *)
Definition complete_part (s : string) : string :=
  foldr (λ line acc, line +:+ blank +:+ acc) EmptyString (removelast (JS.split_blank s)).

(** ** Test data *)

(** Modelled from the spec: the markup of the page is not among the
    sources.  The page before any run: the four steps of the stepper
    (planning, searching, writing, verifying), all pending; the submit
    control enabled under its initial label; a chart canvas; nothing
    rendered, nothing logged. *)
Definition page_as_served : Page :=
  {| run := {| progressSection := "none";
               activitySection := "none";
               errorSection := "none";
               errorMessage := JSON.Str "";
               activityLogContent := [];
               steps := list_to_map
                 (map (λ stage, ("step-" +:+ stage, {| active := false; completed := false |}))
                      stages);
               analyzeBtn_disabled := false;
               analyzeBtn_textContent := "Analyze" |};
     result := {| resultsSection := "none";
                  stockName := "";
                  recommendationBadge := {| badge_textContent := ""; badge_className := "recommendation-badge" |};
                  metricsGrid := None;
                  recommendationText := "";
                  reportMarkdown := None;
                  followUpQuestions := [];
                  verificationContent := None |};
     side := {| stockChart := Some {| canvas_node := 0; canvas_display := "" |};
                chartPlaceholders := 0;
                stockChartInstance := None;
                historySidebar_open := false;
                historyList := HistoryAsServed |};
     console := [];
     queryInput_value := "" |}.

(** A frame as the server writes it: [event: <type>], [data: <json>], and
    a blank line.  The JSON is written with apostrophes for its quotation
    marks. *)
Definition sse (eventType json : string) : string :=
  "event: " +:+ eventType +:+ String JS.LF ("data: " +:+ JSON.text json +:+ blank).

Definition status_frames : string :=
  sse "status" "{'stage': 'planning', 'done': false}"
  +:+ sse "status" "{'stage': 'planning', 'done': true}"
  +:+ sse "status" "{'stage': 'searching', 'done': false}".

Definition complete_frame : string :=
  sse "complete"
    ("{'short_summary': 'We recommend a strong buy despite some negative risk', "
     +:+ "'markdown_report': '# Amazon', 'follow_up_questions': ['What next?'], "
     +:+ "'verification': {'verified': true, 'issues': 'none'}}").

(** Events handed to the dispatcher, in order *)
Definition dispatch_all (events : list (string * JSON.value)) : M unit :=
  forEach events (λ e, dispatch e.1 e.2).

(** The event [status {stage, done}] *)
Definition status_event (stage : string) (done : bool) : string * JSON.value :=
  ("status", JSON.Object [("stage", JSON.Str stage); ("done", JSON.Bool done)]).

(** ** Vocabulary of the properties *)

(** The buffer never holds a separator. *)
Definition no_separator (buffer : string) : Prop := JS.split_blank buffer = [buffer].

(** [preserves R m]: whatever [m] does, returning or throwing, the page
    after is related by [R] to the page before. *)
Definition preserves {A : Type} (R : relation Page) (m : M A) : Prop :=
  ∀ p, R p (m p).1.

(** A projection of the page is the same after as before. *)
Definition same {A : Type} (f : Page → A) : relation Page :=
  λ p p', f p' = f p.

(** Every step element that carries [completed] before still exists and
    carries it after. *)
Definition done_kept : relation Page :=
  λ p p', ∀ id c, steps (run p) !! id = Some c → completed c = true →
                  ∃ c', steps (run p') !! id = Some c' ∧ completed c' = true.

(** What holds of the page before still holds after. *)
Definition kept (P : Page → Prop) : relation Page :=
  λ p p', P p → P p'.

(** The submit control is enabled. *)
Definition enabled (p : Page) : Prop := analyzeBtn_disabled (run p) = false.

(** Test data: a stream whose first frame carries malformed JSON, the
    frame that follows it, an error frame, and the page of a run in
    flight. *)
Definition malformed_frame : string := sse "status" "{'stage': 'planning', 'done': tru".
Definition planning_done_frame : string := sse "status" "{'stage': 'planning', 'done': true}".
Definition searching_active_frame : string := sse "status" "{'stage': 'searching', 'done': false}".
Definition error_frame : string := sse "error" "{'message': 'Research failed'}".

Definition page_running : Page :=
  (analyze_click (set_queryInput_value "Is Amazon a good investment?" page_as_served)).1.1.

(** [sub] occurs in [s]. *)
Definition occurs_in (sub s : string) : Prop :=
  ∃ before after, s = before +:+ sub +:+ after.

(** Every character of [s] is white space. *)
Fixpoint all_white_space (s : string) : bool :=
  match s with
  | EmptyString => true
  | String c r => JS.is_white_space c && all_white_space r
  end.

(** The session of the test data: a first run that has received its
    complete event and whose stream is still open, then a second submit,
    whose run is in flight. *)
Definition session_start : Session :=
  {| page := set_queryInput_value "Is Amazon a good investment?" page_as_served;
     handlers := [];
     sent := [] |}.

Definition session_second_run : Session :=
  run_actions [Click;
               Respond 0 (FetchResponse true);
               Read 0 (ReadChunk complete_frame);
               Input "Is Apple a good investment?";
               Click;
               Respond 1 (FetchResponse true)] session_start.


(** ** The remaining handlers *)

(** The elements [toggleReport] works on: the [style.display] of the full
    report and the class [rotated] of the arrow. *)
Record ReportToggle : Type := {
  fullReportContent : string;
  arrow_rotated : bool
}.

(** [toggleReport()] *)
Definition toggleReport (t : ReportToggle) : ReportToggle :=
  if String.eqb (fullReportContent t) "none"
  then {| fullReportContent := "block"; arrow_rotated := true |}
  else {| fullReportContent := "none"; arrow_rotated := false |}.

(** [toggleActivityLog()], on the class [collapsed] of the activity header *)
Definition toggleActivityLog (collapsed : bool) : bool := negb collapsed.

(** The [keypress] listener of the query input: Enter clicks the button. *)
Definition keypress (key : string) (s : Session) : Session :=
  if String.eqb key "Enter" then step Click s else s.

(** ** Vocabulary of the further properties *)

(** No character of [s] is a line terminator. *)
Fixpoint single_line (s : string) : bool :=
  match s with
  | EmptyString => true
  | String c r => negb (JS.is_line_terminator c) && single_line r
  end.

(** Modelled from the spec: the server that writes the stream is not among
    the sources.  A frame on the wire: the line [event: <type>], the line
    [data: <text>], and a blank line. *)
Definition frame (eventType text : string) : string :=
  "event: " +:+ eventType +:+ String JS.LF ("data: " +:+ text +:+ blank).

(** The frames of a list of events, one after the other *)
Definition frames (events : list (string * string)) : string :=
  foldr (λ e acc, frame e.1 e.2 +:+ acc) EmptyString events.

(** An event type and a data text that fit on their lines *)
Definition fits_frame (e : string * string) : Prop :=
  single_line e.1 = true ∧ e.1 ≠ EmptyString ∧ single_line e.2 = true ∧ e.2 ≠ EmptyString.

(** The event types the dispatcher acts on *)
Definition known_events : list string := ["status"; "agent_log"; "complete"; "error"].

(** The log after starts with the log before. *)
Definition log_extended : relation Page :=
  λ p p', activityLogContent (run p) `prefix_of` activityLogContent (run p').

(** The submit control is disabled. *)
Definition disabled (p : Page) : Prop := analyzeBtn_disabled (run p) = true.

(** What can go wrong on the transport of handler [i]: its request is
    rejected or answered without success, or a read of its stream is
    rejected. *)
Inductive TransportFails (s : Session) (i : nat) : Action → exn → Prop :=
| RequestRejected :
    handlers s !! i = Some AwaitingResponse →
    TransportFails s i (Respond i FetchRejected) TransportFailure
| RequestRefused :
    handlers s !! i = Some AwaitingResponse →
    TransportFails s i (Respond i (FetchResponse false)) (Error "Failed to start research")
| StreamBroken buffer :
    handlers s !! i = Some (Reading buffer) →
    TransportFails s i (Read i ReadRejected) TransportFailure.

(** The company name shown for a summary *)
Definition company_of (summary : string) : string :=
  match List.find (λ company, JS.includes (JS.toLowerCase summary) company) companies with
  | Some company => capitalize company
  | None => "Company"
  end.

(** What a payload renders to *)
Definition rendering (summary report : string) (questions : list JSON.value)
    (verified issues : JSON.value) (checks : list FactCheck) : ResultRegions :=
  let badge := badge_of (recommendation (JS.toLowerCase summary)) in
  {| resultsSection := "block";
     stockName := company_of summary;
     recommendationBadge := badge;
     metricsGrid := Some {| metric_verified := if JSON.truthy verified then "Yes" else "No";
                            metric_recommendation := badge_textContent badge |};
     recommendationText := summary;
     reportMarkdown := Some report;
     followUpQuestions := questions;
     verificationContent := Some {| panel_passed := JSON.truthy verified;
                                    panel_issues := issues;
                                    panel_fact_checks := checks |} |}.

(** The payload of [complete_frame] *)
Definition complete_payload : JSON.value :=
  JSON.Object
    [("short_summary", JSON.Str "We recommend a strong buy despite some negative risk");
     ("markdown_report", JSON.Str "# Amazon");
     ("follow_up_questions", JSON.Array [JSON.Str "What next?"]);
     ("verification", JSON.Object [("verified", JSON.Bool true); ("issues", JSON.Str "none")])].

(** The entry [addActivityLog] makes of an event: the agent is a string,
    and the timestamp, the action and - if truthy - the details convert to
    strings. *)
Definition loggable (data : JSON.value) (entry : LogEntry) : Prop :=
  ∃ timestamp agent details action,
    JSON.get data "timestamp" = Some timestamp ∧ JSON.to_string timestamp ≠ None
    ∧ JSON.get data "agent" = Some (JSON.Str agent)
    ∧ JSON.get data "details" = Some details
    ∧ (JSON.truthy details = true → JSON.to_string details ≠ None)
    ∧ JSON.get data "action" = Some action ∧ JSON.to_string action ≠ None
    ∧ entry = {| log_timestamp := timestamp;
                 log_agentClass := "agent-" +:+ JS.toLowerCase agent;
                 log_agent := agent;
                 log_action := action;
                 log_details := if JSON.truthy details then Some details else None |}.

(** A computation that neither reads the page nor writes to it *)
Definition pure {A : Type} (m : M A) : Prop := ∀ p q, m p = (p, (m q).2).

(** The callback of [data.history.forEach] in [loadHistory] *)
Definition add_history (item : JSON.value) : M unit :=
  historyItem ← createHistoryItem item;
  modify (on_side (λ s, set_historyList (append_history historyItem (historyList s)) s)).

(** * Properties *)

(** ** [JSON.parse] never lacks fuel

    The fuel [parse] gives to [parse_value] is enough for every text: a
    text that parses with any amount of fuel parses with that amount, to
    the same value.  So [parse text = None] is a text that is no JSON
    text. *)

Section Fuel.

Import JSON.

Local Abbreviation len := String.length.

Lemma skip_ws_le s : len (skip_ws s) ≤ len s.
Proof.
  induction s as [|c s IH]; [done|]. cbn [skip_ws].
  destruct (is_ws c); cbn [String.length]; lia.
Qed.

Lemma string_body_lt s x r : string_body s = Some (x, r) → len r < len s.
Proof.
  revert x r.
  assert (H : ∀ n s, len s ≤ n → ∀ x r, string_body s = Some (x, r) → len r < len s);
    [|by eauto].
  clear s. induction n as [|n IH]; intros s Hn x r.
  - destruct s; [done|]. cbn [String.length] in Hn. lia.
  - destruct s as [|c s]; [done|]. cbn [string_body String.length] in *.
    unfold cons_char. intros H.
    repeat case_match; simplify_eq; cbn [String.length] in *;
      try lia;
      match goal with
      | E : string_body ?t = Some (_, ?r) |- _ =>
          apply IH in E; cbn [String.length] in *; lia
      end.
Qed.

Lemma digits_le s acc k : len (digits s acc k).2 ≤ len s.
Proof.
  revert acc k. induction s as [|c s IH]; intros acc k; [done|].
  cbn [digits]. destruct (digit_val c); cbn [String.length snd]; [|lia].
  specialize (IH (acc * 10 + n)%N (S k)). lia.
Qed.

Lemma strip_prefix_len p s r :
  JS.strip_prefix p s = Some r → len s = len p + len r.
Proof.
  revert s. induction p as [|a p IH]; intros s; cbn [JS.strip_prefix].
  - by intros [= ->].
  - destruct s as [|b s]; [done|]. destruct (Ascii.eqb a b); [|done].
    intros H%IH. cbn [String.length]. lia.
Qed.

Lemma number_lt s v r : number s = Some (v, r) → len r < len s.
Proof.
  unfold number, int_part, frac_part, exp_part. intros H.
  repeat case_match; simplify_eq; cbn [String.length] in *;
    repeat match goal with
           | E : digits ?t ?a ?k = (_, _, ?r) |- _ =>
               let Hd := fresh in
               pose proof (digits_le t a k) as Hd; rewrite E in Hd;
               cbn [snd String.length] in Hd; clear E
           end;
    lia.
Qed.

Lemma literal_lt s v r : literal s = Some (v, r) → len r < len s.
Proof.
  unfold literal. intros H.
  repeat case_match; simplify_eq;
    try (match goal with
         | E : JS.strip_prefix _ _ = Some _ |- _ =>
             apply strip_prefix_len in E; cbn [String.length] in E; lia
         end).
  by apply number_lt in H.
Qed.

(** With [n] units of fuel: what is consumed, and the fuel that does. *)
Definition enough (n : nat) : Prop :=
  (∀ s v r, parse_value n s = Some (v, r) →
     len r < len s ∧ ∀ m, 2 * (len s - len r) ≤ m → parse_value m s = Some (v, r))
  ∧ (∀ s acc v r, parse_elements n s acc = Some (v, r) →
       len r < len s ∧ ∀ m, 2 * (len s - len r) ≤ m → parse_elements m s acc = Some (v, r))
  ∧ (∀ s acc v r, parse_members n s acc = Some (v, r) →
       len r < len s ∧ ∀ m, 2 * (len s - len r) ≤ m → parse_members m s acc = Some (v, r)).

Lemma enough_all n : enough n.
Proof.
  induction n as [|n (IHv & IHe & IHm)]; [by repeat split|].
  split; [|split].
  - intros s v r H. cbn [parse_value] in H.
    destruct s as [|c s]; [done|].
    destruct (is_char 123 c) eqn:Eobj.
    { pose proof (skip_ws_le s) as Hws.
      destruct (skip_ws s) as [|c1 r1] eqn:Es; [done|].
      destruct (is_char 125 c1) eqn:Eclose.
      - simplify_eq. cbn [String.length] in *. split; [lia|].
        intros [|m] Hm; [lia|]. cbn [parse_value]. by rewrite Eobj, Es, Eclose.
      - apply IHm in H as [Hlt Hfuel]. cbn [String.length] in *. split; [lia|].
        intros [|m] Hm; [lia|]. cbn [parse_value]. rewrite Eobj, Es, Eclose.
        apply Hfuel. cbn [String.length]. lia. }
    destruct (is_char 91 c) eqn:Earr.
    { pose proof (skip_ws_le s) as Hws.
      destruct (skip_ws s) as [|c1 r1] eqn:Es; [done|].
      destruct (is_char 93 c1) eqn:Eclose.
      - simplify_eq. cbn [String.length] in *. split; [lia|].
        intros [|m] Hm; [lia|]. cbn [parse_value]. by rewrite Eobj, Earr, Es, Eclose.
      - apply IHe in H as [Hlt Hfuel]. cbn [String.length] in *. split; [lia|].
        intros [|m] Hm; [lia|]. cbn [parse_value]. rewrite Eobj, Earr, Es, Eclose.
        apply Hfuel. cbn [String.length]. lia. }
    destruct (Ascii.eqb c quote) eqn:Equote.
    { destruct (string_body s) as [[x rest]|] eqn:Eb; [|done]. simplify_eq.
      apply string_body_lt in Eb as Hlt. cbn [String.length]. split; [lia|].
      intros [|m] Hm; [lia|]. cbn [parse_value]. by rewrite Eobj, Earr, Equote, Eb. }
    apply literal_lt in H as Hlt. split; [lia|].
    intros [|m] Hm; [lia|]. cbn [parse_value]. by rewrite Eobj, Earr, Equote.
  - intros s acc v r H. cbn [parse_elements] in H.
    pose proof (skip_ws_le s) as Hws.
    destruct (parse_value n (skip_ws s)) as [[v1 r1]|] eqn:Ev; [|done].
    apply IHv in Ev as [Hlt1 Hfuel1].
    pose proof (skip_ws_le r1) as Hws1.
    destruct (skip_ws r1) as [|c r'] eqn:Es; [done|].
    cbn [String.length] in Hws1.
    destruct (is_char 44 c) eqn:Ecomma.
    + apply IHe in H as [Hlt Hfuel]. split; [lia|].
      intros [|m] Hm; [lia|]. cbn [parse_elements].
      rewrite Hfuel1 by lia. rewrite Es, Ecomma. apply Hfuel. lia.
    + destruct (is_char 93 c) eqn:Eclose; [|done]. simplify_eq. split; [lia|].
      intros [|m] Hm; [lia|]. cbn [parse_elements].
      rewrite Hfuel1 by lia. by rewrite Es, Ecomma, Eclose.
  - intros s acc v r H. cbn [parse_members] in H.
    pose proof (skip_ws_le s) as Hws.
    destruct (skip_ws s) as [|q r0] eqn:Es0; [done|]. cbn [String.length] in Hws.
    destruct (Ascii.eqb q quote) eqn:Equote; [|done].
    destruct (string_body r0) as [[k r1]|] eqn:Eb; [|done].
    apply string_body_lt in Eb as Hlt0.
    pose proof (skip_ws_le r1) as Hws1.
    destruct (skip_ws r1) as [|c r2] eqn:Es1; [done|]. cbn [String.length] in Hws1.
    destruct (is_char 58 c) eqn:Ecolon; [|done].
    pose proof (skip_ws_le r2) as Hws2.
    destruct (parse_value n (skip_ws r2)) as [[v1 r3]|] eqn:Ev; [|done].
    apply IHv in Ev as [Hlt1 Hfuel1].
    pose proof (skip_ws_le r3) as Hws3.
    destruct (skip_ws r3) as [|c' r4] eqn:Es3; [done|]. cbn [String.length] in Hws3.
    destruct (is_char 44 c') eqn:Ecomma.
    + apply IHm in H as [Hlt Hfuel]. split; [lia|].
      intros [|m] Hm; [lia|]. cbn [parse_members].
      rewrite Es0, Equote, Eb, Es1, Ecolon. rewrite Hfuel1 by lia.
      rewrite Es3, Ecomma. apply Hfuel. lia.
    + destruct (is_char 125 c') eqn:Eclose; [|done]. simplify_eq. split; [lia|].
      intros [|m] Hm; [lia|]. cbn [parse_members].
      rewrite Es0, Equote, Eb, Es1, Ecolon. rewrite Hfuel1 by lia.
      by rewrite Es3, Ecomma, Eclose.
Qed.

(** Whatever fuel parses a text, the fuel of [parse] parses it. *)
Lemma parse_fuel_enough text n v rest :
  parse_value n (skip_ws text) = Some (v, rest) →
  parse_value (2 * len text + 2) (skip_ws text) = Some (v, rest).
Proof.
  intros H. destruct (enough_all n) as (Hv & _ & _).
  apply Hv in H as [Hlt Hfuel]. apply Hfuel.
  pose proof (skip_ws_le text). lia.
Qed.

(** A text that [parse] refuses is refused with every amount of fuel: it
    has no value at its head, or something other than white space after
    it. *)
Lemma parse_none_any_fuel text n v rest :
  parse text = None →
  parse_value n (skip_ws text) = Some (v, rest) →
  JS.is_empty (skip_ws rest) = false.
Proof.
  unfold parse. intros Hnone H. rewrite (parse_fuel_enough text n v rest H) in Hnone.
  by destruct (JS.is_empty (skip_ws rest)).
Qed.

End Fuel.

(** ** Splitting at blank lines *)

Section Split.

Import JS.

(** The cases of [split_blank] as an induction principle. *)
Lemma split_blank_ind (P : string → Prop) :
  P EmptyString →
  (∀ c, P (String c EmptyString)) →
  (∀ r, P r → P (String LF (String LF r))) →
  (∀ c c' r, Ascii.eqb c LF && Ascii.eqb c' LF = false →
             P (String c' r) → P (String c (String c' r))) →
  ∀ s, P s.
Proof.
  intros Hnil Hone Hsep Hchar s.
  assert (H : P s ∧ ∀ c, P (String c s)); [|tauto].
  induction s as [|c' r [IH1 IH2]]; [auto|].
  split; [apply IH2|].
  intros c. destruct (Ascii.eqb c LF && Ascii.eqb c' LF) eqn:E.
  - apply andb_true_iff in E as [->%Ascii.eqb_eq ->%Ascii.eqb_eq]. auto.
  - auto.
Qed.

Lemma split_blank_sep r :
  split_blank (String LF (String LF r)) = EmptyString :: split_blank r.
Proof. reflexivity. Qed.

Lemma split_blank_char c c' r :
  Ascii.eqb c LF && Ascii.eqb c' LF = false →
  split_blank (String c (String c' r)) = push_front c (split_blank (String c' r)).
Proof. intros E. cbn [split_blank]. rewrite E. reflexivity. Qed.

Lemma split_blank_nonempty s : split_blank s ≠ [].
Proof.
  induction s using split_blank_ind; try done.
  rewrite split_blank_char by done.
  destruct (split_blank (String c' s)); done.
Qed.

Lemma removelast_push_front c x y l :
  removelast (push_front c (x :: y :: l)) = String c x :: removelast (y :: l).
Proof. reflexivity. Qed.

Lemma append_cons c s t : String c s +:+ t = String c (s +:+ t).
Proof. reflexivity. Qed.

Lemma append_nil s : EmptyString +:+ s = s.
Proof. reflexivity. Qed.

Lemma removelast_cons {A} (a : A) l : l ≠ [] → removelast (a :: l) = a :: removelast l.
Proof. by destruct l. Qed.

Lemma last_cons_ne {A} (a d : A) l : l ≠ [] → List.last (a :: l) d = List.last l d.
Proof. by destruct l. Qed.

Lemma split_blank_sep_removelast r :
  removelast (split_blank (String LF (String LF r))) = EmptyString :: removelast (split_blank r).
Proof. rewrite split_blank_sep. apply removelast_cons, split_blank_nonempty. Qed.

Lemma split_blank_sep_last r :
  List.last (split_blank (String LF (String LF r))) EmptyString = List.last (split_blank r) EmptyString.
Proof. rewrite split_blank_sep. apply last_cons_ne, split_blank_nonempty. Qed.

(** A piece that is alone is the whole text. *)
Lemma push_front_removelast c l :
  l ≠ [] →
  removelast (push_front c l) =
    match removelast l with
    | [] => []
    | x :: t => String c x :: t
    end.
Proof. destruct l as [|x [|y l]]; done. Qed.

Lemma push_front_last c l :
  l ≠ [] →
  List.last (push_front c l) EmptyString =
    match removelast l with
    | [] => String c (List.last l EmptyString)
    | _ => List.last l EmptyString
    end.
Proof. destruct l as [|x [|y l]]; done. Qed.

Lemma complete_part_sep r :
  complete_part (String LF (String LF r)) = String LF (String LF (complete_part r)).
Proof. unfold complete_part. by rewrite split_blank_sep_removelast. Qed.

Lemma complete_part_char c c' r :
  Ascii.eqb c LF && Ascii.eqb c' LF = false →
  complete_part (String c (String c' r)) =
    match removelast (split_blank (String c' r)) with
    | [] => EmptyString
    | _ => String c (complete_part (String c' r))
    end.
Proof.
  intros E. unfold complete_part. rewrite split_blank_char by done.
  rewrite push_front_removelast by apply split_blank_nonempty.
  by destruct (removelast _).
Qed.

Lemma complete_part_last s :
  complete_part s +:+ List.last (split_blank s) EmptyString = s.
Proof.
  induction s as [| |r IH|c c' r E IH] using split_blank_ind; try done.
  - rewrite complete_part_sep, split_blank_sep_last.
    by rewrite !append_cons, IH.
  - rewrite complete_part_char, split_blank_char by done.
    rewrite push_front_last by apply split_blank_nonempty.
    revert IH. unfold complete_part.
    destruct (removelast (split_blank (String c' r))); cbn [foldr]; intros IH.
    + rewrite append_nil in *. by rewrite IH.
    + by rewrite append_cons, IH.
Qed.

(** The last piece holds no separator. *)
Lemma split_blank_last s :
  split_blank (List.last (split_blank s) EmptyString) = [List.last (split_blank s) EmptyString].
Proof.
  induction s as [| |r IH|c c' r E IH] using split_blank_ind; try done.
  - by rewrite split_blank_sep_last.
  - rewrite split_blank_char by done.
    rewrite push_front_last by apply split_blank_nonempty.
    destruct (removelast (split_blank (String c' r))) eqn:Er; [|done].
    pose proof (complete_part_last (String c' r)) as Hc.
    unfold complete_part in Hc. rewrite Er in Hc. cbn [foldr] in Hc.
    rewrite append_nil in Hc. rewrite Hc in *.
    rewrite split_blank_char by done. by rewrite IH.
Qed.

(** Text appended to a text goes to its last piece. *)
Lemma split_blank_app s t :
  split_blank (s +:+ t) =
    removelast (split_blank s) ++ split_blank (List.last (split_blank s) EmptyString +:+ t).
Proof.
  induction s as [| |r IH|c c' r E IH] using split_blank_ind; try done.
  - rewrite split_blank_sep_removelast, split_blank_sep_last.
    by rewrite !append_cons, split_blank_sep, IH.
  - rewrite append_cons, split_blank_char by done.
    rewrite append_cons, split_blank_char by done.
    rewrite <- append_cons, IH.
    rewrite push_front_removelast, push_front_last by apply split_blank_nonempty.
    destruct (removelast (split_blank (String c' r))) eqn:Er; [|done].
    pose proof (complete_part_last (String c' r)) as Hc.
    unfold complete_part in Hc. rewrite Er in Hc. cbn [foldr] in Hc.
    rewrite append_nil in Hc. rewrite Hc.
    cbn [app]. by rewrite !append_cons, split_blank_char.
Qed.

(** Cutting after the last complete segment keeps the segments and empties
    the last piece. *)
Lemma split_blank_complete_part s :
  split_blank (complete_part s) = removelast (split_blank s) ++ [EmptyString].
Proof.
  induction s as [| |r IH|c c' r E IH] using split_blank_ind; try done.
  - by rewrite complete_part_sep, split_blank_sep_removelast, split_blank_sep, IH.
  - rewrite complete_part_char by done. rewrite split_blank_char by done.
    rewrite push_front_removelast by apply split_blank_nonempty.
    destruct (removelast (split_blank (String c' r))) as [|x l] eqn:Er; [done|].
    pose proof (complete_part_last (String c' r)) as Hc.
    destruct (complete_part (String c' r)) as [|d z] eqn:Ez.
    { unfold complete_part in Ez. rewrite Er in Ez. by destruct x. }
    rewrite append_cons in Hc. injection Hc as -> Hc.
    rewrite split_blank_char by done. by rewrite IH.
Qed.

End Split.

(** ** The decoder over chunks *)

Section Decoder.

Import JS.

Lemma forEach_app {A : Type} (l1 l2 : list A) (f : A → M unit) (p : Page) :
  forEach (l1 ++ l2) f p = (forEach l1 f;; forEach l2 f) p.
Proof.
  revert p. induction l1 as [|x l1 IH]; intros p; [done|].
  cbn [app forEach]. unfold mbind, M_bind in *.
  destruct (f x p) as [p' [[]|e]]; [apply IH|done].
Qed.

Lemma pop_split_blank s :
  pop (split_blank s) = (removelast (split_blank s), List.last (split_blank s) EmptyString).
Proof. reflexivity. Qed.

Lemma no_separator_last s : no_separator (List.last (split_blank s) EmptyString).
Proof. apply split_blank_last. Qed.

Lemma append_assoc (a b c : string) : (a +:+ b) +:+ c = a +:+ b +:+ c.
Proof. induction a as [|x a IH]; [done|]. by rewrite !append_cons, IH. Qed.

Lemma append_nil_r (a : string) : a +:+ EmptyString = a.
Proof. induction a as [|x a IH]; [done|]. by rewrite append_cons, IH. Qed.

Lemma last_app_ne {A : Type} (l l' : list A) (d : A) :
  l' ≠ [] → List.last (l ++ l') d = List.last l' d.
Proof.
  intros H. induction l as [|a l IH]; [done|].
  cbn [app]. rewrite last_cons_ne; [done|]. by destruct l, l'.
Qed.

(** Over any chunking, the loop sees the segments of the whole text, and
    keeps its last piece. *)
Lemma feed_body buffer chunks :
  no_separator buffer →
  feed buffer chunks = removelast (split_blank (buffer +:+ body_of chunks))
  ∧ final_buffer buffer chunks = List.last (split_blank (buffer +:+ body_of chunks)) EmptyString.
Proof.
  revert buffer. induction chunks as [|value rest IH]; intros buffer Hb.
  - cbn. rewrite append_nil_r, Hb. done.
  - cbn [feed final_buffer body_of foldr]. rewrite pop_split_blank.
    destruct (IH _ (no_separator_last (buffer +:+ value))) as [-> ->].
    rewrite <- append_assoc, (split_blank_app (buffer +:+ value)).
    split.
    + rewrite removelast_app by apply split_blank_nonempty. done.
    + rewrite last_app_ne by apply split_blank_nonempty. done.
Qed.

Lemma analyze_stream_not_reading h reads p :
  (∀ b, h ≠ Reading b) → analyze_stream h reads p = (p, h).
Proof. intros H. destruct reads; [done|]. destruct h; [done| |done]. by destruct (H buffer). Qed.

(** A handler fed chunk by chunk runs the loop body on the segments of
    [feed], in order, under the one [catch]. *)
Lemma analyze_stream_feed buffer chunks p :
  analyze_stream (Reading buffer) (map ReadChunk chunks) p =
    try_catch (forEach (feed buffer chunks) process_line;;
               mret (Reading (final_buffer buffer chunks))) p.
Proof.
  revert buffer p. induction chunks as [|value rest IH]; intros buffer p; [done|].
  cbn [map analyze_stream feed final_buffer]. unfold analyze_read, read_step.
  destruct (pop _) as [lines buffer'].
  unfold try_catch at 2. unfold mbind, M_bind. rewrite forEach_app.
  unfold try_catch at 1. unfold mbind, M_bind.
  destruct (forEach lines process_line p) as [p' [[]|e]].
  - unfold mret, M_ret. cbv beta iota zeta. by rewrite IH.
  - by rewrite analyze_stream_not_reading.
Qed.

Lemma analyze_stream_app h reads1 reads2 p :
  analyze_stream h (reads1 ++ reads2) p =
    let '(p', h') := analyze_stream h reads1 p in analyze_stream h' reads2 p'.
Proof.
  revert h p. induction reads1 as [|r reads1 IH]; intros h p; [done|].
  cbn [app analyze_stream]. destruct h.
  - by rewrite analyze_stream_not_reading.
  - destruct (analyze_read buffer r p) as [p' h']. apply IH.
  - by rewrite analyze_stream_not_reading.
Qed.

Lemma no_separator_empty : no_separator EmptyString.
Proof. reflexivity. Qed.

(** C3. Chunk-boundary invariance: however the text of a response body is
    cut into chunks, the decoder yields the event records it yields for the
    body in one chunk, in the same order; and the handler fed the chunks
    one at a time leaves the page, and stands with the buffer, it is left
    with when fed the body at once. *)
Theorem chunk_boundary_invariance (chunks : list string) (p : Page) :
  decoded chunks = decoded [body_of chunks]
  ∧ analyze_stream (Reading EmptyString) (map ReadChunk chunks) p
    = analyze_stream (Reading EmptyString) [ReadChunk (body_of chunks)] p.
Proof.
  pose proof (feed_body EmptyString chunks no_separator_empty) as [Hf Hb].
  pose proof (feed_body EmptyString [body_of chunks] no_separator_empty) as [Hf1 Hb1].
  assert (E : body_of [body_of chunks] = body_of chunks) by apply append_nil_r.
  rewrite E in Hf1, Hb1. split.
  - unfold decoded. by rewrite Hf, Hf1.
  - change [ReadChunk (body_of chunks)] with (map ReadChunk [body_of chunks]).
    rewrite !analyze_stream_feed. by rewrite Hf, Hf1, Hb, Hb1.
Qed.

(** C4. A stream that ends inside a segment: the text after the last
    separator is what the buffer holds at the end of the stream and is
    never handed to the loop body; the event records are those of the
    stream cut right after its last complete segment, and the handler ends
    on the same page. *)
Theorem trailing_fragment_discarded (chunks : list string) (p : Page) :
  body_of chunks = complete_part (body_of chunks) +:+ final_buffer EmptyString chunks
  ∧ feed EmptyString chunks ++ [final_buffer EmptyString chunks] = split_blank (body_of chunks)
  ∧ decoded chunks = decoded [complete_part (body_of chunks)]
  ∧ analyze_stream (Reading EmptyString) (map ReadChunk chunks ++ [ReadDone]) p
    = analyze_stream (Reading EmptyString)
        [ReadChunk (complete_part (body_of chunks)); ReadDone] p.
Proof.
  pose proof (feed_body EmptyString chunks no_separator_empty) as [Hf Hb].
  pose proof (feed_body EmptyString [complete_part (body_of chunks)] no_separator_empty)
    as [Hf1 Hb1].
  assert (E : body_of [complete_part (body_of chunks)] = complete_part (body_of chunks))
    by apply append_nil_r.
  rewrite E in Hf1, Hb1. rewrite append_nil in Hf, Hb, Hf1, Hb1.
  rewrite split_blank_complete_part in Hf1, Hb1.
  rewrite removelast_last in Hf1. rewrite last_last in Hb1.
  split; [|split; [|split]].
  - by rewrite Hb, complete_part_last.
  - rewrite Hf, Hb. symmetry. apply app_removelast_last, split_blank_nonempty.
  - unfold decoded. by rewrite Hf, Hf1.
  - change [ReadChunk (complete_part (body_of chunks)); ReadDone]
      with (map ReadChunk [complete_part (body_of chunks)] ++ [ReadDone]).
    rewrite !analyze_stream_app, !analyze_stream_feed. rewrite Hf1, Hb1, <- Hf.
    unfold try_catch, mbind, M_bind.
    by destruct (forEach (feed EmptyString chunks) process_line p) as [p' [[]|e]].
Qed.

End Decoder.

(** ** What a computation leaves in place *)

Section Preserves.

Context (R : relation Page) `{!PreOrder R}.

Lemma preserves_ret {A : Type} (a : A) : preserves R (mret a).
Proof. intros p. reflexivity. Qed.

Lemma preserves_throw {A : Type} (e : exn) : preserves R (throw e : M A).
Proof. intros p. reflexivity. Qed.

Lemma preserves_bind {A B : Type} (m : M A) (f : A → M B) :
  preserves R m → (∀ a, preserves R (f a)) → preserves R (m ≫= f).
Proof.
  intros Hm Hf p. unfold mbind, M_bind. specialize (Hm p).
  destruct (m p) as [p' [a|e]]; [|done].
  etransitivity; [exact Hm|apply Hf].
Qed.

Lemma preserves_modify (f : Page → Page) :
  (∀ p, R p (f p)) → preserves R (modify f).
Proof. intros H p. apply H. Qed.

Lemma preserves_prop v k : preserves R (prop v k).
Proof. unfold prop. destruct (JSON.get v k); [apply preserves_ret|apply preserves_throw]. Qed.

Lemma preserves_as_string v : preserves R (as_string v).
Proof. destruct v; first [apply preserves_ret|apply preserves_throw]. Qed.

Lemma preserves_as_array v : preserves R (as_array v).
Proof. destruct v; first [apply preserves_ret|apply preserves_throw]. Qed.

Lemma preserves_json body : preserves R (json body).
Proof. unfold json. destruct (JSON.parse body); [apply preserves_ret|apply preserves_throw]. Qed.

Lemma preserves_forEach {A : Type} (l : list A) (f : A → M unit) :
  (∀ a, preserves R (f a)) → preserves R (forEach l f).
Proof.
  intros H. induction l as [|a l IH]; [apply preserves_ret|].
  cbn [forEach]. apply preserves_bind; [apply H|intros _; apply IH].
Qed.

Lemma preserves_to_text v : preserves R (to_text v).
Proof. unfold to_text. destruct (JSON.to_string v); [apply preserves_ret|apply preserves_throw]. Qed.

Lemma preserves_non_empty v : preserves R (non_empty v).
Proof.
  unfold non_empty. destruct (JSON.truthy v); [|apply preserves_ret].
  destruct (JSON.length_positive v); [apply preserves_ret|apply preserves_throw].
Qed.

Lemma preserves_render_checks l : preserves R (render_checks l).
Proof.
  induction l as [|c l IH]; [apply preserves_ret|].
  cbn [render_checks]. unfold render_check.
  repeat first [apply preserves_bind; [|intros ?] | apply preserves_prop
               | apply preserves_to_text | apply preserves_ret | apply IH
               | match goal with |- preserves _ (if ?b then _ else _) => destruct b end].
Qed.

(** The pieces of the handler under its [catch]. *)
Lemma try_catch_preserves (m : M Handler) :
  preserves R m → (∀ e p, R p (catch_block e p)) → ∀ p, R p (try_catch m p).1.
Proof.
  intros Hm Hc p. unfold try_catch. specialize (Hm p).
  destruct (m p) as [p' [h|e]]; [done|].
  etransitivity; [exact Hm|apply Hc].
Qed.

End Preserves.

#[global] Instance same_preorder {A : Type} (f : Page → A) : PreOrder (same f).
Proof.
  split; [intros p; reflexivity|].
  intros p q r H1 H2. unfold same in *. congruence.
Qed.

#[global] Instance done_kept_preorder : PreOrder done_kept.
Proof.
  split; [intros p id c; eauto|].
  intros p q r H1 H2 id c Hc Hd.
  destruct (H1 id c Hc Hd) as (c' & Hc' & Hd'). eauto.
Qed.

#[global] Instance kept_preorder (P : Page → Prop) : PreOrder (kept P).
Proof.
  split; [intros p H; exact H|].
  intros p q r H1 H2 H. apply H2, H1, H.
Qed.

Lemma same_steps_done_kept p p' : steps (run p') = steps (run p) → done_kept p p'.
Proof. intros E id c Hc Hd. rewrite E. eauto. Qed.

(** Take a computation apart down to its writes to the page. *)
Ltac preorder := try (solve [typeclasses eauto]).
Ltac preserves_step :=
  first
    [ solve [apply preserves_ret; preorder]
    | solve [apply preserves_throw; preorder]
    | solve [apply preserves_prop; preorder]
    | solve [apply preserves_as_string; preorder]
    | solve [apply preserves_as_array; preorder]
    | solve [apply preserves_json; preorder]
    | solve [apply preserves_to_text; preorder]
    | solve [apply preserves_non_empty; preorder]
    | solve [apply preserves_render_checks; preorder]
    | apply preserves_bind; preorder; [|intros ?]
    | apply preserves_forEach; preorder; intros ?
    | match goal with
      | |- preserves _ (if ?b then _ else _) => destruct b
      | |- preserves _ (modify _) => apply preserves_modify; intros ?
      end ].
Ltac preserves_all tac :=
  repeat first [preserves_step | tac | progress unfold add_question, showError, updateProgress].

(** ** Stepping through a computation *)

Section Steps.

Lemma bind_return {A B : Type} (m : M A) (k : A → M B) p p' a :
  m p = (p', Return a) → (m ≫= k) p = k a p'.
Proof. intros H. unfold mbind, M_bind. by rewrite H. Qed.

Lemma bind_throw {A B : Type} (m : M A) (k : A → M B) p p' e :
  m p = (p', Throw e) → (m ≫= k) p = (p', Throw e).
Proof. intros H. unfold mbind, M_bind. by rewrite H. Qed.

Lemma prop_return v k x p : JSON.get v k = Some x → prop v k p = (p, Return x).
Proof. intros H. unfold prop. by rewrite H. Qed.

Lemma to_text_return v s p : JSON.to_string v = Some s → to_text v p = (p, Return s).
Proof. intros H. unfold to_text. by rewrite H. Qed.

Lemma to_text_throw v p : JSON.to_string v = None → to_text v p = (p, Throw TypeError).
Proof. intros H. unfold to_text. by rewrite H. Qed.

Lemma bind_inv {A B : Type} (m : M A) (k : A → M B) p p' b :
  (m ≫= k) p = (p', Return b) → ∃ a q, m p = (q, Return a) ∧ k a q = (p', Return b).
Proof.
  unfold mbind, M_bind. destruct (m p) as [q [a|e]]; [|done]. eauto.
Qed.

Lemma prop_inv v k p q x : prop v k p = (q, Return x) → JSON.get v k = Some x ∧ q = p.
Proof. unfold prop. destruct (JSON.get v k); [|done]. by intros [= <- <-]. Qed.

Lemma as_string_inv v p q s : as_string v p = (q, Return s) → v = JSON.Str s ∧ q = p.
Proof. destruct v; try done. by intros [= <- <-]. Qed.

Lemma to_text_inv v p q s : to_text v p = (q, Return s) → JSON.to_string v = Some s ∧ q = p.
Proof. unfold to_text. destruct (JSON.to_string v); [|done]. by intros [= <- <-]. Qed.

End Steps.

(** ** The progress stepper *)

Section Stepper.

Lemma mark_step_spec id isDone p c :
  steps (run p) !! id = Some c →
  steps (run (mark_step id isDone p)) =
    <[id := if JSON.truthy isDone then {| active := false; completed := true |}
            else {| active := true; completed := completed c |}]> (steps (run p)).
Proof.
  intros Hc. unfold mark_step. rewrite Hc.
  by destruct (JSON.truthy isDone).
Qed.

Lemma mark_step_done_kept name isDone p : done_kept p (mark_step name isDone p).
Proof.
  unfold mark_step.
  destruct (steps (run p) !! name) as [c0|] eqn:E0; [|reflexivity].
  intros id c Hc Hd.
  destruct (decide (id = name)) as [->|Hne].
  - assert (c0 = c) as -> by congruence.
    destruct (JSON.truthy isDone); cbn; rewrite lookup_insert_eq; eauto.
  - destruct (JSON.truthy isDone); cbn; rewrite lookup_insert_ne by done; eauto.
Qed.

Lemma dispatch_done_kept eventType data : preserves done_kept (dispatch eventType data).
Proof.
  unfold dispatch, addActivityLog, displayResults, extractCompanyName, markdownToHtml.
  preserves_all ltac:(first [apply mark_step_done_kept
                            | by apply same_steps_done_kept]).
Qed.

Lemma process_line_done_kept line : preserves done_kept (process_line line).
Proof.
  unfold process_line. destruct (frame_of line) as [[eventType text]|]; [|preserves_step].
  destruct (JSON.parse text); [apply dispatch_done_kept|preserves_step].
Qed.

Lemma analyze_read_done_kept buffer r p : done_kept p (analyze_read buffer r p).1.
Proof.
  apply (try_catch_preserves _); [|intros; by apply same_steps_done_kept].
  destruct r as [|value|]; cbn [read_step]; [preserves_step| |preserves_step].
  destruct (JS.pop _) as [lines buffer'].
  preserves_all ltac:(apply process_line_done_kept).
Qed.

Lemma analyze_stream_done_kept h reads p : done_kept p (analyze_stream h reads p).1.
Proof.
  revert h p. induction reads as [|r reads IH]; intros h p; [reflexivity|].
  cbn [analyze_stream]. destruct h; try reflexivity.
  pose proof (analyze_read_done_kept buffer r p) as H.
  destruct (analyze_read buffer r p) as [p' h']. etransitivity; [exact H|apply IH].
Qed.

(** C6. Within a run, a stage once done stays done: whatever the handler
    reads from its stream afterwards - status, log, complete and error
    events, frames that are skipped, a frame that makes it throw - a step
    that carries the class [completed] still carries it, and shows as
    done. *)
Theorem done_marking_persists (h : Handler) (reads : list ReadOutcome) (p : Page)
    (id : string) (c : StepClasses) :
  steps (run p) !! id = Some c →
  stage_status c = Done →
  ∃ c', steps (run (analyze_stream h reads p).1) !! id = Some c'
        ∧ completed c' = true ∧ stage_status c' = Done.
Proof.
  intros Hc Hd.
  assert (completed c = true) as Hcompleted.
  { unfold stage_status in Hd. destruct (completed c); [done|]. by destruct (active c). }
  destruct (analyze_stream_done_kept h reads p id c Hc Hcompleted) as (c' & Hc' & Hd').
  exists c'. unfold stage_status. by rewrite Hd'.
Qed.

Lemma done_marking_persists_witness :
  let p := (dispatch_all [status_event "planning" true] page_as_served).1 in
  let reads := [ReadChunk (sse "status" "{'stage': 'planning', 'done': false}"); ReadDone] in
  let c := {| active := false; completed := true |} in
  steps (run p) !! "step-planning" = Some c
  ∧ stage_status c = Done
  ∧ ∃ c', steps (run (analyze_stream (Reading "") reads p).1) !! "step-planning" = Some c'
          ∧ completed c' = true ∧ stage_status c' = Done.
Proof.
  cbv zeta. split; [|split].
  - vm_compute. reflexivity.
  - reflexivity.
  - apply (done_marking_persists (Reading "") _ _ "step-planning"
             {| active := false; completed := true |}).
    + vm_compute. reflexivity.
    + reflexivity.
Defined.

Lemma dispatch_status stage isDone name data p :
  JSON.get data "stage" = Some stage →
  JSON.get data "done" = Some isDone →
  JSON.to_string stage = Some name →
  dispatch "status" data p = (mark_step ("step-" +:+ name) isDone p, Return tt).
Proof.
  intros Hs Hd Hn. unfold dispatch, updateProgress.
  cbn [String.eqb Ascii.eqb Bool.eqb].
  erewrite bind_return by (by apply prop_return).
  erewrite bind_return by (by apply prop_return).
  erewrite bind_return by (by apply to_text_return).
  reflexivity.
Qed.





(** The same three events, as frames on the wire. *)
Example status_frames_stage_map :
  stage_map (analyze_stream (Reading "") [ReadChunk status_frames; ReadDone] page_as_served).1
  = [("planning", Some Done); ("searching", Some Active);
     ("writing", Some Pending); ("verifying", Some Pending)].
Proof. vm_compute. reflexivity. Qed.

End Stepper.

(** ** The recommendation badge *)

Section Badge.

Import JS.

Lemma strip_prefix_spec sub s rest :
  strip_prefix sub s = Some rest ↔ s = sub +:+ rest.
Proof.
  revert s. induction sub as [|a sub IH]; intros s; cbn [strip_prefix].
  - rewrite append_nil. split; congruence.
  - rewrite append_cons. destruct s as [|b s]; [done|].
    destruct (Ascii.eqb a b) eqn:E.
    + apply Ascii.eqb_eq in E as ->. rewrite IH. split; congruence.
    + apply Ascii.eqb_neq in E. split; [done|congruence].
Qed.

(** [includes] decides occurrence. *)
Lemma includes_spec s sub : includes s sub = true ↔ occurs_in sub s.
Proof.
  induction s as [|c s IH]; cbn [includes].
  - destruct (strip_prefix sub EmptyString) as [rest|] eqn:E.
    + apply strip_prefix_spec in E. split; [|done].
      intros _. exists EmptyString, rest. by rewrite append_nil.
    + split; [done|]. intros (before & after & H).
      destruct before; [|done]. rewrite append_nil in H.
      apply strip_prefix_spec in H. congruence.
  - destruct (strip_prefix sub (String c s)) as [rest|] eqn:E.
    + apply strip_prefix_spec in E. split; [|done].
      intros _. exists EmptyString, rest. by rewrite append_nil.
    + rewrite IH. split.
      * intros (before & after & ->). exists (String c before), after.
        by rewrite append_cons.
      * intros (before & after & H). destruct before as [|b before].
        -- rewrite append_nil in H. apply strip_prefix_spec in H. congruence.
        -- rewrite append_cons in H. injection H as -> ->. by exists before, after.
Qed.

(** What [displayResults] has written to the badge once it is past the
    summary. *)
Lemma displayResults_badge data summary p :
  JSON.get data "short_summary" = Some (JSON.Str summary) →
  recommendationBadge (result (displayResults data p).1)
  = badge_of (recommendation (toLowerCase summary)).
Proof.
  intros Hs. unfold displayResults.
  erewrite bind_return by reflexivity.
  erewrite bind_return by (by apply prop_return).
  do 4 (erewrite bind_return by reflexivity).
  match goal with
  | |- recommendationBadge (result (?m ?q).1) = _ =>
      transitivity (recommendationBadge (result q)); [|reflexivity];
      generalize q;
      change (preserves (same (λ p, recommendationBadge (result p))) m)
  end.
  unfold markdownToHtml. preserves_all ltac:(reflexivity).
Qed.

Lemma orb3_true (a b c : bool) :
  a || b || c = true ↔ a = true ∨ b = true ∨ c = true.
Proof. destruct a, b, c; cbn; intuition congruence. Qed.

Lemma lower_char_ascii c :
  let n := Ascii.nat_of_ascii c in
  n < 128 →
  Ascii.nat_of_ascii (lower_char c) = if (65 <=? n)%nat && (n <=? 90)%nat then n + 32 else n.
Proof. destruct c as [[] [] [] [] [] [] [] []]; cbv zeta; (vm_compute; lia) || reflexivity. Qed.

(** C7. The recommendation shown for a summary: Buy if its lowercasing
    contains buy, strong or positive; otherwise Sell if it contains sell,
    negative or avoid; otherwise Hold.  The Buy words are tested first, so
    they win when words of both sets occur, as in "We recommend a strong
    buy despite some negative risk".  The words are found whatever their
    letter case - lowercasing moves A-Z to a-z and leaves the other ASCII
    characters - and the class decides text and class name of the badge
    [displayResults] renders for a payload with that summary. *)
Theorem recommendation_classification (summary : string) :
  let s := toLowerCase summary in
  let buy := occurs_in "buy" s ∨ occurs_in "strong" s ∨ occurs_in "positive" s in
  let sell := occurs_in "sell" s ∨ occurs_in "negative" s ∨ occurs_in "avoid" s in
  (buy → recommendation s = Buy)
  ∧ (¬ buy → sell → recommendation s = Sell)
  ∧ (¬ buy → ¬ sell → recommendation s = Hold)
  ∧ recommendation (toLowerCase "We recommend a strong buy despite some negative risk") = Buy
  ∧ recommendation (toLowerCase "A STRONG quarter, but AVOID the bonds") = Buy
  ∧ recommendation (toLowerCase "Analysts say: AVOID") = Sell
  ∧ recommendation (toLowerCase "Wait and see") = Hold
  ∧ (∀ c, Ascii.nat_of_ascii c < 128 →
          Ascii.nat_of_ascii (lower_char c)
          = if (65 <=? Ascii.nat_of_ascii c)%nat && (Ascii.nat_of_ascii c <=? 90)%nat
            then Ascii.nat_of_ascii c + 32 else Ascii.nat_of_ascii c)
  ∧ (∀ data p, JSON.get data "short_summary" = Some (JSON.Str summary) →
       let badge := recommendationBadge (result (displayResults data p).1) in
       (buy → badge = {| badge_textContent := "Buy";
                         badge_className := "recommendation-badge buy" |})
       ∧ (¬ buy → sell → badge = {| badge_textContent := "Sell";
                                    badge_className := "recommendation-badge sell" |})
       ∧ (¬ buy → ¬ sell → badge = {| badge_textContent := "Hold";
                                      badge_className := "recommendation-badge hold" |})).
Proof.
  cbv zeta. set (s := toLowerCase summary).
  assert (Hbadge : ∀ data p, JSON.get data "short_summary" = Some (JSON.Str summary) →
                     recommendationBadge (result (displayResults data p).1)
                     = badge_of (recommendation s)).
  { intros data p Hs. apply (displayResults_badge data summary p Hs). }
  assert (Hclass :
    (occurs_in "buy" s ∨ occurs_in "strong" s ∨ occurs_in "positive" s → recommendation s = Buy)
    ∧ (¬ (occurs_in "buy" s ∨ occurs_in "strong" s ∨ occurs_in "positive" s) →
       occurs_in "sell" s ∨ occurs_in "negative" s ∨ occurs_in "avoid" s →
       recommendation s = Sell)
    ∧ (¬ (occurs_in "buy" s ∨ occurs_in "strong" s ∨ occurs_in "positive" s) →
       ¬ (occurs_in "sell" s ∨ occurs_in "negative" s ∨ occurs_in "avoid" s) →
       recommendation s = Hold)).
  { unfold recommendation. rewrite <- !includes_spec, <- !orb3_true.
    destruct (includes s "buy" || includes s "strong" || includes s "positive");
      destruct (includes s "sell" || includes s "negative" || includes s "avoid");
      by repeat split. }
  destruct Hclass as (Hbuy & Hsell & Hhold).
  split; [exact Hbuy|]. split; [exact Hsell|]. split; [exact Hhold|].
  do 4 (split; [reflexivity|]).
  split; [intros c; apply lower_char_ascii|].
  intros data p Hs. rewrite (Hbadge data p Hs). split; [|split].
  - intros H. by rewrite (Hbuy H).
  - intros H1 H2. by rewrite (Hsell H1 H2).
  - intros H1 H2. by rewrite (Hhold H1 H2).
Qed.

Lemma recommendation_classification_witness :
  let summary := "We Recommend a STRONG Buy despite some NEGATIVE risk" in
  let data := JSON.Object [("short_summary", JSON.Str summary)] in
  (occurs_in "buy" (toLowerCase summary) ∨ occurs_in "strong" (toLowerCase summary)
   ∨ occurs_in "positive" (toLowerCase summary))
  ∧ occurs_in "negative" (toLowerCase summary)
  ∧ recommendation (toLowerCase summary) = Buy
  ∧ recommendationBadge (result (displayResults data page_as_served).1)
    = {| badge_textContent := "Buy"; badge_className := "recommendation-badge buy" |}.
Proof.
  cbv zeta.
  assert (H : occurs_in "buy"
                (toLowerCase "We Recommend a STRONG Buy despite some NEGATIVE risk")).
  { by exists "we recommend a strong ", " despite some negative risk". }
  pose proof (recommendation_classification
                "We Recommend a STRONG Buy despite some NEGATIVE risk") as T.
  cbv zeta in T. destruct T as (Hbuy & _ & _ & _ & _ & _ & _ & _ & Hbadge).
  split; [by left|]. split.
  - by exists "we recommend a strong buy despite some ", " risk".
  - split; [apply Hbuy; by left|].
    apply (Hbadge (JSON.Object [("short_summary",
                     JSON.Str "We Recommend a STRONG Buy despite some NEGATIVE risk")])
             page_as_served eq_refl).
    by left.
Defined.

End Badge.

(** ** The submit control *)

Section Submit.

Import JS.

Lemma trimStart_white_space s : all_white_space s = true → trimStart s = EmptyString.
Proof.
  induction s as [|c s IH]; [done|]. cbn [all_white_space trimStart].
  intros [Hc Hs]%andb_true_iff. rewrite Hc. auto.
Qed.

Lemma trim_white_space s : all_white_space s = true → trim s = EmptyString.
Proof. intros H. unfold trim. by rewrite trimStart_white_space. Qed.

(** C10. With a query that is empty or all white space, activating the
    submit control does nothing: the handler returns at its guard, before
    the reset; it sends no request, starts no run, and leaves the page -
    progress, log, result, error, button - as it was. *)
Theorem blank_query_is_noop (s : Session) :
  all_white_space (queryInput_value (page s)) = true →
  analyze_click (page s) = (page s, [], Finished) ∧ step Click s = s.
Proof.
  intros H. assert (E : analyze_click (page s) = (page s, [], Finished)).
  { unfold analyze_click. by rewrite (trim_white_space _ H). }
  split; [exact E|]. unfold step. rewrite E.
  destruct s as [p hs rs]. cbn. destruct (analyzeBtn_disabled (run p)); [done|].
  by rewrite app_nil_r.
Qed.

Lemma blank_query_is_noop_witness :
  let s := {| page := set_queryInput_value "   " page_as_served; handlers := []; sent := [] |} in
  all_white_space (queryInput_value (page s)) = true
  ∧ analyze_click (page s) = (page s, [], Finished) ∧ step Click s = s.
Proof.
  cbv zeta. split; [reflexivity|].
  apply (blank_query_is_noop
           {| page := set_queryInput_value "   " page_as_served; handlers := []; sent := [] |}).
  reflexivity.
Defined.

End Submit.

(** ** A frame that does not parse *)

Section Malformed.

(** C1, counterexample. The stream [malformed_frame], [planning_done_frame]:
    its first record
    carries malformed JSON.  The handler does not skip it and go on: it
    ends in its [catch] with the run failed, and the record that follows
    is never dispatched - without the malformed record the stream marks
    planning done and leaves the run in flight. *)
Lemma malformed_record_not_skipped :
  let with_it := analyze_stream (Reading "")
                   [ReadChunk (malformed_frame +:+ planning_done_frame); ReadDone]
                   page_running in
  let without_it := analyze_stream (Reading "")
                      [ReadChunk planning_done_frame; ReadDone] page_running in
  decoded [malformed_frame +:+ planning_done_frame]
  = [("status", None);
     ("status", Some (JSON.Object [("stage", JSON.Str "planning"); ("done", JSON.Bool true)]))]
  ∧ phase with_it.1 = Failed
  ∧ errorSection (run with_it.1) = "block"
  ∧ stage_map with_it.1
    = [("planning", Some Pending); ("searching", Some Pending);
       ("writing", Some Pending); ("verifying", Some Pending)]
  ∧ phase without_it.1 = Running
  ∧ stage_map without_it.1
    = [("planning", Some Done); ("searching", Some Pending);
       ("writing", Some Pending); ("verifying", Some Pending)].
Proof. vm_compute. repeat split; reflexivity. Qed.

Lemma process_line_malformed line eventType text p :
  frame_of line = Some (eventType, text) →
  JSON.parse text = None →
  process_line line p = (p, Throw SyntaxError).
Proof. intros Hf Hp. unfold process_line. by rewrite Hf, Hp. Qed.

(** The segments up to a malformed record make the loop throw: at that
    record, or before. *)
Lemma forEach_malformed before line eventType text p :
  frame_of line = Some (eventType, text) →
  JSON.parse text = None →
  ∃ p' e,
    forEach (before ++ [line]) process_line p = (p', Throw e)
    ∧ (∀ q, forEach before process_line p = (q, Return tt) → p' = q ∧ e = SyntaxError).
Proof.
  intros Hf Hp. rewrite forEach_app.
  destruct (forEach before process_line p) as [q [[]|e0]] eqn:E.
  - exists q, SyntaxError. split.
    + erewrite bind_return by exact E. cbn [forEach].
      erewrite bind_throw; [reflexivity|]. by apply (process_line_malformed _ eventType text).
    + by intros ? [= <-].
  - exists q, e0. split; [by erewrite bind_throw|]. intros ? [=].
Qed.

Lemma catch_block_failed e p :
  phase (catch_block e p) = Failed
  ∧ errorSection (run (catch_block e p)) = "block"
  ∧ errorMessage (run (catch_block e p))
    = JSON.Str "An error occurred while processing your request. Please try again."
  ∧ console (catch_block e p)
    = console p ++ [{| level := LevelError; label := "Error:"; arg := Some (ArgExn e) |}]
  ∧ steps (run (catch_block e p)) = steps (run p)
  ∧ activityLogContent (run (catch_block e p)) = activityLogContent (run p)
  ∧ result (catch_block e p) = result p
  ∧ side (catch_block e p) = side p.
Proof. by repeat split. Qed.

(** C1, amended. A record whose data line is malformed JSON ends the
    stream, at the latest.  The loop throws on the segments up to that
    record - the [SyntaxError] of [JSON.parse] on it, when the records
    before it were dispatched without an exception, or what one of them
    threw - and the handler ends in its [catch] on the page as it was at
    the throw: the error is logged, the generic banner shown, the submit
    control re-enabled as "Try Again" - the run is failed - and stepper,
    log and result are left as they were at the throw.  The handler is
    finished: what follows the record in the stream, and what the stream
    delivers later, plays no part - no later record is dispatched. *)
Theorem malformed_record_aborts_stream (chunks : list string) (p : Page)
    (before after : list string) (line eventType text : string) :
  feed EmptyString chunks = before ++ line :: after →
  frame_of line = Some (eventType, text) →
  JSON.parse text = None →
  ∃ p' e,
    forEach (before ++ [line]) process_line p = (p', Throw e)
    ∧ (∀ q, forEach before process_line p = (q, Return tt) → p' = q ∧ e = SyntaxError)
    ∧ analyze_stream (Reading EmptyString) (map ReadChunk chunks) p
      = (catch_block e p', Finished)
    ∧ (∀ more, analyze_stream (Reading EmptyString) (map ReadChunk chunks ++ more) p
               = (catch_block e p', Finished))
    ∧ phase (catch_block e p') = Failed
    ∧ errorSection (run (catch_block e p')) = "block"
    ∧ errorMessage (run (catch_block e p'))
      = JSON.Str "An error occurred while processing your request. Please try again."
    ∧ console (catch_block e p')
      = console p' ++ [{| level := LevelError; label := "Error:"; arg := Some (ArgExn e) |}]
    ∧ steps (run (catch_block e p')) = steps (run p')
    ∧ activityLogContent (run (catch_block e p')) = activityLogContent (run p')
    ∧ result (catch_block e p') = result p'.
Proof.
  intros Hfeed Hframe Hparse.
  destruct (forEach_malformed before line eventType text p Hframe Hparse)
    as (p' & e & Hthrow & Hfirst).
  exists p', e.
  assert (E : analyze_stream (Reading EmptyString) (map ReadChunk chunks) p
              = (catch_block e p', Finished)).
  { rewrite analyze_stream_feed, Hfeed. unfold try_catch.
    erewrite bind_throw; [reflexivity|].
    change (before ++ line :: after) with (before ++ [line] ++ after).
    rewrite app_assoc, forEach_app. by erewrite bind_throw. }
  split; [exact Hthrow|]. split; [exact Hfirst|]. split; [exact E|]. split.
  - intros more. rewrite analyze_stream_app, E. by apply analyze_stream_not_reading.
  - pose proof (catch_block_failed e p') as (? & ? & ? & ? & ? & ? & ? & _).
    by repeat split.
Qed.

Lemma malformed_record_aborts_stream_witness :
  let good := "event: status" +:+ String JS.LF
                ("data: " +:+ JSON.text "{'stage': 'planning', 'done': true}") in
  let line := "event: status" +:+ String JS.LF "data: {oops" in
  let chunks := [planning_done_frame +:+ "event: status";
                 String JS.LF "data: {oops" +:+ blank +:+ searching_active_frame] in
  let marked := mark_step "step-planning" (JSON.Bool true) page_running in
  feed EmptyString chunks
  = [good] ++ line :: ["event: status" +:+ String JS.LF
                         ("data: " +:+ JSON.text "{'stage': 'searching', 'done': false}")]
  ∧ frame_of line = Some ("status", "{oops")
  ∧ JSON.parse "{oops" = None
  ∧ forEach [good] process_line page_running = (marked, Return tt)
  ∧ analyze_stream (Reading EmptyString) (map ReadChunk chunks) page_running
    = (catch_block SyntaxError marked, Finished)
  ∧ stage_map (catch_block SyntaxError marked)
    = [("planning", Some Done); ("searching", Some Pending);
       ("writing", Some Pending); ("verifying", Some Pending)].
Proof.
  cbv zeta.
  set (good := "event: status" +:+ String JS.LF
                 ("data: " +:+ JSON.text "{'stage': 'planning', 'done': true}")).
  set (line := "event: status" +:+ String JS.LF "data: {oops").
  set (chunks := [planning_done_frame +:+ "event: status";
                  String JS.LF "data: {oops" +:+ blank +:+ searching_active_frame]).
  set (marked := mark_step "step-planning" (JSON.Bool true) page_running).
  assert (Hfeed : feed EmptyString chunks
                  = [good] ++ line :: ["event: status" +:+ String JS.LF
                       ("data: " +:+ JSON.text "{'stage': 'searching', 'done': false}")])
    by (vm_compute; reflexivity).
  assert (Hframe : frame_of line = Some ("status", "{oops")) by (vm_compute; reflexivity).
  assert (Hparse : JSON.parse "{oops" = None) by (vm_compute; reflexivity).
  assert (Hgood : forEach [good] process_line page_running = (marked, Return tt))
    by (vm_compute; reflexivity).
  split; [exact Hfeed|]. split; [exact Hframe|]. split; [exact Hparse|].
  split; [exact Hgood|].
  destruct (malformed_record_aborts_stream chunks page_running [good] _ line "status" "{oops"
              Hfeed Hframe Hparse) as (p' & e & _ & Hfirst & E & _).
  destruct (Hfirst marked Hgood) as [-> ->].
  split; [exact E|]. vm_compute. reflexivity.
Defined.

End Malformed.

(** ** Terminal events *)

Section Terminal.

(** C9, counterexample. The stream [error_frame], [complete_frame]: after
    the error event the
    run is failed; the complete event that follows is dispatched all the
    same, renders its result and leaves the run completed, under the
    banner of the error. *)
Lemma later_complete_replaces_outcome :
  let failed := (analyze_stream (Reading "") [ReadChunk error_frame] page_running).1 in
  let later := (analyze_stream (Reading "")
                  [ReadChunk error_frame; ReadChunk complete_frame] page_running).1 in
  phase failed = Failed
  ∧ resultsSection (result failed) = "none"
  ∧ phase later = Completed
  ∧ phase later ≠ phase failed
  ∧ resultsSection (result later) = "block"
  ∧ errorSection (run later) = "block"
  ∧ analyzeBtn_textContent (run later) = "Analyze New Query".
Proof. vm_compute. repeat split; try reflexivity. discriminate. Qed.

Lemma mark_step_enabled_kept id isDone p : kept enabled p (mark_step id isDone p).
Proof. unfold mark_step. intros H. by repeat case_match. Qed.

Lemma dispatch_enabled_kept eventType data : preserves (kept enabled) (dispatch eventType data).
Proof.
  unfold dispatch, addActivityLog, displayResults, extractCompanyName, markdownToHtml.
  preserves_all ltac:(first [by intros ? | apply mark_step_enabled_kept]).
Qed.

Lemma process_line_enabled_kept line : preserves (kept enabled) (process_line line).
Proof.
  unfold process_line. destruct (frame_of line) as [[eventType text]|]; [|preserves_step].
  destruct (JSON.parse text); [apply dispatch_enabled_kept|preserves_step].
Qed.

Lemma analyze_read_enabled_kept buffer r p : kept enabled p (analyze_read buffer r p).1.
Proof.
  apply (try_catch_preserves _); [|by intros].
  destruct r as [|value|]; cbn [read_step]; [preserves_step| |preserves_step].
  destruct (JS.pop _) as [lines buffer'].
  preserves_all ltac:(apply process_line_enabled_kept).
Qed.

Lemma analyze_stream_enabled_kept h reads p : kept enabled p (analyze_stream h reads p).1.
Proof.
  revert h p. induction reads as [|r reads IH]; intros h p; [reflexivity|].
  cbn [analyze_stream]. destruct h; try reflexivity.
  pose proof (analyze_read_enabled_kept buffer r p) as H.
  destruct (analyze_read buffer r p) as [p' h']. etransitivity; [exact H|apply IH].
Qed.

Lemma phase_not_running p : phase p ≠ Running ↔ enabled p.
Proof.
  unfold phase, enabled. destruct (analyzeBtn_disabled (run p)); [split; done|].
  split; [done|]. intros _. by repeat case_match.
Qed.

Lemma displayResults_resultsSection data p p' o :
  displayResults data p = (p', o) → resultsSection (result p') = "block".
Proof.
  unfold displayResults. erewrite bind_return by reflexivity.
  match goal with
  | |- ?m ?q = _ → _ =>
      intros E;
      assert (H : preserves (kept (λ p, resultsSection (result p) = "block")) m)
  end.
  { unfold extractCompanyName, markdownToHtml. preserves_all ltac:(by intros ?). }
  match type of E with ?m ?q = _ => specialize (H q) end.
  rewrite E in H. by apply H.
Qed.

Lemma prop_throw v k p : JSON.get v k = None → prop v k p = (p, Throw TypeError).
Proof. intros H. unfold prop. by rewrite H. Qed.

Lemma addActivityLog_returns data entry p :
  loggable data entry →
  addActivityLog data p
  = (on_run (λ r, set_activityLogContent (activityLogContent r ++ [entry]) r) p, Return tt).
Proof.
  intros (timestamp & agent & details & action & H1 & H2 & H3 & H4 & H5 & H6 & H7 & ->).
  unfold addActivityLog.
  destruct (JSON.to_string timestamp) as [t|] eqn:Et; [|done].
  destruct (JSON.to_string action) as [a|] eqn:Ea; [|done].
  erewrite bind_return by (by apply prop_return).
  erewrite bind_return by (by eapply to_text_return).
  erewrite bind_return by (erewrite bind_return by (by apply prop_return); reflexivity).
  erewrite bind_return by (by apply prop_return).
  destruct (JSON.truthy details) eqn:Ed.
  - destruct (JSON.to_string details) as [d|] eqn:Edt; [|by destruct H5].
    erewrite bind_return by (by eapply to_text_return).
    erewrite bind_return by (by apply prop_return).
    erewrite bind_return by (by eapply to_text_return).
    reflexivity.
  - erewrite bind_return by reflexivity.
    erewrite bind_return by (by apply prop_return).
    erewrite bind_return by (by eapply to_text_return).
    reflexivity.
Qed.

Ltac nolog :=
  split; [done|]; split; [done|];
  let H := fresh in
  intros ? (? & ? & ? & ? & ? & ? & ? & ? & H & ? & ? & _);
  simplify_eq; try congruence; by apply H.

(** What [addActivityLog] does: it appends the entry of the event, or
    throws a [TypeError] with the page untouched. *)
Lemma addActivityLog_cases data p :
  match addActivityLog data p with
  | (p', Return _) =>
      ∃ entry, loggable data entry
               ∧ p' = on_run (λ r, set_activityLogContent (activityLogContent r ++ [entry]) r) p
  | (p', Throw e) => p' = p ∧ e = TypeError ∧ ∀ entry, ¬ loggable data entry
  end.
Proof.
  unfold addActivityLog.
  destruct (JSON.get data "timestamp") as [timestamp|] eqn:E1.
  2: { erewrite bind_throw by (by apply prop_throw). nolog. }
  erewrite bind_return by (by apply prop_return).
  destruct (JSON.to_string timestamp) as [t|] eqn:E2.
  2: { erewrite bind_throw by (by apply to_text_throw). nolog. }
  erewrite bind_return by (by eapply to_text_return).
  destruct (JSON.get data "agent") as [agentv|] eqn:E3.
  2: { erewrite bind_throw by (erewrite bind_throw by (by apply prop_throw); reflexivity).
       nolog. }
  destruct (as_string agentv p) as [q [agent|e]] eqn:E4.
  2: { erewrite bind_throw
         by (erewrite bind_return by (by apply prop_return); exact E4).
       destruct agentv; try discriminate E4; injection E4 as <- <-;
         nolog. }
  apply as_string_inv in E4 as [-> ->].
  erewrite bind_return by (erewrite bind_return by (by apply prop_return); reflexivity).
  destruct (JSON.get data "details") as [details|] eqn:E5.
  2: { erewrite bind_throw by (by apply prop_throw). nolog. }
  erewrite bind_return by (by apply prop_return).
  destruct (JSON.truthy details) eqn:Ed.
  - destruct (JSON.to_string details) as [d|] eqn:E6.
    2: { erewrite bind_throw by (by apply to_text_throw). nolog. }
    erewrite bind_return by (by eapply to_text_return).
    destruct (JSON.get data "action") as [action|] eqn:E7.
    2: { erewrite bind_throw by (by apply prop_throw). nolog. }
    erewrite bind_return by (by apply prop_return).
    destruct (JSON.to_string action) as [a|] eqn:E8.
    2: { erewrite bind_throw by (by apply to_text_throw). nolog. }
    erewrite bind_return by (by eapply to_text_return).
    eexists. split; [|reflexivity].
    exists timestamp, agent, details, action. rewrite Ed.
    repeat split; congruence.
  - erewrite bind_return by reflexivity.
    destruct (JSON.get data "action") as [action|] eqn:E7.
    2: { erewrite bind_throw by (by apply prop_throw). nolog. }
    erewrite bind_return by (by apply prop_return).
    destruct (JSON.to_string action) as [a|] eqn:E8.
    2: { erewrite bind_throw by (by apply to_text_throw). nolog. }
    erewrite bind_return by (by eapply to_text_return).
    eexists. split; [|reflexivity].
    exists timestamp, agent, details, action. rewrite Ed.
    repeat split; congruence.
Qed.

(** What [showError] does *)
Lemma showError_outcome message p :
  showError message p
  = match JSON.to_string message with
    | Some _ => (on_run (set_errorSection "block") (on_run (set_errorMessage message) p),
                 Return tt)
    | None => (p, Throw TypeError)
    end.
Proof. unfold showError, to_text. by destruct (JSON.to_string message). Qed.

(** C9, amended. Once the run is terminal, the events that follow on the
    same stream never return it to Running: whatever the handler reads,
    an enabled submit control stays enabled.  They are dispatched like any
    other event, though.  A log event appends its entry, or throws with the
    page untouched.  A later complete event that [displayResults] renders
    without an exception shows its result and leaves the run completed.  A
    later error event whose message converts to a string - every string
    does - shows that message and leaves the run failed.  An event whose
    dispatch throws ends the stream in the handler's [catch], which leaves
    the run failed under the generic message.  The last terminal event
    decides. *)
Theorem terminal_run_not_reopened (h : Handler) (reads : list ReadOutcome) (p : Page) :
  phase p ≠ Running →
  phase (analyze_stream h reads p).1 ≠ Running
  ∧ (∀ data,
       match dispatch "agent_log" data p with
       | (p', Return _) =>
           ∃ entry, activityLogContent (run p') = activityLogContent (run p) ++ [entry]
       | (p', Throw e) => p' = p
       end)
  ∧ (∀ data,
       match dispatch "complete" data p with
       | (p', Return _) =>
           (∃ q, displayResults data p = (q, Return tt) ∧ result p' = result q)
           ∧ phase p' = Completed ∧ resultsSection (result p') = "block"
       | (p', Throw e) =>
           displayResults data p = (p', Throw e)
           ∧ phase (catch_block e p') = Failed
           ∧ errorMessage (run (catch_block e p'))
             = JSON.Str "An error occurred while processing your request. Please try again."
       end)
  ∧ (∀ data,
       match dispatch "error" data p with
       | (p', Return _) =>
           ∃ message, JSON.get data "message" = Some message
                      ∧ JSON.to_string message ≠ None
                      ∧ phase p' = Failed ∧ errorSection (run p') = "block"
                      ∧ errorMessage (run p') = message
       | (p', Throw e) =>
           p' = p
           ∧ phase (catch_block e p') = Failed
           ∧ errorMessage (run (catch_block e p'))
             = JSON.Str "An error occurred while processing your request. Please try again."
       end)
  ∧ (∀ data message, JSON.get data "message" = Some (JSON.Str message) →
       ∃ p', dispatch "error" data p = (p', Return tt)
             ∧ phase p' = Failed ∧ errorSection (run p') = "block"
             ∧ errorMessage (run p') = JSON.Str message).
Proof.
  intros Hp. split; [|split; [|split; [|split]]].
  - apply phase_not_running, analyze_stream_enabled_kept, phase_not_running, Hp.
  - intros data. unfold dispatch. cbn [String.eqb Ascii.eqb Bool.eqb].
    pose proof (addActivityLog_cases data p) as H.
    destruct (addActivityLog data p) as [p' [[]|e]].
    + destruct H as (entry & _ & ->). by exists entry.
    + by destruct H.
  - intros data. unfold dispatch. cbn [String.eqb Ascii.eqb Bool.eqb].
    destruct (displayResults data p) as [q [[]|e]] eqn:E.
    + erewrite bind_return by exact E.
      pose proof (displayResults_resultsSection data p q _ E) as Hblock.
      cbn. split; [by exists q|]. by split.
    + erewrite bind_throw by exact E. by repeat split.
  - intros data. unfold dispatch. cbn [String.eqb Ascii.eqb Bool.eqb].
    unfold prop. destruct (JSON.get data "message") as [message|]; [|by repeat split].
    erewrite bind_return by reflexivity.
    pose proof (showError_outcome message p) as Hs.
    destruct (JSON.to_string message) as [text|] eqn:Et.
    + erewrite bind_return by exact Hs. cbn. exists message. by rewrite Et.
    + erewrite bind_throw by exact Hs. by repeat split.
  - intros data message Hm. unfold dispatch. cbn [String.eqb Ascii.eqb Bool.eqb].
    erewrite bind_return by (by apply prop_return).
    erewrite bind_return by (by rewrite showError_outcome).
    eexists. split; [reflexivity|]. by repeat split.
Qed.

Lemma terminal_run_not_reopened_witness :
  let failed := (analyze_stream (Reading "") [ReadChunk error_frame] page_running).1 in
  phase failed ≠ Running
  ∧ phase (analyze_stream (Reading "") [ReadChunk complete_frame; ReadDone] failed).1 ≠ Running.
Proof.
  cbv zeta.
  assert (H : phase (analyze_stream (Reading "") [ReadChunk error_frame] page_running).1
              ≠ Running) by (vm_compute; discriminate).
  split; [exact H|].
  exact (proj1 (terminal_run_not_reopened (Reading "") [ReadChunk complete_frame; ReadDone]
                  (analyze_stream (Reading "") [ReadChunk error_frame] page_running).1 H)).
Defined.

End Terminal.

(** ** Frames on the wire: one frame, one segment *)

Section Wire.

Import JS.

Lemma single_line_app a b : single_line (a +:+ b) = single_line a && single_line b.
Proof.
  induction a as [|c a IH]; [done|]. rewrite append_cons. cbn [single_line].
  by rewrite IH, andb_assoc.
Qed.

(** A line put in front of a text goes in front of its first piece. *)
Lemma split_blank_line a s :
  single_line a = true →
  split_blank (a +:+ s) =
    match split_blank s with
    | x :: l => (a +:+ x) :: l
    | [] => [a]
    end.
Proof.
  induction a as [|c a IH]; intros Ha.
  - rewrite append_nil. destruct (split_blank s) eqn:E; [by apply split_blank_nonempty in E|].
    by rewrite append_nil.
  - cbn [single_line] in Ha. apply andb_true_iff in Ha as [Hc Ha].
    specialize (IH Ha). rewrite append_cons.
    assert (Hlf : Ascii.eqb c LF = false).
    { unfold is_line_terminator in Hc. by destruct (Ascii.eqb c LF). }
    destruct (a +:+ s) as [|c2 r] eqn:E.
    + destruct a; [|done]. rewrite append_nil in E. subst s. done.
    + rewrite split_blank_char by (by rewrite Hlf). rewrite IH.
      destruct (split_blank s) eqn:Es; [by apply split_blank_nonempty in Es|].
      by rewrite append_cons.
Qed.

Lemma split_lines_line a s :
  single_line a = true →
  split_lines (a +:+ String LF s) = a :: split_lines s.
Proof.
  induction a as [|c a IH]; intros Ha; [done|].
  cbn [single_line] in Ha. apply andb_true_iff in Ha as [Hc Ha].
  rewrite append_cons. cbn [split_lines].
  apply negb_true_iff in Hc. rewrite Hc, IH by done. done.
Qed.

Lemma split_lines_single a : single_line a = true → split_lines a = [a].
Proof.
  induction a as [|c a IH]; intros Ha; [done|].
  cbn [single_line] in Ha. apply andb_true_iff in Ha as [Hc Ha].
  cbn [split_lines]. apply negb_true_iff in Hc. by rewrite Hc, IH.
Qed.

Lemma strip_prefix_app p s : strip_prefix p (p +:+ s) = Some s.
Proof. by apply strip_prefix_spec. Qed.

Lemma trimEnd_nonempty c r : is_white_space c = false → trimEnd (String c r) ≠ EmptyString.
Proof. intros H. cbn [trimEnd]. rewrite H. by destruct (trimEnd r). Qed.

Lemma split_blank_lf_line a s :
  single_line a = true → a ≠ EmptyString →
  split_blank (String LF (a +:+ s)) = push_front LF (split_blank (a +:+ s)).
Proof.
  intros Ha Hne. destruct a as [|c a]; [done|]. rewrite append_cons.
  cbn [single_line] in Ha. apply andb_true_iff in Ha as [Hc _].
  apply split_blank_char. unfold is_line_terminator in Hc.
  destruct (Ascii.eqb c LF); [done|]. apply andb_false_r.
Qed.

Lemma frame_shape eventType text rest :
  frame eventType text +:+ rest
  = ("event: " +:+ eventType) +:+ String LF (("data: " +:+ text) +:+ blank +:+ rest).
Proof. unfold frame. by rewrite !append_assoc, (append_cons LF), !append_assoc. Qed.

Lemma segment_shape eventType text :
  "event: " +:+ eventType +:+ String LF ("data: " +:+ text)
  = ("event: " +:+ eventType) +:+ String LF ("data: " +:+ text).
Proof. by rewrite append_assoc. Qed.

(** The segment of a frame, and the frame read back from it. *)
Lemma split_blank_frame eventType text rest :
  fits_frame (eventType, text) →
  split_blank (frame eventType text +:+ rest)
  = ("event: " +:+ eventType +:+ String LF ("data: " +:+ text)) :: split_blank rest.
Proof.
  intros (He & _ & Ht & Hne). cbn [fst snd] in *.
  rewrite frame_shape, segment_shape.
  assert (Hev : single_line ("event: " +:+ eventType) = true)
    by (by rewrite single_line_app, He).
  assert (Hda : single_line ("data: " +:+ text) = true)
    by (by rewrite single_line_app, Ht).
  assert (E : split_blank (("data: " +:+ text) +:+ blank +:+ rest)
              = ("data: " +:+ text) :: split_blank rest).
  { rewrite split_blank_line by done.
    unfold blank. rewrite !append_cons, append_nil, split_blank_sep.
    by rewrite append_nil_r. }
  rewrite split_blank_line by done.
  rewrite split_blank_lf_line by done. rewrite E. cbn [push_front].
  reflexivity.
Qed.

Lemma frame_of_frame eventType text :
  fits_frame (eventType, text) →
  frame_of ("event: " +:+ eventType +:+ String LF ("data: " +:+ text))
  = Some (eventType, text).
Proof.
  intros (He & Hene & Ht & Htne). cbn [fst snd] in *. unfold frame_of.
  assert (Hev : single_line ("event: " +:+ eventType) = true)
    by (by rewrite single_line_app, He).
  assert (Hda : single_line ("data: " +:+ text) = true)
    by (by rewrite single_line_app, Ht).
  assert (Htrim : is_empty (trim ("event: " +:+ eventType +:+ String LF ("data: " +:+ text)))
                  = false).
  { unfold trim. rewrite append_cons. cbn [trimStart].
    change (is_white_space "e") with false. cbv iota.
    match goal with
    | |- is_empty (trimEnd (String ?c ?r)) = false =>
        pose proof (trimEnd_nonempty c r eq_refl) as H; by destruct (trimEnd (String c r))
    end. }
  rewrite Htrim. unfold match_field.
  rewrite segment_shape, split_lines_line by done.
  rewrite split_lines_single by done.
  cbn [first_field]. rewrite !strip_prefix_app.
  destruct eventType as [|c e]; [done|]. destruct text as [|d t]; [done|].
  reflexivity.
Qed.

Lemma feed_frames events :
  Forall fits_frame events →
  split_blank (frames events)
  = map (λ e, "event: " +:+ e.1 +:+ String LF ("data: " +:+ e.2)) events ++ [EmptyString].
Proof.
  induction 1 as [|[e t] events He _ IH]; [done|].
  cbn [frames foldr map app fst snd]. rewrite split_blank_frame by done.
  by rewrite <- IH.
Qed.

(** A chunk that is one frame, read with an empty buffer: its event is
    dispatched, under the handler's [catch]. *)
Lemma analyze_read_frame eventType text data p :
  fits_frame (eventType, text) →
  JSON.parse text = Some data →
  analyze_read EmptyString (ReadChunk (frame eventType text)) p
  = try_catch (dispatch eventType data;; mret (Reading EmptyString)) p.
Proof.
  intros Hfit Hparse. unfold analyze_read, read_step. rewrite append_nil.
  rewrite <- (append_nil_r (frame eventType text)).
  rewrite split_blank_frame by done.
  change (split_blank EmptyString) with [EmptyString].
  cbn [pop removelast List.last forEach].
  unfold process_line. rewrite frame_of_frame by done. rewrite Hparse.
  unfold try_catch, mbind, M_bind, mret, M_ret.
  by destruct (dispatch eventType data p) as [q [[]|e]].
Qed.

End Wire.

(** ** Events of an earlier stream *)

Section Stale.

(** C2, counterexample. In [session_second_run] the second run is in flight
    and has received
    nothing; the stream of the first run then delivers a status event.
    The event is not dropped: it marks planning done on the stepper of the
    current run.  An error event delivered the same way fails the current
    run. *)
Lemma stale_event_reaches_current_run :
  let s := session_second_run in
  let s' := step (Read 0 (ReadChunk planning_done_frame)) s in
  handlers s = [Reading ""; Reading ""]
  ∧ phase (page s) = Running
  ∧ stage_map (page s)
    = [("planning", Some Pending); ("searching", Some Pending);
       ("writing", Some Pending); ("verifying", Some Pending)]
  ∧ stage_map (page s')
    = [("planning", Some Done); ("searching", Some Pending);
       ("writing", Some Pending); ("verifying", Some Pending)]
  ∧ page s' ≠ page s
  ∧ phase (page (step (Read 0 (ReadChunk error_frame)) s)) = Failed.
Proof.
  cbv zeta. split; [vm_compute; reflexivity|]. split; [vm_compute; reflexivity|].
  assert (H1 : stage_map (page session_second_run)
               = [("planning", Some Pending); ("searching", Some Pending);
                  ("writing", Some Pending); ("verifying", Some Pending)])
    by (vm_compute; reflexivity).
  assert (H2 : stage_map (page (step (Read 0 (ReadChunk planning_done_frame))
                                  session_second_run))
               = [("planning", Some Done); ("searching", Some Pending);
                  ("writing", Some Pending); ("verifying", Some Pending)])
    by (vm_compute; reflexivity).
  split; [exact H1|]. split; [exact H2|]. split; [|vm_compute; reflexivity].
  intros E. rewrite E, H1 in H2. clear E. discriminate H2.
Qed.

(** C2, amended. The handler has no generation guard: an event read from
    the stream of an earlier submit is dispatched against the page as it
    is now, like an event of the current run.  Whichever handler of the
    session reads the frame of an event - the latest or an earlier one,
    with nothing in its buffer, the frame in one chunk - the page after
    is the page the dispatch of the event leaves, or, when the dispatch
    throws, what the [catch] makes of it, and that stream is finished.
    So a status event for a stage that has a step marks that
    step, a log event with a string agent and fields that convert to
    strings appends its entry, a complete event that renders shows its
    result and re-enables the button under "Analyze New Query", an error
    event with a string message shows it and re-enables the button under
    "Try Again" - on the page of the current run.  What keeps runs apart
    is only the submit control: while it is disabled, a click starts
    nothing. *)
Theorem stale_event_dispatched (s : Session) (i : nat) (eventType text : string)
    (data : JSON.value) :
  handlers s !! i = Some (Reading EmptyString) →
  fits_frame (eventType, text) →
  JSON.parse text = Some data →
  let s' := step (Read i (ReadChunk (frame eventType text))) s in
  match dispatch eventType data (page s) with
  | (q, Return _) => page s' = q ∧ handlers s' !! i = Some (Reading EmptyString)
  | (q, Throw e) => page s' = catch_block e q ∧ handlers s' !! i = Some Finished
  end
  ∧ (∀ stage isDone name c,
       eventType = "status" →
       JSON.get data "stage" = Some stage → JSON.get data "done" = Some isDone →
       JSON.to_string stage = Some name →
       steps (run (page s)) !! ("step-" +:+ name) = Some c →
       steps (run (page s'))
       = <["step-" +:+ name :=
             if JSON.truthy isDone then {| active := false; completed := true |}
             else {| active := true; completed := completed c |}]> (steps (run (page s))))
  ∧ (∀ entry,
       eventType = "agent_log" → loggable data entry →
       activityLogContent (run (page s')) = activityLogContent (run (page s)) ++ [entry])
  ∧ (∀ q,
       eventType = "complete" → displayResults data (page s) = (q, Return tt) →
       result (page s') = result q ∧ resultsSection (result (page s')) = "block"
       ∧ phase (page s') = Completed)
  ∧ (∀ message,
       eventType = "error" → JSON.get data "message" = Some (JSON.Str message) →
       errorMessage (run (page s')) = JSON.Str message
       ∧ errorSection (run (page s')) = "block"
       ∧ phase (page s') = Failed)
  ∧ (analyzeBtn_disabled (run (page s)) = true → step Click s = s).
Proof.
  intros Hi Hfit Hparse. cbv zeta.
  assert (Hlt : i < length (handlers s)) by (by apply lookup_lt_Some in Hi).
  assert (E : step (Read i (ReadChunk (frame eventType text))) s
              = let '(q, h) := try_catch (dispatch eventType data;; mret (Reading EmptyString))
                                 (page s) in
                {| page := q; handlers := <[i := h]> (handlers s); sent := sent s |}).
  { unfold step. rewrite Hi. by rewrite (analyze_read_frame eventType text data). }
  rewrite E. clear E. unfold try_catch.
  split; [|split; [|split; [|split; [|split]]]].
  - destruct (dispatch eventType data (page s)) as [q [[]|e]] eqn:Ed.
    + erewrite bind_return by exact Ed. cbn. split; [done|].
      by apply list_lookup_insert_eq.
    + erewrite bind_throw by exact Ed. cbn. split; [done|].
      by apply list_lookup_insert_eq.
  - intros stage isDone name c -> Hs Hd Hn Hc.
    erewrite bind_return by (by eapply dispatch_status).
    cbn. by apply mark_step_spec.
  - intros entry -> Hl.
    erewrite bind_return by (by eapply addActivityLog_returns). reflexivity.
  - intros q -> Hq.
    erewrite bind_return
      by (unfold dispatch; cbn [String.eqb Ascii.eqb Bool.eqb];
          erewrite bind_return by exact Hq; reflexivity).
    cbn. split; [done|]. split; [|done].
    apply (displayResults_resultsSection data (page s) q _ Hq).
  - intros message -> Hm.
    erewrite bind_return
      by (unfold dispatch; cbn [String.eqb Ascii.eqb Bool.eqb];
          erewrite bind_return by (by apply prop_return);
          erewrite bind_return by (by rewrite showError_outcome); reflexivity).
    by repeat split.
  - intros Hdis. unfold step. by rewrite Hdis.
Qed.

Lemma stale_event_dispatched_witness :
  let s := session_second_run in
  let text := JSON.text "{'stage': 'planning', 'done': true}" in
  let data := JSON.Object [("stage", JSON.Str "planning"); ("done", JSON.Bool true)] in
  let s' := step (Read 0 (ReadChunk (frame "status" text))) s in
  handlers s = [Reading EmptyString; Reading EmptyString]
  ∧ fits_frame ("status", text)
  ∧ JSON.parse text = Some data
  ∧ steps (run (page s'))
    = <["step-planning" := {| active := false; completed := true |}]> (steps (run (page s))).
Proof.
  cbv zeta.
  assert (Hh : handlers session_second_run = [Reading EmptyString; Reading EmptyString])
    by (vm_compute; reflexivity).
  assert (Hfit : fits_frame ("status", JSON.text "{'stage': 'planning', 'done': true}")).
  { repeat split; try (vm_compute; reflexivity); discriminate. }
  assert (Hparse : JSON.parse (JSON.text "{'stage': 'planning', 'done': true}")
                   = Some (JSON.Object [("stage", JSON.Str "planning");
                                        ("done", JSON.Bool true)]))
    by (vm_compute; reflexivity).
  assert (Hi : handlers session_second_run !! 0 = Some (Reading EmptyString))
    by (by rewrite Hh).
  split; [exact Hh|]. split; [exact Hfit|]. split; [exact Hparse|].
  destruct (stale_event_dispatched session_second_run 0 "status" _ _ Hi Hfit Hparse)
    as (_ & Hstatus & _).
  cbv zeta in Hstatus.
  apply (Hstatus (JSON.Str "planning") (JSON.Bool true) "planning"
           {| active := false; completed := false |} eq_refl eq_refl eq_refl eq_refl).
  vm_compute. reflexivity.
Defined.

End Stale.

(** ** The side-channel loaders *)

Section Loaders.












End Loaders.

(** * Further properties *)

(** ** Segments and separators *)

Section Segments.

Import JS.

Lemma push_front_length c l : l ≠ [] → length (push_front c l) = length l.
Proof. by destruct l. Qed.

(** The first piece is a prefix of the text. *)
Lemma split_blank_head s x l : split_blank s = x :: l → ∃ t, s = x +:+ t.
Proof.
  intros H. exists (match l with [] => EmptyString | _ => blank +:+
    foldr (λ line acc, line +:+ blank +:+ acc) EmptyString (removelast l)
    +:+ List.last l EmptyString end).
  pose proof (complete_part_last s) as Hc. unfold complete_part in Hc. rewrite H in Hc.
  destruct l as [|y l]; cbn [removelast List.last foldr] in Hc.
  - rewrite append_nil in Hc. by rewrite append_nil_r.
  - rewrite <- Hc at 1. cbn [foldr]. by rewrite !append_assoc.
Qed.

(** A text with a separator splits in two pieces at least. *)
Lemma split_blank_occurs s : occurs_in blank s → 2 ≤ length (split_blank s).
Proof.
  induction s as [| |r IH|c c' r E IH] using split_blank_ind.
  - intros (before & after & H). destruct before; discriminate H.
  - intros (before & after & H). destruct before as [|b [|]]; discriminate H.
  - intros _. rewrite split_blank_sep. cbn [length].
    pose proof (split_blank_nonempty r). destruct (split_blank r); [done|cbn; lia].
  - intros (before & after & H). rewrite split_blank_char by done.
    rewrite push_front_length by apply split_blank_nonempty. apply IH.
    destruct before as [|b before].
    + rewrite append_nil in H. injection H as -> ->. by rewrite !Ascii.eqb_refl in E.
    + rewrite append_cons in H. injection H as -> H. by exists before, after.
Qed.

Lemma no_separator_occurs s : no_separator s ↔ ¬ occurs_in blank s.
Proof.
  unfold no_separator. split.
  - intros H Ho. apply split_blank_occurs in Ho. rewrite H in Ho. cbn in Ho. lia.
  - induction s as [| |r IH|c c' r E IH] using split_blank_ind; try done.
    + intros H. destruct H. by exists EmptyString, r.
    + intros H. rewrite split_blank_char by done. rewrite IH; [done|].
      intros (before & after & Ho). apply H. exists (String c before), after.
      by rewrite append_cons, Ho.
Qed.

(** No piece of a split holds a separator. *)
Lemma split_blank_pieces s : Forall no_separator (split_blank s).
Proof.
  induction s as [| |r IH|c c' r E IH] using split_blank_ind.
  - by repeat constructor.
  - by repeat constructor.
  - rewrite split_blank_sep. by constructor.
  - rewrite split_blank_char by done.
    destruct (split_blank (String c' r)) as [|x l] eqn:Es;
      [by apply split_blank_nonempty in Es|].
    apply Forall_cons in IH as [Hx Hl]. cbn [push_front]. constructor; [|done].
    unfold no_separator in *. destruct x as [|c2 x]; [done|].
    apply split_blank_head in Es as [t Ht]. rewrite append_cons in Ht.
    injection Ht as <- _. rewrite split_blank_char by done. by rewrite Hx.
Qed.

(** X1. What the decode loop holds and hands on is free of the separator:
    after any sequence of chunks, neither the buffer nor any segment passed
    to the loop body contains a blank line. *)
Theorem decoder_pieces_hold_no_separator (chunks : list string) :
  ¬ occurs_in blank (final_buffer EmptyString chunks)
  ∧ Forall (λ line, ¬ occurs_in blank line) (feed EmptyString chunks).
Proof.
  pose proof (feed_body EmptyString chunks no_separator_empty) as [Hf Hb].
  rewrite Hf, Hb. pose proof (split_blank_pieces (EmptyString +:+ body_of chunks)) as H.
  split.
  - apply no_separator_occurs. apply no_separator_last.
  - eapply Forall_impl; [|intros x Hx; apply no_separator_occurs, Hx].
    pose proof (split_blank_nonempty (EmptyString +:+ body_of chunks)) as Hne.
    rewrite (app_removelast_last EmptyString Hne) in H.
    by apply Forall_app in H as [H _].
Qed.

(** X2. No blank line, no event: as long as the text received holds no
    two consecutive line feeds - a stream with CR LF line ends, say - the
    handler dispatches nothing, leaves the page as it was and keeps all
    the text in its buffer. *)
Theorem no_blank_line_no_event (chunks : list string) (p : Page) :
  ¬ occurs_in blank (body_of chunks) →
  decoded chunks = []
  ∧ analyze_stream (Reading EmptyString) (map ReadChunk chunks) p
    = (p, Reading (body_of chunks)).
Proof.
  intros H%no_separator_occurs.
  pose proof (feed_body EmptyString chunks no_separator_empty) as [Hf Hb].
  rewrite append_nil in Hf, Hb. rewrite H in Hf, Hb. cbn in Hf, Hb.
  split; [unfold decoded; by rewrite Hf|].
  rewrite analyze_stream_feed, Hf, Hb. reflexivity.
Qed.

Lemma no_blank_line_no_event_witness :
  let crlf := String CR (String LF EmptyString) in
  let chunks := ["event: status" +:+ crlf +:+ "data: {}" +:+ crlf; crlf +:+ "event: error"] in
  ¬ occurs_in blank (body_of chunks)
  ∧ decoded chunks = []
  ∧ analyze_stream (Reading EmptyString) (map ReadChunk chunks) page_running
    = (page_running, Reading (body_of chunks)).
Proof.
  cbv zeta.
  assert (H : ¬ occurs_in blank
                (body_of ["event: status" +:+ String CR (String LF EmptyString)
                            +:+ "data: {}" +:+ String CR (String LF EmptyString);
                          String CR (String LF EmptyString) +:+ "event: error"])).
  { apply no_separator_occurs. vm_compute. reflexivity. }
  split; [exact H|]. apply (no_blank_line_no_event _ page_running H).
Defined.

End Segments.

(** ** Frames on the wire *)

Section Frames.

Import JS.

(** X3. Frames written one after the other are read back as they were
    written: for event types and data texts that fit on a line, the
    decoder yields, however the text is cut into chunks, one record per
    frame, in order, with the type of the frame and [JSON.parse] of its
    data; nothing is left in the buffer. *)
Theorem frames_decode_in_order (events : list (string * string)) (chunks : list string) :
  Forall fits_frame events →
  body_of chunks = frames events →
  decoded chunks = map (λ e, (e.1, JSON.parse e.2)) events
  ∧ final_buffer EmptyString chunks = EmptyString.
Proof.
  intros Hfit Hbody.
  pose proof (feed_body EmptyString chunks no_separator_empty) as [Hf Hb].
  rewrite append_nil, Hbody, feed_frames in Hf, Hb by done.
  rewrite removelast_last in Hf. rewrite last_last in Hb. split; [|done].
  unfold decoded. rewrite Hf. clear Hf Hb Hbody.
  induction Hfit as [|[e t] events He _ IH]; [done|].
  cbn [map omap list_omap fst snd]. unfold event_record at 1.
  rewrite frame_of_frame by done. cbn. by rewrite IH.
Qed.

Lemma frames_decode_in_order_witness :
  let events := [("status", JSON.text "{'stage': 'planning', 'done': true}");
                 ("error", JSON.text "{'message': 'Research failed'}")] in
  let chunks := ["event: sta"; "tus" +:+ String LF "data: "
                  +:+ JSON.text "{'stage': 'planning', 'done': true}" +:+ String LF "";
                 String LF "" +:+ error_frame] in
  Forall fits_frame events
  ∧ body_of chunks = frames events
  ∧ decoded chunks = map (λ e, (e.1, JSON.parse e.2)) events.
Proof.
  cbv zeta.
  assert (H : Forall fits_frame
                [("status", JSON.text "{'stage': 'planning', 'done': true}");
                 ("error", JSON.text "{'message': 'Research failed'}")]).
  { repeat constructor; done. }
  split; [exact H|]. split; [vm_compute; reflexivity|].
  refine (proj1 (frames_decode_in_order _ _ H _)). vm_compute. reflexivity.
Defined.

End Frames.

(** ** The dispatcher *)

Section Dispatcher.

Lemma dispatch_unknown eventType data p :
  eventType ∉ known_events → dispatch eventType data p = (p, Return tt).
Proof.
  intros H. unfold dispatch.
  destruct (String.eqb eventType "status") eqn:E1;
    [apply String.eqb_eq in E1 as ->; destruct H; set_solver|].
  destruct (String.eqb eventType "agent_log") eqn:E2;
    [apply String.eqb_eq in E2 as ->; destruct H; set_solver|].
  destruct (String.eqb eventType "complete") eqn:E3;
    [apply String.eqb_eq in E3 as ->; destruct H; set_solver|].
  destruct (String.eqb eventType "error") eqn:E4;
    [apply String.eqb_eq in E4 as ->; destruct H; set_solver|].
  reflexivity.
Qed.

(** X4. A frame of an event type the dispatcher does not know is ignored
    only if its data parses: [JSON.parse] runs before the type is looked
    at, so the page stays as it was and the loop goes on when the data is
    JSON, and the handler throws the [SyntaxError] when it is not.  The
    type is compared as written: a known type with other letter case or a
    trailing space is unknown. *)
Theorem unknown_event_needs_json (line eventType text : string) (p : Page) :
  frame_of line = Some (eventType, text) →
  eventType ∉ known_events →
  process_line line p
  = (p, match JSON.parse text with
        | Some _ => Return tt
        | None => Throw SyntaxError
        end).
Proof.
  intros Hf Hu. unfold process_line. rewrite Hf.
  destruct (JSON.parse text); [by apply dispatch_unknown|done].
Qed.

Lemma unknown_event_needs_json_witness :
  let line := "event: Status" +:+ String JS.LF "data: {oops" in
  frame_of line = Some ("Status", "{oops")
  ∧ ("Status" ∉ known_events)
  ∧ process_line line page_running = (page_running, Throw SyntaxError).
Proof.
  cbv zeta.
  assert (Hf : frame_of ("event: Status" +:+ String JS.LF "data: {oops")
               = Some ("Status", "{oops")) by (vm_compute; reflexivity).
  assert (Hu : "Status" ∉ known_events).
  { intros H. unfold known_events in H.
    repeat (apply elem_of_cons in H as [H|H]; [discriminate H|]).
    by apply elem_of_nil in H. }
  split; [exact Hf|]. split; [exact Hu|].
  apply (unknown_event_needs_json _ "Status" "{oops" page_running Hf Hu).
Defined.

#[global] Instance log_extended_preorder : PreOrder log_extended.
Proof.
  split; [intros p; unfold log_extended; reflexivity|].
  intros p q r H1 H2. unfold log_extended in *. by etransitivity.
Qed.

Lemma same_log_extended p p' :
  activityLogContent (run p') = activityLogContent (run p) → log_extended p p'.
Proof. intros E. unfold log_extended. by rewrite E. Qed.

Lemma mark_step_same_log id isDone p :
  activityLogContent (run (mark_step id isDone p)) = activityLogContent (run p).
Proof. unfold mark_step. by repeat case_match. Qed.

Lemma dispatch_log_extended eventType data : preserves log_extended (dispatch eventType data).
Proof.
  unfold dispatch, addActivityLog, displayResults, extractCompanyName, markdownToHtml.
  preserves_all ltac:(first [ by apply same_log_extended
                            | apply same_log_extended, mark_step_same_log
                            | by apply prefix_app_r ]).
Qed.

Lemma process_line_log_extended line : preserves log_extended (process_line line).
Proof.
  unfold process_line. destruct (frame_of line) as [[eventType text]|]; [|preserves_step].
  destruct (JSON.parse text); [apply dispatch_log_extended|preserves_step].
Qed.

Lemma analyze_read_log_extended buffer r p : log_extended p (analyze_read buffer r p).1.
Proof.
  apply (try_catch_preserves _); [|intros; by apply same_log_extended].
  destruct r as [|value|]; cbn [read_step]; [preserves_step| |preserves_step].
  destruct (JS.pop _) as [lines buffer'].
  preserves_all ltac:(apply process_line_log_extended).
Qed.

(** X5. The activity log is append-only while a stream is read: whatever
    the handler reads - any events, in any order, frames that make it
    throw - the entries logged before are still there, in their order, at
    the head of the log. *)
Theorem log_is_append_only (h : Handler) (reads : list ReadOutcome) (p : Page) :
  activityLogContent (run p) `prefix_of` activityLogContent (run (analyze_stream h reads p).1).
Proof.
  change (log_extended p (analyze_stream h reads p).1).
  revert h p. induction reads as [|r reads IH]; intros h p; [reflexivity|].
  cbn [analyze_stream]. destruct h; try reflexivity.
  pose proof (analyze_read_log_extended buffer r p) as H.
  destruct (analyze_read buffer r p) as [p' h']. etransitivity; [exact H|apply IH].
Qed.

(** X6. [addActivityLog] is all or nothing.  It returns exactly when
    [data.agent] is a string and the timestamp, the action and - if they
    are truthy - the details convert to strings, which an object with a
    member [toString] does not; it has then appended one entry - the
    agent, its class [agent-<agent lowercased>], timestamp and action, and
    the details if they are truthy - and changed nothing else on the page.
    Otherwise it throws a [TypeError] before touching the page. *)
Theorem addActivityLog_all_or_nothing (data : JSON.value) (p : Page) :
  match addActivityLog data p with
  | (p', Return _) =>
      ∃ timestamp agent details action,
        JSON.get data "timestamp" = Some timestamp ∧ JSON.to_string timestamp ≠ None
        ∧ JSON.get data "agent" = Some (JSON.Str agent)
        ∧ JSON.get data "details" = Some details
        ∧ (JSON.truthy details = true → JSON.to_string details ≠ None)
        ∧ JSON.get data "action" = Some action ∧ JSON.to_string action ≠ None
        ∧ p' = on_run (set_activityLogContent
                         (activityLogContent (run p)
                          ++ [{| log_timestamp := timestamp;
                                 log_agentClass := "agent-" +:+ JS.toLowerCase agent;
                                 log_agent := agent;
                                 log_action := action;
                                 log_details := if JSON.truthy details
                                                then Some details else None |}])) p
  | (p', Throw e) =>
      p' = p ∧ e = TypeError
      ∧ ¬ ∃ timestamp agent details action,
            JSON.get data "timestamp" = Some timestamp ∧ JSON.to_string timestamp ≠ None
            ∧ JSON.get data "agent" = Some (JSON.Str agent)
            ∧ JSON.get data "details" = Some details
            ∧ (JSON.truthy details = true → JSON.to_string details ≠ None)
            ∧ JSON.get data "action" = Some action ∧ JSON.to_string action ≠ None
  end.
Proof.
  pose proof (addActivityLog_cases data p) as H.
  destruct (addActivityLog data p) as [p' [[]|e]].
  - destruct H as (entry & (timestamp & agent & details & action
                            & H1 & H2 & H3 & H4 & H5 & H6 & H7 & ->) & ->).
    exists timestamp, agent, details, action. by repeat split.
  - destruct H as (-> & -> & Hno). split; [done|]. split; [done|].
    intros (timestamp & agent & details & action & H1 & H2 & H3 & H4 & H5 & H6 & H7).
    eapply Hno. exists timestamp, agent, details, action. by repeat split.
Qed.

End Dispatcher.

(** ** Runs from submit to end of stream *)

Section Runs.

Lemma run_eq (r r' : RunRegions) :
  progressSection r = progressSection r' → activitySection r = activitySection r' →
  errorSection r = errorSection r' → errorMessage r = errorMessage r' →
  activityLogContent r = activityLogContent r' → steps r = steps r' →
  analyzeBtn_disabled r = analyzeBtn_disabled r' →
  analyzeBtn_textContent r = analyzeBtn_textContent r' → r = r'.
Proof. destruct r, r'. cbn. by intros -> -> -> -> -> -> -> ->. Qed.

Lemma page_eq (p p' : Page) :
  run p = run p' → result p = result p' → side p = side p' →
  console p = console p' → queryInput_value p = queryInput_value p' → p = p'.
Proof. destruct p, p'. cbn. by intros -> -> -> -> ->. Qed.

Lemma step_id_inj a b : "step-" +:+ a = "step-" +:+ b → a = b.
Proof. intros H. by injection H. Qed.

Lemma elem_of_map {A B : Type} (f : A → B) (l : list A) (x : A) :
  x ∈ l → f x ∈ map f l.
Proof.
  induction l as [|a l IH]; [by intros ?%elem_of_nil|].
  intros [->|H]%elem_of_cons; cbn [map]; apply elem_of_cons; auto.
Qed.

Lemma reset_step_lookup stage m id :
  reset_step stage m !! id
  = if decide (id = "step-" +:+ stage)
    then (λ _, {| active := false; completed := false |}) <$> m !! id
    else m !! id.
Proof.
  unfold reset_step. case_decide as E.
  - subst id. destruct (m !! ("step-" +:+ stage)) eqn:El.
    + by rewrite lookup_insert_eq.
    + by rewrite El.
  - destruct (m !! ("step-" +:+ stage)); [|done]. by rewrite lookup_insert_ne.
Qed.

Lemma reset_steps_lookup names m id :
  foldl (λ m stage, reset_step stage m) m names !! id
  = if decide (id ∈ map (String.append "step-") names)
    then (λ _, {| active := false; completed := false |}) <$> m !! id
    else m !! id.
Proof.
  revert m. induction names as [|stage names IH]; intros m.
  - cbn. case_decide as E; [by apply elem_of_nil in E|done].
  - cbn [foldl map]. rewrite IH, reset_step_lookup.
    destruct (decide (id ∈ map (String.append "step-") names)) as [D1|D1];
      destruct (decide (id = "step-" +:+ stage)) as [D2|D2].
    + rewrite decide_True by (apply elem_of_cons; by left). by destruct (m !! id).
    + rewrite decide_True by (apply elem_of_cons; by right). done.
    + rewrite decide_True by (apply elem_of_cons; by left). done.
    + rewrite decide_False; [done|]. by intros [?|?]%elem_of_cons.
Qed.

(** X7. [resetUI] clears for a new run and is idempotent.  It empties the
    log, hides the progress, activity, results and error sections, enables
    the button under "Analyze", drops the chart instance, and takes both
    classes off the four stage steps that exist; it creates no step,
    touches no other step, and leaves the rendered result, the error text,
    the canvas, the history sidebar, the console and the query as they
    were.  A second reset changes nothing. *)
Theorem resetUI_clears_and_is_idempotent (p : Page) :
  resetUI (resetUI p) = resetUI p
  ∧ activityLogContent (run (resetUI p)) = []
  ∧ progressSection (run (resetUI p)) = "none"
  ∧ activitySection (run (resetUI p)) = "none"
  ∧ errorSection (run (resetUI p)) = "none"
  ∧ resultsSection (result (resetUI p)) = "none"
  ∧ analyzeBtn_disabled (run (resetUI p)) = false
  ∧ analyzeBtn_textContent (run (resetUI p)) = "Analyze"
  ∧ phase (resetUI p) = Idle
  ∧ stockChartInstance (side (resetUI p)) = None
  ∧ set_stockChartInstance None (side (resetUI p)) = set_stockChartInstance None (side p)
  ∧ (∀ id, steps (run (resetUI p)) !! id
           = if decide (id ∈ map (String.append "step-") stages)
             then (λ _, {| active := false; completed := false |}) <$> steps (run p) !! id
             else steps (run p) !! id)
  ∧ set_resultsSection "none" (result (resetUI p)) = set_resultsSection "none" (result p)
  ∧ errorMessage (run (resetUI p)) = errorMessage (run p)
  ∧ console (resetUI p) = console p
  ∧ queryInput_value (resetUI p) = queryInput_value p.
Proof.
  assert (Hsteps : ∀ q id, steps (run (resetUI q)) !! id
           = if decide (id ∈ map (String.append "step-") stages)
             then (λ _, {| active := false; completed := false |}) <$> steps (run q) !! id
             else steps (run q) !! id).
  { intros q id. apply reset_steps_lookup. }
  split; [|do 10 (split; [reflexivity|]); split; [exact (Hsteps p)|];
           repeat split; reflexivity].
  assert (E : steps (run (resetUI (resetUI p))) = steps (run (resetUI p))).
  { apply map_eq. intros id. rewrite !Hsteps. case_decide; [|done].
    by destruct (steps (run p) !! id). }
  apply page_eq; try reflexivity.
  apply run_eq; try reflexivity. exact E.
Qed.

(** X8. A submit with a query that is not blank starts a run from a clean
    slate, whatever the page showed: the research request goes out with
    the trimmed query, preceded by the chart request for the same query
    when the page has a canvas; the button is disabled under
    "Analyzing...", progress and activity are shown, results and error
    hidden, the log empty, and every stage step that exists is pending. *)
Theorem submit_starts_clean_run (p : Page) :
  JS.trim (queryInput_value p) ≠ EmptyString →
  let query := JS.trim (queryInput_value p) in
  let '(p', requests, h) := analyze_click p in
  h = AwaitingResponse
  ∧ requests = match stockChart (side p) with
               | Some _ => [GetChart query; PostResearch query]
               | None => [PostResearch query]
               end
  ∧ phase p' = Running
  ∧ analyzeBtn_textContent (run p') = "Analyzing..."
  ∧ progressSection (run p') = "block" ∧ activitySection (run p') = "block"
  ∧ resultsSection (result p') = "none" ∧ errorSection (run p') = "none"
  ∧ activityLogContent (run p') = []
  ∧ stockChartInstance (side p') = None
  ∧ (∀ stage c, stage ∈ stages → steps (run p') !! ("step-" +:+ stage) = Some c →
                stage_status c = Pending)
  ∧ dom (steps (run p')) = dom (steps (run p)).
Proof.
  intros Hq. cbv zeta. unfold analyze_click.
  destruct (JS.trim (queryInput_value p)) as [|c q] eqn:E; [done|].
  cbn [JS.is_empty]. unfold loadChart.
  assert (Hc : stockChart (side (resetUI p)) = stockChart (side p)) by reflexivity.
  rewrite Hc.
  assert (Hsteps : ∀ id, steps (run (resetUI p)) !! id
           = if decide (id ∈ map (String.append "step-") stages)
             then (λ _, {| active := false; completed := false |}) <$> steps (run p) !! id
             else steps (run p) !! id).
  { intros id. apply reset_steps_lookup. }
  assert (Hpending : ∀ stage c, stage ∈ stages →
            steps (run (resetUI p)) !! ("step-" +:+ stage) = Some c →
            stage_status c = Pending).
  { intros stage c0 Hs. rewrite Hsteps.
    rewrite decide_True by (by apply elem_of_map).
    destruct (steps (run p) !! ("step-" +:+ stage)); [|done]. by intros [= <-]. }
  assert (Hdom : dom (steps (run (resetUI p))) = dom (steps (run p))).
  { apply set_eq. intros id. rewrite !elem_of_dom, Hsteps.
    case_decide; [|done]. by rewrite fmap_is_Some. }
  destruct (stockChart (side p)); cbv beta iota zeta; repeat split; try reflexivity;
    first [exact Hpending | exact Hdom].
Qed.

Lemma submit_starts_clean_run_witness :
  let p := set_queryInput_value "  Is Amazon a good investment? "
             (analyze_stream (Reading "") [ReadChunk (error_frame +:+ planning_done_frame)]
                page_running).1 in
  JS.trim (queryInput_value p) ≠ EmptyString
  ∧ (analyze_click p).1.2
    = [GetChart "Is Amazon a good investment?"; PostResearch "Is Amazon a good investment?"]
  ∧ phase (analyze_click p).1.1 = Running.
Proof.
  cbv zeta.
  set (p := set_queryInput_value "  Is Amazon a good investment? "
             (analyze_stream (Reading "") [ReadChunk (error_frame +:+ planning_done_frame)]
                page_running).1).
  assert (Hq : JS.trim (queryInput_value p) ≠ EmptyString) by (vm_compute; discriminate).
  split; [exact Hq|].
  pose proof (submit_starts_clean_run p Hq) as H. cbv zeta in H.
  destruct (analyze_click p) as [[p' requests] h].
  destruct H as (_ & Hr & Hp & _). cbn [fst snd]. split; [|exact Hp].
  rewrite Hr. vm_compute. reflexivity.
Defined.

(** X9. Every failure of the transport fails the run and nothing else: a
    rejected request, a response that is not a success, a rejected read
    in the middle of the stream all end the handler in its [catch], with
    the error logged, the generic message in the banner and the button
    enabled under "Try Again"; stepper, log and rendered result stay as
    they were, no request is sent, and the handler is finished: whatever
    its stream delivers afterwards changes nothing. *)
Theorem transport_failure_fails_run (s : Session) (i : nat) (a : Action) (e : exn) :
  TransportFails s i a e →
  let s' := step a s in
  page s' = catch_block e (page s)
  ∧ handlers s' !! i = Some Finished
  ∧ sent s' = sent s
  ∧ phase (page s') = Failed
  ∧ errorSection (run (page s')) = "block"
  ∧ errorMessage (run (page s'))
    = JSON.Str "An error occurred while processing your request. Please try again."
  ∧ console (page s')
    = console (page s) ++ [{| level := LevelError; label := "Error:"; arg := Some (ArgExn e) |}]
  ∧ steps (run (page s')) = steps (run (page s))
  ∧ activityLogContent (run (page s')) = activityLogContent (run (page s))
  ∧ result (page s') = result (page s)
  ∧ (∀ r, step (Read i r) s' = s') ∧ (∀ r, step (Respond i r) s' = s').
Proof.
  intros H. cbv zeta.
  assert (Hlt : i < length (handlers s)).
  { destruct H as [H|H|b H]; by apply lookup_lt_Some in H. }
  assert (E : step a s = {| page := catch_block e (page s);
                            handlers := <[i := Finished]> (handlers s);
                            sent := sent s |}).
  { destruct H as [H|H|b H]; unfold step; by rewrite H. }
  rewrite E. cbn [page handlers sent].
  assert (Hi : <[i := Finished]> (handlers s) !! i = Some Finished)
    by (by apply list_lookup_insert_eq).
  split; [done|]. split; [exact Hi|]. do 8 (split; [reflexivity|]).
  split; intros r; unfold step; cbn [handlers]; by rewrite Hi.
Qed.

Lemma transport_failure_fails_run_witness :
  let s := step Click session_start in
  TransportFails s 0 (Respond 0 (FetchResponse false)) (Error "Failed to start research")
  ∧ phase (page (step (Respond 0 (FetchResponse false)) s)) = Failed
  ∧ handlers (step (Respond 0 (FetchResponse false)) s) !! 0 = Some Finished.
Proof.
  cbv zeta.
  assert (H : TransportFails (step Click session_start) 0
                (Respond 0 (FetchResponse false)) (Error "Failed to start research")).
  { apply RequestRefused. vm_compute. reflexivity. }
  split; [exact H|].
  pose proof (transport_failure_fails_run _ _ _ _ H) as (_ & Hh & _ & Hp & _).
  split; [exact Hp|exact Hh].
Defined.

Lemma mark_step_disabled_kept id isDone p :
  kept disabled p (mark_step id isDone p).
Proof. unfold mark_step. intros H. by repeat case_match. Qed.

Lemma dispatch_disabled_kept eventType data :
  eventType ≠ "complete" → eventType ≠ "error" →
  preserves (kept disabled) (dispatch eventType data).
Proof.
  intros Hc He. unfold dispatch.
  destruct (String.eqb eventType "status");
    [preserves_all ltac:(apply mark_step_disabled_kept)|].
  destruct (String.eqb eventType "agent_log");
    [unfold addActivityLog; preserves_all ltac:(by intros ?)|].
  destruct (String.eqb eventType "complete") eqn:E1; [by apply String.eqb_eq in E1|].
  destruct (String.eqb eventType "error") eqn:E2; [by apply String.eqb_eq in E2|].
  preserves_step.
Qed.

Lemma forEach_lines_disabled_kept lines :
  Forall (λ r : string * option JSON.value, r.1 ≠ "complete" ∧ r.1 ≠ "error")
    (omap event_record lines) →
  preserves (kept disabled) (forEach lines process_line).
Proof.
  induction lines as [|line lines IH]; intros H; [preserves_step|].
  cbn [forEach]. cbn [omap list_omap] in H. unfold event_record at 1 in H.
  apply preserves_bind; [apply _| |intros _].
  - unfold process_line. destruct (frame_of line) as [[eventType text]|]; [|preserves_step].
    apply Forall_cons in H as [[Hc He] _]. cbn [fst] in *.
    destruct (JSON.parse text); [by apply dispatch_disabled_kept|preserves_step].
  - apply IH. destruct (frame_of line) as [[eventType text]|]; [|done].
    by apply Forall_cons in H as [_ H].
Qed.

(** X10. Only a terminal event or an exception gives the button back: a
    stream that carries no complete and no error event, read to its end
    while the button is disabled, ends with the handler finished.  If no
    frame made the loop throw, the page is what the dispatch of the frames
    left, and the run is in flight for good: the button is still
    disabled.  If a frame made it throw, the page is what the [catch]
    makes of the page at the throw, and the run is failed. *)
Theorem stream_without_terminal_event (chunks : list string) (p : Page) :
  phase p = Running →
  Forall (λ r : string * option JSON.value, r.1 ≠ "complete" ∧ r.1 ≠ "error")
    (decoded chunks) →
  let '(p', h) := analyze_stream (Reading EmptyString)
                    (map ReadChunk chunks ++ [ReadDone]) p in
  h = Finished
  ∧ match forEach (feed EmptyString chunks) process_line p with
    | (q, Return _) => p' = q ∧ phase p' = Running
    | (q, Throw e) => p' = catch_block e q ∧ phase p' = Failed
    end.
Proof.
  intros Hp Hd. rewrite analyze_stream_app, analyze_stream_feed.
  pose proof (forEach_lines_disabled_kept _ Hd p) as H.
  assert (Hdis : disabled p).
  { unfold phase in Hp. unfold disabled. destruct (analyzeBtn_disabled (run p)); [done|].
    by repeat case_match. }
  specialize (H Hdis). unfold try_catch, mbind, M_bind.
  destruct (forEach (feed EmptyString chunks) process_line p) as [q [[]|e]]; cbn in *.
  - split; [done|]. split; [done|]. unfold phase. unfold disabled in H. by rewrite H.
  - by repeat split.
Qed.

Lemma stream_without_terminal_event_witness :
  let chunks := [planning_done_frame; searching_active_frame] in
  let end_of_stream := analyze_stream (Reading EmptyString)
                         (map ReadChunk chunks ++ [ReadDone]) page_running in
  phase page_running = Running
  ∧ Forall (λ r : string * option JSON.value, r.1 ≠ "complete" ∧ r.1 ≠ "error")
      (decoded chunks)
  ∧ end_of_stream.2 = Finished
  ∧ phase end_of_stream.1 = Running
  ∧ stage_map end_of_stream.1
    = [("planning", Some Done); ("searching", Some Active);
       ("writing", Some Pending); ("verifying", Some Pending)].
Proof.
  cbv zeta.
  assert (Hp : phase page_running = Running) by reflexivity.
  assert (Hd : Forall (λ r : string * option JSON.value, r.1 ≠ "complete" ∧ r.1 ≠ "error")
                 (decoded [planning_done_frame; searching_active_frame])).
  { vm_compute. repeat constructor; discriminate. }
  split; [exact Hp|]. split; [exact Hd|].
  pose proof (stream_without_terminal_event _ page_running Hp Hd) as H.
  assert (Hq : ∃ q, forEach (feed EmptyString [planning_done_frame; searching_active_frame])
                      process_line page_running = (q, Return tt))
    by (eexists; vm_compute; reflexivity).
  destruct Hq as [q Hq].
  destruct (analyze_stream _ _ _) as [p' h]. rewrite Hq in H.
  destruct H as (Hh & Hq' & Hphase). cbn [fst snd].
  split; [exact Hh|]. split; [exact Hphase|].
  subst p'. injection Hq as <-. vm_compute. reflexivity.
Defined.

End Runs.

(** ** Status events among themselves *)

Section StatusAlgebra.

Lemma mark_step_frame id isDone p m :
  on_run (set_steps m) (mark_step id isDone p) = on_run (set_steps m) p.
Proof. unfold mark_step. by repeat case_match. Qed.

Lemma eq_by_steps p q :
  (∀ m, on_run (set_steps m) p = on_run (set_steps m) q) →
  steps (run p) = steps (run q) → p = q.
Proof.
  intros H E. specialize (H (steps (run p))). rewrite E in H at 2.
  by destruct p as [[] ? ? ? ?], q as [[] ? ? ? ?].
Qed.

Lemma mark_step_steps id isDone p :
  steps (run (mark_step id isDone p))
  = match steps (run p) !! id with
    | Some c =>
        <[id := if JSON.truthy isDone then {| active := false; completed := true |}
                else {| active := true; completed := completed c |}]> (steps (run p))
    | None => steps (run p)
    end.
Proof. unfold mark_step. by repeat case_match. Qed.

Lemma mark_step_twice id d p : mark_step id d (mark_step id d p) = mark_step id d p.
Proof.
  apply eq_by_steps; [intros m; by rewrite mark_step_frame|].
  rewrite !mark_step_steps.
  destruct (steps (run p) !! id) as [c|] eqn:E; [|by rewrite E].
  rewrite lookup_insert_eq, insert_insert_eq. by destruct (JSON.truthy d).
Qed.

Lemma mark_step_commute id1 id2 d1 d2 p :
  id1 ≠ id2 →
  mark_step id1 d1 (mark_step id2 d2 p) = mark_step id2 d2 (mark_step id1 d1 p).
Proof.
  intros Hne.
  apply eq_by_steps; [intros m; by rewrite !mark_step_frame|].
  rewrite !mark_step_steps.
  destruct (steps (run p) !! id1) as [c1|] eqn:E1;
    destruct (steps (run p) !! id2) as [c2|] eqn:E2;
    rewrite ?lookup_insert_ne, ?E1, ?E2 by done; try done.
  by apply insert_insert_ne.
Qed.

Lemma updateProgress_returns stage name isDone p :
  JSON.to_string stage = Some name →
  updateProgress stage isDone p = (mark_step ("step-" +:+ name) isDone p, Return tt).
Proof.
  intros H. unfold updateProgress. by erewrite bind_return by (by apply to_text_return).
Qed.

(** X11. A status event addresses the step whose id is [step-] followed by
    the string of its stage: stages with one string - the number 1 and the
    text "1" - address one step, and a stage that does not convert to a
    string makes [updateProgress] throw with the page untouched.  Status
    events are idempotent, and events for stages of different strings
    commute: repeating an event changes nothing more, and two events leave
    the same page in either order - the stepper does not depend on the
    order in which the stages report.  An event for a stage without a step
    changes nothing. *)
Theorem status_events_commute (stage1 stage2 d1 d2 : JSON.value) (p : Page) :
  (JSON.to_string stage1 = None → updateProgress stage1 d1 p = (p, Throw TypeError))
  ∧ (JSON.to_string stage1 ≠ None →
     JSON.to_string stage1 = JSON.to_string stage2 →
     updateProgress stage1 d1 p = updateProgress stage2 d1 p)
  ∧ (JSON.to_string stage1 ≠ None →
     (updateProgress stage1 d1;; updateProgress stage1 d1) p = updateProgress stage1 d1 p)
  ∧ (JSON.to_string stage1 ≠ None → JSON.to_string stage2 ≠ None →
     JSON.to_string stage1 ≠ JSON.to_string stage2 →
     (updateProgress stage1 d1;; updateProgress stage2 d2) p
     = (updateProgress stage2 d2;; updateProgress stage1 d1) p)
  ∧ (∀ name, JSON.to_string stage1 = Some name →
             steps (run p) !! ("step-" +:+ name) = None →
             updateProgress stage1 d1 p = (p, Return tt)).
Proof.
  split; [|split; [|split; [|split]]].
  - intros H. unfold updateProgress. by erewrite bind_throw by (by apply to_text_throw).
  - intros Hsome Heq. destruct (JSON.to_string stage1) as [name|] eqn:E1; [|done].
    by rewrite (updateProgress_returns stage1 name), (updateProgress_returns stage2 name).
  - intros Hsome. destruct (JSON.to_string stage1) as [name|] eqn:E1; [|done].
    erewrite bind_return by (by apply updateProgress_returns).
    rewrite !(updateProgress_returns stage1 name) by done.
    by rewrite mark_step_twice.
  - intros H1 H2 Hne.
    destruct (JSON.to_string stage1) as [n1|] eqn:E1; [|done].
    destruct (JSON.to_string stage2) as [n2|] eqn:E2; [|done].
    erewrite bind_return by (by apply updateProgress_returns).
    erewrite (bind_return (updateProgress stage2 d2)) by (by apply updateProgress_returns).
    rewrite (updateProgress_returns stage1 n1), (updateProgress_returns stage2 n2) by done.
    rewrite mark_step_commute; [done|].
    intros H%step_id_inj. by subst.
  - intros name Hn Hl. rewrite (updateProgress_returns stage1 name) by done.
    unfold mark_step. by rewrite Hl.
Qed.

Lemma status_events_commute_witness :
  let p := <["step-1" := {| active := false; completed := false |}]> (steps (run page_as_served)) in
  let page := on_run (set_steps p) page_as_served in
  JSON.to_string (JSON.Number false 1 0) = Some "1"
  ∧ JSON.to_string (JSON.Str "1") = Some "1"
  ∧ JSON.to_string (JSON.Str "planning") ≠ JSON.to_string (JSON.Number false 1 0)
  ∧ updateProgress (JSON.Number false 1 0) (JSON.Bool true) page
    = updateProgress (JSON.Str "1") (JSON.Bool true) page
  ∧ (updateProgress (JSON.Str "planning") (JSON.Bool false);;
     updateProgress (JSON.Number false 1 0) (JSON.Bool true)) page
    = (updateProgress (JSON.Number false 1 0) (JSON.Bool true);;
       updateProgress (JSON.Str "planning") (JSON.Bool false)) page.
Proof.
  cbv zeta.
  assert (H1 : JSON.to_string (JSON.Number false 1 0) = Some "1") by (vm_compute; reflexivity).
  assert (H2 : JSON.to_string (JSON.Str "1") = Some "1") by reflexivity.
  assert (Hne : JSON.to_string (JSON.Str "planning") ≠ JSON.to_string (JSON.Number false 1 0))
    by (rewrite H1; discriminate).
  split; [exact H1|]. split; [exact H2|]. split; [exact Hne|]. split.
  - apply (proj1 (proj2 (status_events_commute (JSON.Number false 1 0) (JSON.Str "1")
                           (JSON.Bool true) (JSON.Bool true) _))).
    + by rewrite H1.
    + by rewrite H1.
  - apply (proj1 (proj2 (proj2 (proj2 (status_events_commute (JSON.Str "planning")
                                         (JSON.Number false 1 0)
                                         (JSON.Bool false) (JSON.Bool true) _))))).
    + discriminate.
    + by rewrite H1.
    + exact Hne.
Defined.

End StatusAlgebra.

(** ** Computations that leave the page alone *)

Section Pure.

Lemma pure_ret {A : Type} (a : A) : pure (mret a).
Proof. by intros p q. Qed.

Lemma pure_throw {A : Type} (e : exn) : pure (throw e : M A).
Proof. by intros p q. Qed.

Lemma pure_bind {A B : Type} (m : M A) (f : A → M B) :
  pure m → (∀ a, pure (f a)) → pure (m ≫= f).
Proof.
  intros Hm Hf p q. unfold mbind, M_bind.
  rewrite (Hm p q), (Hm q q). destruct (m q).2 as [a|e]; [apply Hf|done].
Qed.

Lemma pure_prop v k : pure (prop v k).
Proof. unfold prop. destruct (JSON.get v k); [apply pure_ret|apply pure_throw]. Qed.

Lemma pure_to_text v : pure (to_text v).
Proof. unfold to_text. destruct (JSON.to_string v); [apply pure_ret|apply pure_throw]. Qed.

Lemma pure_as_string v : pure (as_string v).
Proof. destruct v; first [apply pure_ret|apply pure_throw]. Qed.

Lemma pure_as_array v : pure (as_array v).
Proof. destruct v; first [apply pure_ret|apply pure_throw]. Qed.

Lemma pure_non_empty v : pure (non_empty v).
Proof.
  unfold non_empty. destruct (JSON.truthy v); [|apply pure_ret].
  destruct (JSON.length_positive v); [apply pure_ret|apply pure_throw].
Qed.

Lemma pure_returns {A : Type} (m : M A) p p' a :
  pure m → m p = (p', Return a) → p' = p ∧ ∀ z, m z = (z, Return a).
Proof.
  intros Hm H. pose proof (Hm p p) as E. rewrite H in E.
  injection E as ->. split; [done|]. intros z. by rewrite (Hm z p), H.
Qed.

End Pure.

Ltac pure_step :=
  first [ apply pure_ret | apply pure_throw | apply pure_prop | apply pure_to_text
        | apply pure_as_string | apply pure_as_array | apply pure_non_empty
        | apply pure_bind; [|intros ?]
        | match goal with |- pure (if ?b then _ else _) => destruct b end ].

(** ** The result renderer *)

Section Renderer.

(** The fact checks are rendered without a look at the page. *)
Lemma render_checks_pure checks : pure (render_checks checks).
Proof.
  induction checks as [|check checks IH]; [apply pure_ret|].
  cbn [render_checks]. unfold render_check. repeat first [pure_step | apply IH].
Qed.

Lemma add_question_returns question p :
  JSON.to_string question ≠ None →
  add_question question p
  = (on_result (λ r, set_followUpQuestions (followUpQuestions r ++ [question]) r) p, Return tt).
Proof.
  intros H. unfold add_question.
  destruct (JSON.to_string question) as [text|] eqn:E; [|done].
  by erewrite bind_return by (by apply to_text_return).
Qed.

Lemma forEach_questions questions p :
  Forall (λ question, JSON.to_string question ≠ None) questions →
  forEach questions add_question p
  = (on_result (set_followUpQuestions (followUpQuestions (result p) ++ questions)) p,
     Return tt).
Proof.
  intros H. revert p. induction H as [|q questions Hq _ IH]; intros p.
  - cbn [forEach]. rewrite app_nil_r. by destruct p as [? [] ? ? ?].
  - cbn [forEach]. erewrite bind_return by (by apply add_question_returns). rewrite IH.
    cbn. by rewrite <- app_assoc.
Qed.

Lemma forEach_questions_inv questions p p' :
  forEach questions add_question p = (p', Return tt) →
  Forall (λ question, JSON.to_string question ≠ None) questions.
Proof.
  revert p. induction questions as [|q questions IH]; intros p; [by constructor|].
  cbn [forEach]. intros H. apply bind_inv in H as ([] & p1 & Hq & H).
  constructor; [|by eapply IH].
  unfold add_question in Hq. apply bind_inv in Hq as (text & ? & [Ht _]%to_text_inv & _).
  by rewrite Ht.
Qed.

Lemma displayResults_forward data verification verified issues fact_checks
    summary report questions shown checks :
  JSON.get data "short_summary" = Some (JSON.Str summary) →
  JSON.get data "verification" = Some verification →
  JSON.get verification "verified" = Some verified →
  JSON.get data "markdown_report" = Some (JSON.Str report) →
  JSON.get data "follow_up_questions" = Some (JSON.Array questions) →
  Forall (λ question, JSON.to_string question ≠ None) questions →
  JSON.get verification "fact_checks" = Some fact_checks →
  (∀ z, non_empty fact_checks z = (z, Return shown)) →
  (∀ z, (if shown : bool then as_array fact_checks ≫= render_checks else mret []) z
        = (z, Return checks)) →
  JSON.get verification "issues" = Some issues →
  JSON.to_string issues ≠ None →
  ∀ z, displayResults data z
       = (on_result (λ _, rendering summary report questions verified issues checks) z,
          Return tt).
Proof.
  intros Hs Hv Hverified Hr Hq Hqs Hf Hshown Hchecks Hi Hit z. unfold displayResults.
  destruct (JSON.to_string issues) as [text|] eqn:Et; [|done].
  erewrite bind_return by reflexivity.
  erewrite bind_return by (by apply prop_return).
  erewrite bind_return by reflexivity.
  erewrite bind_return by reflexivity.
  erewrite bind_return by reflexivity.
  erewrite bind_return by reflexivity.
  erewrite bind_return by (by apply prop_return).
  erewrite bind_return by (by apply prop_return).
  erewrite bind_return by reflexivity.
  erewrite bind_return by reflexivity.
  erewrite bind_return by (by apply prop_return).
  erewrite bind_return by reflexivity.
  erewrite bind_return by reflexivity.
  erewrite bind_return by reflexivity.
  erewrite bind_return
    by (erewrite bind_return by (by apply prop_return); reflexivity).
  erewrite bind_return by (by apply forEach_questions).
  erewrite bind_return by (by apply prop_return).
  erewrite bind_return by apply Hshown.
  erewrite bind_return by apply Hchecks.
  erewrite bind_return by (by apply prop_return).
  erewrite bind_return by (by apply to_text_return).
  reflexivity.
Qed.

Lemma displayResults_backward data p p' :
  displayResults data p = (p', Return tt) →
  ∃ verification verified issues fact_checks summary report questions shown checks,
    JSON.get data "short_summary" = Some (JSON.Str summary)
    ∧ JSON.get data "verification" = Some verification
    ∧ JSON.get verification "verified" = Some verified
    ∧ JSON.get data "markdown_report" = Some (JSON.Str report)
    ∧ JSON.get data "follow_up_questions" = Some (JSON.Array questions)
    ∧ Forall (λ question, JSON.to_string question ≠ None) questions
    ∧ JSON.get verification "fact_checks" = Some fact_checks
    ∧ (∀ z, non_empty fact_checks z = (z, Return shown))
    ∧ (∀ z, (if shown : bool then as_array fact_checks ≫= render_checks else mret []) z
            = (z, Return checks))
    ∧ JSON.get verification "issues" = Some issues
    ∧ JSON.to_string issues ≠ None.
Proof.
  unfold displayResults, extractCompanyName, markdownToHtml. intros H.
  apply bind_inv in H as ([] & p1 & _ & H).
  apply bind_inv in H as (short_summary & ? & [Hs ->]%prop_inv & H).
  apply bind_inv in H as (companyName & ? & Hc & H).
  apply bind_inv in Hc as (summary & ? & [-> ->]%as_string_inv & _).
  apply bind_inv in H as ([] & ? & _ & H).
  apply bind_inv in H as (summary' & ? & _ & H).
  apply bind_inv in H as ([] & ? & _ & H).
  apply bind_inv in H as (verification & ? & [Hv _]%prop_inv & H).
  apply bind_inv in H as (verified & ? & [Hverified _]%prop_inv & H).
  apply bind_inv in H as ([] & ? & _ & H).
  apply bind_inv in H as ([] & ? & _ & H).
  apply bind_inv in H as (markdown_report & ? & [Hr _]%prop_inv & H).
  apply bind_inv in H as (report & ? & [-> _]%as_string_inv & H).
  apply bind_inv in H as ([] & ? & _ & H).
  apply bind_inv in H as ([] & ? & _ & H).
  apply bind_inv in H as (questions & ? & Hq & H).
  apply bind_inv in Hq as (qv & ? & [Hq _]%prop_inv & Ha).
  destruct qv; try done. injection Ha as _ ->.
  apply bind_inv in H as ([] & ? & Hqs%forEach_questions_inv & H).
  apply bind_inv in H as (fact_checks & ? & [Hf _]%prop_inv & H).
  apply bind_inv in H as (shown & ? & Hshown & H).
  apply (pure_returns _ _ _ _ (pure_non_empty _)) in Hshown as [-> Hshown].
  apply bind_inv in H as (checks & ? & Hchecks & H).
  apply bind_inv in H as (issues & ? & [Hi _]%prop_inv & H).
  apply bind_inv in H as (text & ? & [Hit _]%to_text_inv & _).
  exists verification, verified, issues, fact_checks, summary, report, questions, shown, checks.
  repeat (split; [done|]). split; [|split; [done|by rewrite Hit]].
  intros z. revert Hchecks.
  destruct shown; intros Hchecks; [|by injection Hchecks as _ <-].
  assert (Hp : pure (as_array fact_checks ≫= render_checks)).
  { apply pure_bind; [apply pure_as_array|apply render_checks_pure]. }
  by apply (pure_returns _ _ _ _ Hp) in Hchecks as [_ Hchecks].
Qed.

Lemma non_empty_none v z :
  JSON.truthy v = false ∨ JSON.length_positive v = Some false →
  non_empty v z = (z, Return false).
Proof.
  intros H. unfold non_empty. destruct (JSON.truthy v); [|done].
  destruct H as [H|H]; [done|]. by rewrite H.
Qed.

(** X12. A well-formed payload always renders, and renders everything: with
    a string summary, a string report, an array of questions that convert
    to strings, and a verification object whose issues convert to a string
    and that has no fact checks to show, [displayResults] returns without
    throwing and replaces all eight result regions - the section shown,
    company name, badge, metrics, summary text, report, questions,
    verification panel - whatever they held; nothing else on the page
    changes. *)
Theorem payload_renders (data verification verified issues fact_checks : JSON.value)
    (summary report : string) (questions : list JSON.value) (p : Page) :
  JSON.get data "short_summary" = Some (JSON.Str summary) →
  JSON.get data "verification" = Some verification →
  JSON.get verification "verified" = Some verified →
  JSON.get data "markdown_report" = Some (JSON.Str report) →
  JSON.get data "follow_up_questions" = Some (JSON.Array questions) →
  Forall (λ question, JSON.to_string question ≠ None) questions →
  JSON.get verification "fact_checks" = Some fact_checks →
  JSON.truthy fact_checks = false ∨ JSON.length_positive fact_checks = Some false →
  JSON.get verification "issues" = Some issues →
  JSON.to_string issues ≠ None →
  displayResults data p
  = (on_result (λ _, rendering summary report questions verified issues []) p, Return tt).
Proof.
  intros Hs Hv Hverified Hr Hq Hqs Hf Hnone Hi Hit.
  apply (displayResults_forward data verification verified issues fact_checks
           summary report questions false); try done.
  intros z. by apply non_empty_none.
Qed.

Lemma payload_renders_witness :
  let verification := JSON.Object [("verified", JSON.Bool true); ("issues", JSON.Str "none")] in
  JSON.get complete_payload "short_summary"
  = Some (JSON.Str "We recommend a strong buy despite some negative risk")
  ∧ JSON.get complete_payload "verification" = Some verification
  ∧ JSON.get verification "fact_checks" = Some JSON.Undefined
  ∧ Forall (λ question, JSON.to_string question ≠ None) [JSON.Str "What next?"]
  ∧ displayResults complete_payload page_running
    = (on_result (λ _, rendering "We recommend a strong buy despite some negative risk"
                         "# Amazon" [JSON.Str "What next?"] (JSON.Bool true)
                         (JSON.Str "none") []) page_running,
       Return tt).
Proof.
  cbv zeta. repeat (split; [reflexivity|]).
  assert (Hqs : Forall (λ question, JSON.to_string question ≠ None) [JSON.Str "What next?"])
    by (by repeat constructor).
  split; [exact Hqs|].
  apply (payload_renders complete_payload
           (JSON.Object [("verified", JSON.Bool true); ("issues", JSON.Str "none")])
           (JSON.Bool true) (JSON.Str "none") JSON.Undefined); try done.
  by left.
Defined.

(** X13. The renderer is a function of the payload: if a payload renders on
    one page, it renders on every page, to the same result regions; so
    rendering it again changes nothing.  Outside the result regions the
    page is left as it was. *)
Theorem rendering_depends_on_payload_only (data : JSON.value) (p p' : Page) :
  displayResults data p = (p', Return tt) →
  (∀ q, displayResults data q = (on_result (λ _, result p') q, Return tt))
  ∧ displayResults data p' = (p', Return tt)
  ∧ run p' = run p ∧ side p' = side p ∧ console p' = console p
  ∧ queryInput_value p' = queryInput_value p.
Proof.
  intros H.
  destruct (displayResults_backward data p p' H)
    as (verification & verified & issues & fact_checks & summary & report & questions
        & shown & checks & Hs & Hv & Hverified & Hr & Hq & Hqs & Hf & Hshown & Hchecks
        & Hi & Hit).
  pose proof (displayResults_forward data verification verified issues fact_checks
                summary report questions shown checks Hs Hv Hverified Hr Hq Hqs Hf Hshown
                Hchecks Hi Hit) as Hfw.
  rewrite Hfw in H. injection H as <-.
  split; [exact Hfw|]. split; [|done]. by rewrite Hfw.
Qed.

Lemma rendering_depends_on_payload_only_witness :
  let p' := (displayResults complete_payload page_running).1 in
  displayResults complete_payload page_running = (p', Return tt)
  ∧ displayResults complete_payload p' = (p', Return tt).
Proof.
  cbv zeta.
  assert (H : displayResults complete_payload page_running
              = ((displayResults complete_payload page_running).1, Return tt))
    by (vm_compute; reflexivity).
  split; [exact H|].
  exact (proj1 (proj2 (rendering_depends_on_payload_only complete_payload page_running _ H))).
Defined.

Lemma lower_char_twice c : JS.lower_char (JS.lower_char c) = JS.lower_char c.
Proof. destruct c as [[] [] [] [] [] [] [] []]; reflexivity. Qed.

Lemma toLowerCase_twice s : JS.toLowerCase (JS.toLowerCase s) = JS.toLowerCase s.
Proof. induction s as [|c s IH]; [done|]. cbn. by rewrite lower_char_twice, IH. Qed.

Lemma find_first {A : Type} (f : A → bool) (before after : list A) (x : A) :
  Forall (λ y, f y = false) before → f x = true →
  List.find f (before ++ x :: after) = Some x.
Proof.
  intros Hb Hx. induction Hb as [|y before Hy _ IH]; cbn; [by rewrite Hx|].
  by rewrite Hy.
Qed.

Lemma find_none {A : Type} (f : A → bool) (l : list A) :
  Forall (λ y, f y = false) l → List.find f l = None.
Proof. induction 1 as [|y l Hy _ IH]; cbn; [done|]. by rewrite Hy. Qed.

(** X14. The company name is found by substring, in list order, without
    regard to letter case: [extractCompanyName] of a string returns the
    capitalized first name of amazon, apple, google, microsoft, tesla,
    meta, nvidia that occurs anywhere in the lowercased text - inside a
    longer word as well - and "Company" when none occurs; a text and its
    lowercasing give the same name.  Anything but a string makes it
    throw, with the page untouched. *)
Theorem company_name_by_substring (query : JSON.value) (p : Page) :
  extractCompanyName query p
  = (p, match query with
        | JSON.Str s => Return (company_of s)
        | _ => Throw TypeError
        end)
  ∧ ∀ s,
      company_of (JS.toLowerCase s) = company_of s
      ∧ (Forall (λ company, ¬ occurs_in company (JS.toLowerCase s)) companies →
         company_of s = "Company")
      ∧ (∀ before company after,
           companies = before ++ company :: after →
           Forall (λ c, ¬ occurs_in c (JS.toLowerCase s)) before →
           occurs_in company (JS.toLowerCase s) →
           company_of s = capitalize company).
Proof.
  split; [by destruct query|]. intros s. split; [|split].
  - unfold company_of. by rewrite toLowerCase_twice.
  - intros H. unfold company_of. rewrite find_none; [done|].
    eapply Forall_impl; [exact H|]. intros c Hc. cbv beta.
    destruct (JS.includes (JS.toLowerCase s) c) eqn:E; [|done].
    by apply includes_spec in E.
  - intros before company after Hl Hb Ho. unfold company_of. rewrite Hl.
    rewrite find_first; [done| |by apply includes_spec].
    eapply Forall_impl; [exact Hb|]. intros c Hc. cbv beta.
    destruct (JS.includes (JS.toLowerCase s) c) eqn:E; [|done].
    by apply includes_spec in E.
Qed.

Lemma company_name_by_substring_witness :
  companies = ["amazon"] ++ "apple" :: ["google"; "microsoft"; "tesla"; "meta"; "nvidia"]
  ∧ Forall (λ c, ¬ occurs_in c (JS.toLowerCase "PINEAPPLE growers")) ["amazon"]
  ∧ occurs_in "apple" (JS.toLowerCase "PINEAPPLE growers")
  ∧ company_of "PINEAPPLE growers" = "Apple".
Proof.
  assert (Hb : Forall (λ c, ¬ occurs_in c (JS.toLowerCase "PINEAPPLE growers")) ["amazon"]).
  { constructor; [|constructor]. intros H%includes_spec. discriminate H. }
  assert (Ho : occurs_in "apple" (JS.toLowerCase "PINEAPPLE growers")).
  { by exists "pine", " growers". }
  split; [reflexivity|]. split; [exact Hb|]. split; [exact Ho|].
  exact (proj2 (proj2 (proj2 (company_name_by_substring JSON.Null page_as_served)
                         "PINEAPPLE growers"))
           ["amazon"] "apple" _ eq_refl Hb Ho).
Defined.

End Renderer.

(** ** History, chart and toggles *)

Section Side.

(** An item is rendered without a look at the page. *)
Lemma createHistoryItem_pure item : pure (createHistoryItem item).
Proof. unfold createHistoryItem. repeat pure_step. Qed.

Lemma createHistoryItem_returns item p h z :
  createHistoryItem item p = (p, Return h) → createHistoryItem item z = (z, Return h).
Proof. intros H. by rewrite (createHistoryItem_pure item z p), H. Qed.

Lemma createHistoryItem_throws item p e z :
  createHistoryItem item p = (p, Throw e) → createHistoryItem item z = (z, Throw e).
Proof. intros H. by rewrite (createHistoryItem_pure item z p), H. Qed.

Lemma add_history_returns item p h z :
  createHistoryItem item p = (p, Return h) →
  add_history item z
  = (on_side (λ s, set_historyList (append_history h (historyList s)) s) z, Return tt).
Proof.
  intros H. unfold add_history.
  erewrite bind_return by (by eapply createHistoryItem_returns). reflexivity.
Qed.

Lemma add_history_throws item p e z :
  createHistoryItem item p = (p, Throw e) → add_history item z = (z, Throw e).
Proof.
  intros H. unfold add_history.
  erewrite bind_throw; [done|]. by eapply createHistoryItem_throws.
Qed.

Lemma forEach_history items rendered shown p z :
  Forall2 (λ item h, createHistoryItem item p = (p, Return h)) items rendered →
  historyList (side z) = HistoryItems shown →
  forEach items add_history z
  = (on_side (set_historyList (HistoryItems (shown ++ rendered))) z, Return tt).
Proof.
  intros H. revert shown z.
  induction H as [|item h items rendered Hh _ IH]; intros shown z Hz.
  - cbn [forEach]. rewrite app_nil_r, <- Hz. by destruct z as [? ? [] ? ?].
  - cbn [forEach]. erewrite bind_return by (by eapply add_history_returns).
    rewrite (IH (shown ++ [h])); [|cbn; by rewrite Hz].
    cbn. by rewrite <- app_assoc.
Qed.

Lemma forEach_history_throws before item after e p z :
  Forall (λ b, ∃ h, createHistoryItem b p = (p, Return h)) before →
  createHistoryItem item p = (p, Throw e) →
  ∃ z', forEach (before ++ item :: after) add_history z = (z', Throw e)
        ∧ run z' = run z ∧ result z' = result z ∧ console z' = console z.
Proof.
  intros Hb He. revert z. induction Hb as [|b before [h Hh] _ IH]; intros z.
  - cbn [app forEach]. exists z.
    erewrite bind_throw; [done|]. by eapply add_history_throws.
  - cbn [app forEach]. erewrite bind_return by (by eapply add_history_returns).
    destruct (IH (on_side (λ s, set_historyList (append_history h (historyList s)) s) z))
      as (z' & E & ? & ? & ?).
    exists z'. by rewrite E.
Qed.

(** X15. The history list is all or nothing.  For a payload whose
    [history] is an array: empty, the list shows "No history yet"; every
    item rendering, the list shows the items in the order of the payload;
    one item that does not render - [null], or without a string
    [recommendation] - and the whole list is replaced by "Failed to load
    history" and the error logged, the items before it included.  The
    [ok] flag of the response plays no part. *)
Theorem history_list_all_or_nothing (ok : bool) (body : string) (data : JSON.value)
    (items : list JSON.value) (p : Page) :
  JSON.parse body = Some data →
  JSON.get data "history" = Some (JSON.Array items) →
  let p' := loadHistory_response (Response ok body) p in
  (items = [] → p' = on_side (set_historyList HistoryNone) p)
  ∧ (∀ rendered,
       items ≠ [] →
       Forall2 (λ item h, createHistoryItem item p = (p, Return h)) items rendered →
       p' = on_side (set_historyList (HistoryItems rendered)) p)
  ∧ (∀ before item after e,
       items = before ++ item :: after →
       Forall (λ b, ∃ h, createHistoryItem b p = (p, Return h)) before →
       createHistoryItem item p = (p, Throw e) →
       historyList (side p') = HistoryFailed
       ∧ console p' = console p ++ [{| level := LevelError;
                                       label := "Failed to load history:";
                                       arg := Some (ArgExn e) |}]
       ∧ run p' = run p ∧ result p' = result p).
Proof.
  intros Hparse Hhistory. cbv zeta.
  unfold loadHistory_response, loadHistory_try, json. rewrite Hparse.
  erewrite bind_return by reflexivity.
  erewrite bind_return by (by apply prop_return).
  assert (Hshown : ∀ z, non_empty (JSON.Array items) z
                        = (z, Return (negb (Nat.eqb (length items) 0)))) by reflexivity.
  erewrite bind_return by apply Hshown.
  split; [|split].
  - intros ->. reflexivity.
  - intros rendered Hne Hall. destruct items as [|item items]; [done|].
    cbn [length Nat.eqb negb].
    erewrite bind_return by reflexivity.
    erewrite bind_return by reflexivity.
    change (forEach ?l _) with (forEach l add_history).
    erewrite (forEach_history _ rendered []); [|exact Hall|reflexivity].
    reflexivity.
  - intros before item after e -> Hb He.
    assert (Hlen : negb (Nat.eqb (length (before ++ item :: after)) 0) = true).
    { rewrite length_app. cbn. by destruct (length before + S (length after)) eqn:E; [lia|]. }
    rewrite Hlen.
    erewrite bind_return by reflexivity.
    erewrite bind_return by reflexivity.
    change (forEach ?l _) with (forEach l add_history).
    destruct (forEach_history_throws before item after e p
                (on_side (set_historyList (HistoryItems [])) p) Hb He)
      as (z' & E & Hrun & Hres & Hcon).
    rewrite E. cbn. rewrite Hcon. by repeat split.
Qed.

Lemma history_list_all_or_nothing_witness :
  let body := JSON.text "{'history': [{'id': 1, 'query': 'Amazon', 'recommendation': 'Buy'}, null]}" in
  let item := JSON.Object [("id", JSON.Number false 1 0); ("query", JSON.Str "Amazon");
                           ("recommendation", JSON.Str "Buy")] in
  let p' := loadHistory_response (Response true body) page_as_served in
  JSON.parse body = Some (JSON.Object [("history", JSON.Array [item; JSON.Null])])
  ∧ (∃ h, createHistoryItem item page_as_served = (page_as_served, Return h))
  ∧ createHistoryItem JSON.Null page_as_served = (page_as_served, Throw TypeError)
  ∧ historyList (side p') = HistoryFailed.
Proof.
  cbv zeta.
  set (item := JSON.Object [("id", JSON.Number false 1 0); ("query", JSON.Str "Amazon");
                            ("recommendation", JSON.Str "Buy")]).
  set (body := JSON.text
         "{'history': [{'id': 1, 'query': 'Amazon', 'recommendation': 'Buy'}, null]}").
  assert (Hp : JSON.parse body = Some (JSON.Object [("history", JSON.Array [item; JSON.Null])]))
    by (vm_compute; reflexivity).
  assert (Hi : ∃ h, createHistoryItem item page_as_served = (page_as_served, Return h))
    by (eexists; vm_compute; reflexivity).
  assert (Hn : createHistoryItem JSON.Null page_as_served = (page_as_served, Throw TypeError))
    by reflexivity.
  split; [exact Hp|]. split; [exact Hi|]. split; [exact Hn|].
  refine (proj1 (proj2 (proj2 (history_list_all_or_nothing true body _ [item; JSON.Null]
                                 page_as_served Hp eq_refl))
                   [item] JSON.Null [] TypeError eq_refl _ Hn)).
  constructor; [exact Hi|constructor].
Defined.

(** X16. The report toggle keeps arrow and report in step: after any
    toggle the report is either shown or hidden, and the arrow is rotated
    exactly when it is shown; from then on two toggles give the same state
    back.  The first toggle shows the report only if its inline display
    was "none": from any other state it hides it. *)
Theorem toggleReport_keeps_arrow_in_step (t : ReportToggle) :
  let t1 := toggleReport t in
  (fullReportContent t1 = "block" ∧ arrow_rotated t1 = true
   ∨ fullReportContent t1 = "none" ∧ arrow_rotated t1 = false)
  ∧ toggleReport (toggleReport t1) = t1
  ∧ (fullReportContent t ≠ "none" → fullReportContent t1 = "none")
  ∧ (fullReportContent t = "none" → fullReportContent t1 = "block").
Proof.
  cbv zeta. unfold toggleReport.
  destruct (String.eqb (fullReportContent t) "none") eqn:E; cbn.
  - apply String.eqb_eq in E. repeat split; auto. by intros [].
  - apply String.eqb_neq in E. repeat split; auto. by intros ?.
Qed.

(** X17. The history sidebar: toggling twice gives the sidebar back as it
    was, and of the two toggles exactly the one that opens it asks for the
    history, once, and puts the list on "Loading..."; the one that closes
    it sends nothing and leaves the list as it is.  Neither touches the
    main run or the result. *)
Theorem toggleHistory_twice (p : Page) :
  let '(p1, requests1) := toggleHistory p in
  let '(p2, requests2) := toggleHistory p1 in
  historySidebar_open (side p2) = historySidebar_open (side p)
  ∧ requests1 ++ requests2 = [GetHistory]
  ∧ (historySidebar_open (side p) = false →
     requests1 = [GetHistory] ∧ historyList (side p1) = HistoryLoading)
  ∧ (historySidebar_open (side p) = true →
     requests1 = [] ∧ historyList (side p1) = historyList (side p))
  ∧ run p2 = run p ∧ result p2 = result p ∧ console p2 = console p.
Proof.
  unfold toggleHistory, loadHistory.
  destruct p as [? ? [? ? ? [] ?] ? ?]; cbn; by repeat split.
Qed.

(** X18. The chart loader takes any payload that is not an error: for a
    successful response whose body is JSON, not [null], and without a
    truthy [error], it sets the display of the canvas its call holds to
    "block" - which shows, if that canvas is still the one in the
    document - and, when [symbol] converts to a string, makes the chart
    on that canvas from [labels], [symbol] and [prices] as they are,
    missing or ill-typed ones included, and logs nothing; a [symbol] that
    does not convert is logged as a failure, after the display was set.
    A body that is [null] or no JSON is logged as a failure and leaves
    canvas and chart as they were.  (The constructor of the chart library
    is taken to return.) *)
Theorem chart_made_from_any_payload (canvas : nat) (body : string) (p : Page) :
  let p' := loadChart_response canvas (Response true body) p in
  (∀ data error labels symbol prices,
     JSON.parse body = Some data →
     JSON.get data "error" = Some error → JSON.truthy error = false →
     JSON.get data "labels" = Some labels → JSON.get data "symbol" = Some symbol →
     JSON.get data "prices" = Some prices →
     (JSON.to_string symbol ≠ None →
      p' = on_side (set_stockChartInstance
                      (Some {| chart_canvas := canvas; chart_labels := labels;
                               chart_symbol := symbol; chart_prices := prices |}))
             (canvas_display_set canvas "block" p))
     ∧ (JSON.to_string symbol = None →
        p' = console_error "Failed to load chart:" (Some (ArgExn TypeError))
               (canvas_display_set canvas "block" p)))
  ∧ (in_document canvas p = true →
     stockChart (side (canvas_display_set canvas "block" p))
     = Some {| canvas_node := canvas; canvas_display := "block" |})
  ∧ (in_document canvas p = false → canvas_display_set canvas "block" p = p)
  ∧ (JSON.parse body = None →
     p' = console_error "Failed to load chart:" (Some (ArgExn SyntaxError)) p)
  ∧ (JSON.parse body = Some JSON.Null →
     p' = console_error "Failed to load chart:" (Some (ArgExn TypeError)) p).
Proof.
  cbv zeta. unfold loadChart_response, loadChart_try, json. cbn [negb].
  split; [|split; [|split; [|split]]].
  - intros data error labels symbol prices Hp He Ht Hl Hs Hpr. rewrite Hp.
    erewrite bind_return by reflexivity.
    erewrite bind_return by (by apply prop_return). rewrite Ht.
    erewrite bind_return by reflexivity.
    erewrite bind_return by (by apply prop_return).
    erewrite bind_return by (by apply prop_return).
    split.
    + intros Hsym. destruct (JSON.to_string symbol) as [text|] eqn:E; [|done].
      erewrite bind_return by (by apply to_text_return).
      erewrite bind_return by (by apply prop_return).
      reflexivity.
    + intros Hsym. by erewrite bind_throw by (by apply to_text_throw).
  - intros H. unfold canvas_display_set. by rewrite H.
  - intros H. unfold canvas_display_set. by rewrite H.
  - by intros ->.
  - by intros ->.
Qed.

Lemma chart_made_from_any_payload_witness :
  let body := JSON.text "[1, 2, 3]" in
  let data := JSON.Array [JSON.Number false 1 0; JSON.Number false 2 0; JSON.Number false 3 0] in
  JSON.parse body = Some data
  ∧ JSON.get data "error" = Some JSON.Undefined
  ∧ JSON.to_string JSON.Undefined ≠ None
  ∧ in_document 0 page_running = true
  ∧ stockChartInstance (side (loadChart_response 0 (Response true body) page_running))
    = Some {| chart_canvas := 0; chart_labels := JSON.Undefined;
              chart_symbol := JSON.Undefined; chart_prices := JSON.Undefined |}
  ∧ stockChart (side (loadChart_response 0 (Response true body) page_running))
    = Some {| canvas_node := 0; canvas_display := "block" |}.
Proof.
  cbv zeta.
  assert (Hp : JSON.parse (JSON.text "[1, 2, 3]")
               = Some (JSON.Array [JSON.Number false 1 0; JSON.Number false 2 0;
                                   JSON.Number false 3 0])) by (vm_compute; reflexivity).
  assert (Hs : JSON.to_string JSON.Undefined ≠ None) by discriminate.
  split; [exact Hp|]. split; [reflexivity|]. split; [exact Hs|]. split; [reflexivity|].
  rewrite (proj1 (proj1 (chart_made_from_any_payload 0 (JSON.text "[1, 2, 3]") page_running)
                    _ JSON.Undefined JSON.Undefined JSON.Undefined JSON.Undefined
                    Hp eq_refl eq_refl eq_refl eq_refl eq_refl) Hs).
  split; reflexivity.
Defined.

(** X19. A stored result is shown like a fresh one, and the run is left
    alone: for a well-formed stored payload - a string summary, a string
    [full_report], questions and issues that convert to strings, no fact
    checks to show - the history-detail loader closes the sidebar and
    renders it as [displayResults] renders a complete event, with
    [full_report] as the report; unlike the complete event it does not
    touch the button, so a run in flight stays in flight, with its stepper
    and log, under the result of the past run.  The [ok] flag of the
    response plays no part. *)
Theorem stored_result_renders (ok : bool) (body : string)
    (data verification verified issues fact_checks : JSON.value)
    (summary report : string) (questions : list JSON.value) (p : Page) :
  JSON.parse body = Some data →
  JSON.get data "short_summary" = Some (JSON.Str summary) →
  JSON.get data "verification" = Some verification →
  JSON.get verification "verified" = Some verified →
  JSON.get data "full_report" = Some (JSON.Str report) →
  JSON.get data "follow_up_questions" = Some (JSON.Array questions) →
  Forall (λ question, JSON.to_string question ≠ None) questions →
  JSON.get verification "fact_checks" = Some fact_checks →
  JSON.truthy fact_checks = false ∨ JSON.length_positive fact_checks = Some false →
  JSON.get verification "issues" = Some issues →
  JSON.to_string issues ≠ None →
  let p' := loadHistoricalResearch_response (Response ok body) p in
  p' = on_result (λ _, rendering summary report questions verified issues [])
         (on_side (set_historySidebar_open false) p)
  ∧ run p' = run p ∧ phase p' = phase p ∧ console p' = console p.
Proof.
  intros Hp Hs Hv Hverified Hr Hq Hqs Hf Hnone Hi Hit. cbv zeta.
  unfold loadHistoricalResearch_response, loadHistoricalResearch_try, json. rewrite Hp.
  erewrite bind_return by reflexivity.
  erewrite bind_return by reflexivity.
  erewrite bind_return by (by apply prop_return).
  erewrite bind_return by (by apply prop_return).
  erewrite bind_return by (by apply prop_return).
  erewrite bind_return by (by apply prop_return).
  erewrite (displayResults_forward _ verification verified issues fact_checks summary report
              questions false []); try done.
  intros z. by apply non_empty_none.
Qed.

Lemma stored_result_renders_witness :
  let body := JSON.text
    ("{'short_summary': 'Hold Tesla for now', 'full_report': '# Tesla', "
     +:+ "'follow_up_questions': [], 'verification': {'verified': false, 'issues': 'two'}}") in
  let verification := JSON.Object [("verified", JSON.Bool false); ("issues", JSON.Str "two")] in
  let data := JSON.Object [("short_summary", JSON.Str "Hold Tesla for now");
                           ("full_report", JSON.Str "# Tesla");
                           ("follow_up_questions", JSON.Array []);
                           ("verification", verification)] in
  JSON.parse body = Some data
  ∧ phase (loadHistoricalResearch_response (Response false body) page_running) = Running
  ∧ stockName (result (loadHistoricalResearch_response (Response false body) page_running))
    = "Tesla".
Proof.
  cbv zeta.
  set (body := JSON.text _).
  set (verification := JSON.Object [("verified", JSON.Bool false); ("issues", JSON.Str "two")]).
  set (data := JSON.Object _).
  assert (Hp : JSON.parse body = Some data) by (vm_compute; reflexivity).
  split; [exact Hp|].
  destruct (stored_result_renders false body data verification (JSON.Bool false)
              (JSON.Str "two") JSON.Undefined "Hold Tesla for now" "# Tesla" [] page_running
              Hp eq_refl eq_refl eq_refl eq_refl eq_refl (Forall_nil_2 _) eq_refl
              (or_introl eq_refl) eq_refl ltac:(discriminate))
    as (E & _ & Hphase & _).
  split; [rewrite Hphase; reflexivity|]. rewrite E. reflexivity.
Defined.

Lemma toggleReport_keeps_arrow_in_step_witness :
  let t := {| fullReportContent := ""; arrow_rotated := false |} in
  fullReportContent t ≠ "none"
  ∧ fullReportContent (toggleReport t) = "none"
  ∧ toggleReport (toggleReport (toggleReport t)) = toggleReport t.
Proof.
  cbv zeta. split; [discriminate|].
  pose proof (toggleReport_keeps_arrow_in_step
                {| fullReportContent := ""; arrow_rotated := false |}) as (_ & H2 & H3 & _).
  split; [apply H3; discriminate|exact H2].
Defined.

Lemma toggleHistory_twice_witness :
  historySidebar_open (side page_as_served) = false
  ∧ (toggleHistory page_as_served).2 = [GetHistory]
  ∧ historyList (side (toggleHistory page_as_served).1) = HistoryLoading.
Proof.
  split; [reflexivity|].
  pose proof (toggleHistory_twice page_as_served) as H.
  destruct (toggleHistory page_as_served) as [p1 requests1].
  destruct (toggleHistory p1) as [p2 requests2].
  destruct H as (_ & _ & H & _). exact (H eq_refl).
Defined.

End Side.

(** ** Instances *)

Section Instances.

Lemma decoder_pieces_hold_no_separator_witness :
  let chunks := [malformed_frame; String JS.LF planning_done_frame; "event: err"] in
  final_buffer EmptyString chunks = "event: err"
  ∧ ¬ occurs_in blank (final_buffer EmptyString chunks)
  ∧ Forall (λ line, ¬ occurs_in blank line) (feed EmptyString chunks).
Proof.
  cbv zeta. split; [vm_compute; reflexivity|].
  exact (decoder_pieces_hold_no_separator
           [malformed_frame; String JS.LF planning_done_frame; "event: err"]).
Defined.

Lemma addActivityLog_all_or_nothing_witness :
  let data := JSON.Object [("agent", JSON.Str "Planner");
                           ("action", JSON.Object [("toString", JSON.Number false 1 0)])] in
  JSON.get data "agent" = Some (JSON.Str "Planner")
  ∧ JSON.to_string (JSON.Object [("toString", JSON.Number false 1 0)]) = None
  ∧ addActivityLog data page_running = (page_running, Throw TypeError).
Proof.
  cbv zeta. split; [reflexivity|]. split; [reflexivity|].
  pose proof (addActivityLog_all_or_nothing
                (JSON.Object [("agent", JSON.Str "Planner");
                              ("action", JSON.Object [("toString", JSON.Number false 1 0)])])
                page_running) as H.
  destruct (addActivityLog _ page_running) as [p' [[]|e]] eqn:E.
  - destruct H as (timestamp & agent & details & action & _ & _ & _ & _ & _ & Ha & Hn & _).
    injection Ha as <-. by destruct Hn.
  - by destruct H as (-> & -> & _).
Defined.

End Instances.
